(** * Animated GIF Editor: timeline, playback scheduler, import and export

    A shallow embedding of [MainWindow] of [src/app.py].  The fields of the
    window object that carry the timeline and the playback state become the
    record [State]; every method that the properties below are about becomes a
    function on [State].  Python integers are [Z], Python lists are [list],
    an exception that leaves a method is [None] (or [Raised]), and what a
    method does to the outside (message boxes, files written, the GIF encoder
    call) is recorded as a list of [Event]s.

    Calls on widgets that only display the state ([rebuild_tree],
    [update_preview], the button captions, the window title) and the
    persisted preferences ([self.config]) hold no timeline data and are left
    out.  The default-duration spin box is different: setting its value
    emits the signal that [wire_signals] connects to
    [on_default_duration_changed], so it is modelled ([SpinBox]).  What a
    dialog answers is an argument of the method that shows it. *)

From Stdlib Require Import ZArith List String Ascii Bool Lia.
From Stdlib Require Import DecimalString DecimalNat Permutation FinFun.
Import ListNotations.

Open Scope string_scope.
Open Scope list_scope.
Open Scope Z_scope.

(** ** Python helpers *)

Module Py.

(** [len(l)] as a Python integer. *)
Definition len {A : Type} (l : list A) : Z := Z.of_nat (List.length l).

(** [l[i]]: indices [-len(l) <= i < 0] count from the end, anything outside
    [-len(l) .. len(l)-1] raises IndexError ([None]). *)
Definition index {A : Type} (l : list A) (i : Z) : option A :=
  if (0 <=? i) && (i <? len l) then nth_error l (Z.to_nat i)
  else if (- len l <=? i) && (i <? 0) then nth_error l (Z.to_nat (len l + i))
  else None.

(** Truth value of a list: [if l:]. *)
Definition truthy {A : Type} (l : list A) : bool :=
  match l with [] => false | _ :: _ => true end.

(** [del l[i]] for [0 <= i < len(l)]. *)
Fixpoint del {A : Type} (l : list A) (i : nat) : list A :=
  match l, i with
  | [], _ => []
  | _ :: t, O => t
  | h :: t, S j => h :: del t j
  end.

(** [str(n)] for a non-negative integer. *)
Definition str_nat (n : nat) : string :=
  NilZero.string_of_uint (Nat.to_uint n).

(** [f"{n:03d}"]: decimal, padded with zeros on the left to three digits. *)
Definition fmt_03d (n : nat) : string :=
  let d := str_nat n in
  match String.length d with
  | 1%nat => ("00" ++ d)%string
  | 2%nat => ("0" ++ d)%string
  | _ => d
  end.

(** [s.endswith(suffix)]. *)
Definition endswith (s suffix : string) : bool :=
  let n := String.length s in
  let k := String.length suffix in
  (k <=? n)%nat && String.eqb (substring (n - k) k s) suffix.

Definition newline : string := String (ascii_of_nat 10) EmptyString.

(** The list with position [n] overwritten by [x]. *)
Fixpoint replace_nth {A : Type} (l : list A) (n : nat) (x : A) : list A :=
  match l, n with
  | [], _ => []
  | _ :: t, O => x :: t
  | h :: t, S k => h :: replace_nth t k x
  end.

(** [l[i] = x], with the index resolved as [index] resolves it; [None] is
    IndexError. *)
Definition store {A : Type} (l : list A) (i : Z) (x : A) : option (list A) :=
  if (0 <=? i) && (i <? len l) then Some (replace_nth l (Z.to_nat i) x)
  else if (- len l <=? i) && (i <? 0)
       then Some (replace_nth l (Z.to_nat (len l + i)) x)
  else None.

(** [l.insert(i, x)] for [i >= 0]: beyond the end it appends. *)
Definition insert {A : Type} (l : list A) (i : nat) (x : A) : list A :=
  firstn i l ++ x :: skipn i l.

End Py.

(** ** Data model *)

(** [FrameData] of [model.py], with the fields [app.py] constructs it with. *)
Record FrameData : Type := mkFrame {
  source_path : string;
  display_name : string;
  duration_ms : Z;
  is_custom_duration : bool;
  is_checked : bool
}.

(** The state attributes set in [MainWindow.__init__].  [play_timer] is the
    QTimer: [None] when it is stopped, [Some ms] when it is running with
    interval [ms] and will deliver the next tick after [ms] milliseconds. *)
Record State : Type := mkState {
  frames : list FrameData;
  current_index : Z;
  default_duration_ms : Z;
  animation_mode : string;
  is_playing : bool;
  play_timer : option Z;
  wave_direction : Z;
  unsaved_changes : bool;
  current_gif_path : option string
}.

(** The state right after [__init__]. *)
Definition initial_state : State :=
  {| frames := []; current_index := -1; default_duration_ms := 100;
     animation_mode := "loop"; is_playing := false; play_timer := None;
     wave_direction := 1; unsaved_changes := false;
     current_gif_path := None |}.

(** Attribute assignments. *)
Definition set_frames (v : list FrameData) (s : State) : State :=
  mkState v (current_index s) (default_duration_ms s) (animation_mode s)
          (is_playing s) (play_timer s) (wave_direction s)
          (unsaved_changes s) (current_gif_path s).

Definition set_current_index (v : Z) (s : State) : State :=
  mkState (frames s) v (default_duration_ms s) (animation_mode s)
          (is_playing s) (play_timer s) (wave_direction s)
          (unsaved_changes s) (current_gif_path s).

Definition set_default_duration_ms (v : Z) (s : State) : State :=
  mkState (frames s) (current_index s) v (animation_mode s)
          (is_playing s) (play_timer s) (wave_direction s)
          (unsaved_changes s) (current_gif_path s).

Definition set_animation_mode (v : string) (s : State) : State :=
  mkState (frames s) (current_index s) (default_duration_ms s) v
          (is_playing s) (play_timer s) (wave_direction s)
          (unsaved_changes s) (current_gif_path s).

Definition set_is_playing (v : bool) (s : State) : State :=
  mkState (frames s) (current_index s) (default_duration_ms s)
          (animation_mode s) v (play_timer s) (wave_direction s)
          (unsaved_changes s) (current_gif_path s).

Definition set_play_timer (v : option Z) (s : State) : State :=
  mkState (frames s) (current_index s) (default_duration_ms s)
          (animation_mode s) (is_playing s) v (wave_direction s)
          (unsaved_changes s) (current_gif_path s).

Definition set_wave_direction (v : Z) (s : State) : State :=
  mkState (frames s) (current_index s) (default_duration_ms s)
          (animation_mode s) (is_playing s) (play_timer s) v
          (unsaved_changes s) (current_gif_path s).

Definition set_unsaved_changes (v : bool) (s : State) : State :=
  mkState (frames s) (current_index s) (default_duration_ms s)
          (animation_mode s) (is_playing s) (play_timer s) (wave_direction s)
          v (current_gif_path s).

Definition set_current_gif_path (v : option string) (s : State) : State :=
  mkState (frames s) (current_index s) (default_duration_ms s)
          (animation_mode s) (is_playing s) (play_timer s) (wave_direction s)
          (unsaved_changes s) v.

(** [play_timer.start(ms)] and [play_timer.stop()]. *)
Definition timer_start (ms : Z) (s : State) : State := set_play_timer (Some ms) s.
Definition timer_stop (s : State) : State := set_play_timer None s.

(** [mark_unsaved]. *)
Definition mark_unsaved (s : State) : State := set_unsaved_changes true s.

(** ** Playback scheduler *)

Module Playback.

(** [stop_playback]. *)
Definition stop_playback (s : State) : State :=
  timer_stop (set_is_playing false s).

(** [start_playback]; [None] is the IndexError of
    [self.frames[self.current_index]]. *)
Definition start_playback (s : State) : option State :=
  if negb (Py.truthy (frames s)) then Some s
  else
    let s1 := timer_stop (set_is_playing true s) in
    let dur :=
      if current_index s1 >=? 0
      then option_map duration_ms (Py.index (frames s1) (current_index s1))
      else Some (default_duration_ms s1) in
    match dur with
    | None => None
    | Some d => Some (timer_start (Z.max 10 d) s1)
    end.

(** [get_next_index_for_mode]: the returned index, and the state with the
    assignment to [wave_direction] the wave branch may have made. *)
Definition get_next_index_for_mode (s : State) : Z * State :=
  let n := Py.len (frames s) in
  if n =? 0 then (0, s)
  else if String.eqb (animation_mode s) "loop" then
    ((current_index s + 1) mod n, s)
  else if String.eqb (animation_mode s) "wave" then
    let s1 :=
      if current_index s <=? 0 then set_wave_direction 1 s
      else if current_index s >=? n - 1 then set_wave_direction (-1) s
      else s in
    (Z.max 0 (Z.min (n - 1) (current_index s1 + wave_direction s1)), s1)
  else ((current_index s + 1) mod n, s).

(** [advance_frame_for_playback], the handler of the timer's tick. *)
Definition advance_frame_for_playback (s : State) : option State :=
  if negb (Py.truthy (frames s)) then Some (stop_playback s)
  else
    let '(i, s1) := get_next_index_for_mode s in
    let s2 := set_current_index i s1 in
    match Py.index (frames s2) (current_index s2) with
    | None => None
    | Some f => Some (timer_start (Z.max 10 (duration_ms f)) s2)
    end.

(** [k] ticks in a row. *)
Fixpoint ticks (k : nat) (s : State) : option State :=
  match k with
  | O => Some s
  | S k' =>
      match advance_frame_for_playback s with
      | None => None
      | Some s' => ticks k' s'
      end
  end.

(** [prev_frame_clicked] and [next_frame_clicked]. *)
Definition prev_frame_clicked (s : State) : State :=
  if negb (Py.truthy (frames s)) then s
  else
    let s1 := stop_playback s in
    set_current_index ((current_index s1 - 1) mod Py.len (frames s1)) s1.

Definition next_frame_clicked (s : State) : State :=
  if negb (Py.truthy (frames s)) then s
  else
    let s1 := stop_playback s in
    set_current_index ((current_index s1 + 1) mod Py.len (frames s1)) s1.

(** [toggle_play_pause]. *)
Definition toggle_play_pause (s : State) : option State :=
  if is_playing s then Some (stop_playback s) else start_playback s.

End Playback.

(** ** The platform

    What the methods ask of the file system, of [pathlib], of Pillow and of
    Qt's SVG renderer.  None of it is code of this repository, so it is a
    record of oracles; a failed call (an exception inside Pillow) is [None]
    or [false]. *)

(** A decoded RGBA image: its pixels (opaque here) and its size. *)
Record Image : Type := mkImage {
  img_data : string;
  img_width : Z;
  img_height : Z
}.

(** The arguments of [images[0].save(path, save_all=True, ...)]. *)
Record GifSaveCall : Type := mkGifSave {
  gs_path : string;
  gs_first : Image;
  gs_append_images : list Image;
  gs_duration : list Z;
  gs_loop : Z;
  gs_disposal : Z
}.

Record Platform : Type := mkPlatform {
  (** [Path(p).exists()] *)
  path_exists : string -> bool;
  (** [str(Path(p))] *)
  path_str : string -> string;
  (** [Path(p).name] *)
  path_name : string -> string;
  (** [Path(p).stem] *)
  path_stem : string -> string;
  (** [Path(p).suffix] *)
  path_suffix : string -> string;
  (** [str(Path(d) / name)] *)
  path_join : string -> string -> string;
  (** [str(Path(p).with_suffix(ext))] *)
  path_with_suffix : string -> string -> string;
  (** [s.lower()] *)
  str_lower : string -> string;
  (** [str(self.base_dir / "_tmp_frames" / name)] *)
  tmp_frame_path : string -> string;
  (** [Image.open(p).convert("RGBA")] *)
  open_rgba : string -> option Image;
  (** the SVG branch of [load_frame_image]: render at the given size *)
  render_svg : string -> Z * Z -> option Image;
  (** [img.resize(size, LANCZOS)] *)
  resize : Image -> Z * Z -> option Image;
  (** does the GIF encoder call return (rather than raise)? *)
  gif_save_ok : GifSaveCall -> bool;
  (** [Image.open(src)] of [export_checked] returns *)
  export_open_ok : string -> bool;
  (** [img.save(path)] of [export_checked] returns *)
  export_save_ok : string -> bool;
  (** [pix.save(path, "PNG")] of [export_checked] returns True *)
  pixmap_save_ok : string -> bool
}.

(** What a method does to the outside, in order.  The text of a message box
    is the literal part of the source's message; the text of a caught
    exception, which two of them append, is not part of it. *)
Inductive Event : Type :=
| MsgInformation (title text : string)
| MsgCritical (title text : string)
| DirectoryDialog (title : string)
| FrameWrite (path src : string)
| GifWrite (call : GifSaveCall).

(** How a method ends. *)
Inductive Completion : Type :=
| Returned
| Raised.

(** ** Timeline edits *)

Module Timeline.

Section WithPlatform.

Variable P : Platform.

(** The [for f in files] loop of [add_images]. *)
Fixpoint append_files (default_ms : Z) (files : list string)
         (fr : list FrameData) : list FrameData :=
  match files with
  | [] => fr
  | f :: rest =>
      append_files default_ms rest
        (fr ++ [mkFrame (path_str P f) (path_name P f) default_ms false false])
  end.

(** [add_images], with [files] the list the file dialog returned. *)
Definition add_images (files : list string) (s : State) : option State :=
  if negb (Py.truthy files) then Some s
  else
    let s1 :=
      set_frames (append_files (default_duration_ms s) files (frames s)) s in
    let s2 :=
      if (current_index s1 =? -1) && Py.truthy (frames s1)
      then set_current_index 0 s1 else s1 in
    let s3 := mark_unsaved s2 in
    if Py.truthy (frames s3) && negb (is_playing s3)
    then Playback.start_playback s3
    else Some s3.

End WithPlatform.

(** [remove_selected], with [idx] the value of [get_selected_index()]. *)
Definition remove_selected (idx : Z) (s : State) : State :=
  if (idx <? 0) || (idx >=? Py.len (frames s)) then s
  else
    let s1 := set_frames (Py.del (frames s) (Z.to_nat idx)) s in
    let s2 :=
      if negb (Py.truthy (frames s1)) then set_current_index (-1) s1
      else set_current_index
             (Z.max 0 (Z.min idx (Py.len (frames s1) - 1))) s1 in
    mark_unsaved s2.

(** The body of the loop of [on_default_duration_changed]. *)
Definition apply_default (value : Z) (f : FrameData) : FrameData :=
  if negb (is_custom_duration f)
  then mkFrame (source_path f) (display_name f) value
               (is_custom_duration f) (is_checked f)
  else f.

(** [on_default_duration_changed]. *)
Definition on_default_duration_changed (value : Z) (s : State) : State :=
  let s1 := set_default_duration_ms value s in
  let s2 := set_frames (map (apply_default value) (frames s1)) s1 in
  mark_unsaved s2.

(** [on_overwrite_all_clicked]. *)
Definition on_overwrite_all_clicked (s : State) : State :=
  mark_unsaved
    (set_frames
       (map (fun f => mkFrame (source_path f) (display_name f)
                              (default_duration_ms s) false (is_checked f))
            (frames s))
       s).

(** [duplicate_selected], with [idx] the value of [get_selected_index()]. *)
Definition duplicate_selected (idx : Z) (s : State) : option State :=
  if (idx <? 0) || (idx >=? Py.len (frames s)) then Some s
  else
    match Py.index (frames s) idx with
    | None => None
    | Some f =>
        let dup := mkFrame (source_path f) (display_name f ++ "_copy")%string
                           (duration_ms f) (is_custom_duration f)
                           (is_checked f) in
        Some (mark_unsaved
                (set_current_index (idx + 1)
                   (set_frames (Py.insert (frames s) (Z.to_nat (idx + 1)) dup)
                      s)))
    end.

(** The tuple assignment [l[i], l[j] = (l[j], l[i])]: both reads, then the
    two stores in order. *)
Definition swap_items (l : list FrameData) (i j : Z) : option (list FrameData) :=
  match Py.index l j, Py.index l i with
  | Some a, Some b =>
      match Py.store l i a with
      | Some l1 => Py.store l1 j b
      | None => None
      end
  | _, _ => None
  end.

(** [move_up]. *)
Definition move_up (idx : Z) (s : State) : option State :=
  if idx <=? 0 then Some s
  else
    match swap_items (frames s) (idx - 1) idx with
    | None => None
    | Some l =>
        Some (mark_unsaved (set_current_index (idx - 1) (set_frames l s)))
    end.

(** [move_down]. *)
Definition move_down (idx : Z) (s : State) : option State :=
  if (idx <? 0) || (idx >=? Py.len (frames s) - 1) then Some s
  else
    match swap_items (frames s) (idx + 1) idx with
    | None => None
    | Some l =>
        Some (mark_unsaved (set_current_index (idx + 1) (set_frames l s)))
    end.

(** [edit_duration_for_frame]; [answer] is the pair [(val, ok)] that
    [QInputDialog.getInt] returns. *)
Definition edit_duration_for_frame (idx : Z) (answer : Z * bool) (s : State)
  : option State :=
  if (idx <? 0) || (idx >=? Py.len (frames s)) then Some s
  else
    match Py.index (frames s) idx with
    | None => None
    | Some frame =>
        let '(val, ok) := answer in
        if ok then
          let frame' :=
            mkFrame (source_path frame) (display_name frame) val
                    (negb (val =? default_duration_ms s)) (is_checked frame) in
          match Py.store (frames s) idx frame' with
          | None => None
          | Some l =>
              Some (mark_unsaved (set_current_index idx (set_frames l s)))
          end
        else Some s
    end.

(** [on_tree_item_clicked], for an item that carries the row [idx]. *)
Definition on_tree_item_clicked (idx column : Z) (answer : Z * bool)
           (s : State) : option State :=
  if column =? 3 then edit_duration_for_frame idx answer s
  else
    match Py.index (frames s) idx with
    | None => None
    | Some frame =>
        let frame' :=
          mkFrame (source_path frame) (display_name frame) (duration_ms frame)
                  (is_custom_duration frame) (negb (is_checked frame)) in
        match Py.store (frames s) idx frame' with
        | None => None
        | Some l =>
            Some (mark_unsaved (set_current_index idx (set_frames l s)))
        end
    end.

(** [on_tree_item_double_clicked]. *)
Definition on_tree_item_double_clicked (idx column : Z) (answer : Z * bool)
           (s : State) : option State :=
  if column =? 3 then edit_duration_for_frame idx answer s else Some s.

(** [on_mode_changed], with [data] the value of [mode_combo.currentData()]. *)
Definition on_mode_changed (data : string) (s : State) : State :=
  mark_unsaved (set_animation_mode data s).

End Timeline.


(** ** GIF import *)

(** A sub-image as the loop of [open_gif] meets it: what [frame.info] holds
    under "duration" ([None] when the key is absent), and whether
    [frame.convert] and [frame_rgba.save] return for it or one of them
    raises. *)
Inductive SubImage : Type :=
| Decodable (info : option Z)
| Undecodable (info : option Z).

(** An opened image: the sub-images [ImageSequence.Iterator] yields, and
    whether the iterator then raises instead of stopping (a truncated
    file). *)
Record GifImage : Type := mkGif {
  gif_subs : list SubImage;
  gif_iterator_raises : bool
}.

(** The default-duration spin box as a method finds it: its range, which
    [ui_main.py] sets, and the value it shows. *)
Record SpinBox : Type := mkSpin {
  spin_minimum : Z;
  spin_maximum : Z;
  spin_value : Z
}.

Module GifImport.

(** What [QSpinBox.setValue(v)] makes of [v]: the value bounded to the
    range. *)
Definition spin_bound (spin : SpinBox) (v : Z) : Z :=
  Z.max (spin_minimum spin) (Z.min (spin_maximum spin) v).

(** [self.spin_default_dur.setValue(v)]: if the bounded value differs from
    the value shown, the box emits [valueChanged], and the slot connected to
    it, [on_default_duration_changed], runs before [setValue] returns. *)
Definition spin_set_value (spin : SpinBox) (v : Z) (s : State) : State :=
  if spin_bound spin v =? spin_value spin then s
  else Timeline.on_default_duration_changed (spin_bound spin v) s.

Section WithPlatform.

Variable P : Platform.

(** The [for frame in ImageSequence.Iterator(im)] loop of [open_gif], which
    sits in a [try] with a [finally] and no [except]: an exception of the
    iterator, of [convert] or of [save] leaves the loop, and the method,
    with the frames appended so far.  [idx] is the running ordinal. *)
Fixpoint decode_loop (base_name : string) (default_ms : Z)
         (subs : list SubImage) (iterator_raises : bool) (idx : nat)
         (durations : list Z) (fr : list FrameData)
  : list Z * list FrameData * Completion :=
  match subs with
  | [] => (durations, fr, if iterator_raises then Raised else Returned)
  | Undecodable info :: _ =>
      let dur := match info with Some d => d | None => default_ms end in
      (durations ++ [dur], fr, Raised)
  | Decodable info :: rest =>
      let dur := match info with Some d => d | None => default_ms end in
      let disp_name :=
        (base_name ++ "_" ++ Py.fmt_03d idx ++ ".png")%string in
      decode_loop base_name default_ms rest iterator_raises (S idx)
        (durations ++ [dur])
        (fr ++ [mkFrame (tmp_frame_path P disp_name) disp_name dur false false])
  end.

(** [all(d == durations[0] for d in durations)], for a non-empty list. *)
Definition all_equal_first (durations : list Z) : bool :=
  match durations with
  | [] => true
  | d0 :: _ => forallb (fun d => d =? d0) durations
  end.

(** The post-pass over the durations. *)
Definition post_pass (durations : list Z) (s : State) : State :=
  if Py.truthy durations && all_equal_first durations then
    let s1 := set_default_duration_ms (hd 0 durations) s in
    set_frames
      (map (fun f => mkFrame (source_path f) (display_name f)
                             (default_duration_ms s1) false (is_checked f))
           (frames s1))
      s1
  else
    set_frames
      (map (fun f => mkFrame (source_path f) (display_name f) (duration_ms f)
                             (negb (duration_ms f =? default_duration_ms s))
                             (is_checked f))
           (frames s))
      s.

(** [open_gif]: the state it leaves, what it shows, and how it ends.
    [path_str] is the answer of the file dialog (empty when it was
    cancelled), [discard_ok] the answer of [maybe_save_before_discard],
    [im] the result of [Image.open] ([None] when it raised), [spin] the
    default-duration spin box as it stands. *)
Definition open_gif (path_str : string) (discard_ok : bool)
           (im : option GifImage) (spin : SpinBox) (s : State)
  : State * list Event * Completion :=
  if String.eqb path_str "" then (s, [], Returned)
  else if negb discard_ok then (s, [], Returned)
  else
    match im with
    | None => (s, [MsgCritical "Open GIF" "Could not open GIF"], Returned)
    | Some g =>
        let s1 := set_frames [] s in
        let '(durations, fr, c) :=
          decode_loop (path_stem P path_str) (default_duration_ms s1)
                      (gif_subs g) (gif_iterator_raises g) 1 []
                      (frames s1) in
        let s2 := set_frames fr s1 in
        match c with
        | Raised => (s2, [], Raised)
        | Returned =>
            let s3 := post_pass durations s2 in
            let s3' := spin_set_value spin (default_duration_ms s3) s3 in
            let s4 :=
              set_current_index (if Py.truthy (frames s3') then 0 else -1)
                                s3' in
            let s5 := set_current_gif_path (Some path_str) s4 in
            let s6 := set_unsaved_changes false s5 in
            if Py.truthy (frames s6) then
              match Playback.start_playback s6 with
              | Some s7 => (s7, [], Returned)
              | None => (timer_stop (set_is_playing true s6), [], Raised)
              end
            else (s6, [], Returned)
        end
    end.

End WithPlatform.

End GifImport.

(** ** GIF export *)

Module GifExport.

Section WithPlatform.

Variable P : Platform.

(** [load_frame_image]: the image (or [None]) with its width and height. *)
Definition load_frame_image (frame : FrameData)
           (expected_size : option (Z * Z)) : option Image * Z * Z :=
  if String.eqb (source_path frame) "" then (None, 0, 0)
  else
    let p := source_path frame in
    if negb (path_exists P p) then (None, 0, 0)
    else
      let opened :=
        if String.eqb (str_lower P (path_suffix P p)) ".svg"
        then render_svg P p
               (match expected_size with Some sz => sz | None => (512, 512) end)
        else open_rgba P p in
      match opened with
      | None => (None, 0, 0)
      | Some img =>
          match expected_size with
          | None => (Some img, img_width img, img_height img)
          | Some sz =>
              match resize P img sz with
              | None => (None, 0, 0)
              | Some r => (Some r, img_width r, img_height r)
              end
          end
      end.

(** The [for f in self.frames] loop of [_save_gif_to_path], with its two
    accumulators. *)
Fixpoint collect (out_size : Z * Z) (fs : list FrameData)
         (images : list Image) (durations : list Z)
  : list Image * list Z :=
  match fs with
  | [] => (images, durations)
  | f :: rest =>
      match load_frame_image f (Some out_size) with
      | (None, _, _) => collect out_size rest images durations
      | (Some img, _, _) =>
          collect out_size rest (images ++ [img]) (durations ++ [duration_ms f])
      end
  end.

(** [_save_gif_to_path]. *)
Definition _save_gif_to_path (path : string) (s : State)
  : State * list Event :=
  match frames s with
  | [] => (s, [MsgInformation "Save GIF" "No frames to save."])
  | f0 :: _ =>
      match load_frame_image f0 None with
      | (None, _, _) =>
          (s, [MsgCritical "Save GIF" "Could not load first frame."])
      | (Some _, w, h) =>
          let out_size := (w, h) in
          let '(images, durations) := collect out_size (frames s) [] [] in
          match images with
          | [] =>
              (s, [MsgCritical "Save GIF"
                               "No frames could be loaded for saving."])
          | first :: more =>
              let call := mkGifSave path first more durations 0 2 in
              if gif_save_ok P call then
                (set_unsaved_changes false s,
                 [GifWrite call;
                  MsgInformation "Save GIF"
                    ("Saved animated GIF to:" ++ Py.newline ++ path)%string])
              else
                (s, [GifWrite call;
                     MsgCritical "Save GIF" "Error saving GIF"])
          end
      end
  end.

(** [save_gif_as], with [path_str] the answer of the file dialog. *)
Definition save_gif_as (path_str : string) (s : State) : State * list Event :=
  if String.eqb path_str "" then (s, [])
  else
    let p :=
      if negb (String.eqb (str_lower P (path_suffix P path_str)) ".gif")
      then path_with_suffix P path_str ".gif" else path_str in
    let '(s1, tr) := _save_gif_to_path p s in
    (set_current_gif_path (Some p) s1, tr).

(** [save_gif]; [save_as_answer] is what the file dialog of [save_gif_as]
    answers when it is shown. *)
Definition save_gif (save_as_answer : string) (s : State)
  : State * list Event :=
  match current_gif_path s with
  | None => save_gif_as save_as_answer s
  | Some p => _save_gif_to_path p s
  end.

End WithPlatform.

End GifExport.

(** ** Export of the checked frames *)

Module FrameExport.

Section WithPlatform.

Variable P : Platform.

Definition svg_export_path (out_dir : string) (f : FrameData) : string :=
  path_join P out_dir
    (if Py.endswith (str_lower P (display_name f)) ".png"
     then display_name f else (display_name f ++ ".png")%string).

Definition raster_export_path (out_dir : string) (f : FrameData) : string :=
  let export_path := path_join P out_dir (display_name f) in
  if String.eqb (path_suffix P export_path) ""
  then path_with_suffix P export_path ".png" else export_path.

(** The [for f in checked] loop of [export_checked]; [tr] holds the files
    written so far.  [Image.open] and [img.save] are not guarded by a
    [try]; [pix.save] reports a failure by its result, which the source
    drops. *)
Fixpoint export_loop (out_dir : string) (checked : list FrameData)
         (tr : list Event) : list Event * Completion :=
  match checked with
  | [] => (tr, Returned)
  | f :: rest =>
      let src := source_path f in
      if String.eqb src "" || negb (path_exists P src)
      then export_loop out_dir rest tr
      else if String.eqb (str_lower P (path_suffix P src)) ".svg"
      then
        let export_path := svg_export_path out_dir f in
        if pixmap_save_ok P export_path
        then export_loop out_dir rest (tr ++ [FrameWrite export_path src])
        else export_loop out_dir rest tr
      else if negb (export_open_ok P src) then (tr, Raised)
      else
        let export_path := raster_export_path out_dir f in
        if export_save_ok P export_path
        then export_loop out_dir rest (tr ++ [FrameWrite export_path src])
        else (tr, Raised)
  end.

(** [export_checked], with [out_dir_str] the answer the directory dialog
    gives when it is shown (empty when cancelled). *)
Definition export_checked (out_dir_str : string) (s : State)
  : list Event * Completion :=
  let checked := filter is_checked (frames s) in
  if negb (Py.truthy checked)
  then ([MsgInformation "Export Frames" "No checked frames to export."],
        Returned)
  else
    let tr0 := [DirectoryDialog "Export Frames To Folder"] in
    if String.eqb out_dir_str "" then (tr0, Returned)
    else
      let out_dir := path_str P out_dir_str in
      match export_loop out_dir checked tr0 with
      | (tr, Raised) => (tr, Raised)
      | (tr, Returned) =>
          (tr ++ [MsgInformation "Export Frames"
                    ("Exported " ++ Py.str_nat (List.length checked)
                     ++ " frame(s) to " ++ out_dir)%string],
           Returned)
      end.

(** The paths a trace wrote frames to, one entry per completed save. *)
Definition written_paths (tr : list Event) : list string :=
  flat_map (fun e => match e with FrameWrite path _ => [path] | _ => [] end) tr.

(** The number of files a trace wrote: two saves to one path leave one
    file. *)
Definition written (tr : list Event) : nat :=
  List.length (nodup string_dec (written_paths tr)).

End WithPlatform.

End FrameExport.

(** ** Project: the unsaved-changes guard, new and open *)

(** The button of the question box of [maybe_save_before_discard]. *)
Inductive Response : Type :=
| Yes
| No
| Cancel.

Module Project.

Section WithPlatform.

Variable P : Platform.

(** [maybe_save_before_discard]: its result, the state it leaves and what
    the save it may run did outside.  [resp] is the button pressed when the
    question is asked. *)
Definition maybe_save_before_discard (resp : Response)
           (save_as_answer : string) (s : State)
  : bool * State * list Event :=
  if negb (unsaved_changes s) then (true, s, [])
  else
    match resp with
    | Yes =>
        let '(s1, tr) := GifExport.save_gif P save_as_answer s in
        (negb (unsaved_changes s1), s1, tr)
    | No => (true, s, [])
    | Cancel => (false, s, [])
    end.

(** [new_project]. *)
Definition new_project (resp : Response) (save_as_answer : string)
           (s : State) : State * list Event :=
  let '(ok, s1, tr) := maybe_save_before_discard resp save_as_answer s in
  if negb ok then (s1, tr)
  else
    (set_unsaved_changes false
       (set_current_gif_path None
          (set_current_index (-1) (set_frames [] s1))),
     tr).

(** [open_gif] with its guard: the file dialog first, then
    [maybe_save_before_discard], then the import proper. *)
Definition open_gif_guarded (path_str : string) (resp : Response)
           (save_as_answer : string) (im : option GifImage) (spin : SpinBox)
           (s : State) : State * list Event * Completion :=
  if String.eqb path_str "" then (s, [], Returned)
  else
    let '(ok, s1, tr) := maybe_save_before_discard resp save_as_answer s in
    let '(s2, tr', c) := GifImport.open_gif P path_str ok im spin s1 in
    (s2, tr ++ tr', c).

(** [closeEvent]: whether the window closes, and the state the guard
    leaves. *)
Definition closeEvent (resp : Response) (save_as_answer : string)
           (s : State) : bool * State * list Event :=
  maybe_save_before_discard resp save_as_answer s.

(** [open_settings], with [accepted] the result of [dlg.exec()]. *)
Definition open_settings (accepted : bool) (s : State) : State :=
  if accepted then mark_unsaved s else s.

End WithPlatform.

End Project.

(** ** The signals of [wire_signals] and of the actions *)

Inductive UiEvent : Type :=
| ItemClicked (idx column : Z) (answer : Z * bool)
| ItemDoubleClicked (idx column : Z) (answer : Z * bool)
| AddClicked (files : list string)
| RemoveClicked (idx : Z)
| DuplicateClicked (idx : Z)
| UpClicked (idx : Z)
| DownClicked (idx : Z)
| ExportClicked (out_dir_str : string)
| PlayPauseClicked
| PrevClicked
| NextClicked
| DefaultDurationChanged (value : Z)
| OverwriteAllClicked
| ModeChanged (data : string)
| TimerTimeout
| NewTriggered (resp : Response) (save_as_answer : string)
| OpenTriggered (path_str : string) (resp : Response)
                (save_as_answer : string) (im : option GifImage)
                (spin : SpinBox)
| SaveTriggered (save_as_answer : string)
| SaveAsTriggered (path_str : string)
| SettingsTriggered (accepted : bool)
| CloseRequested (resp : Response) (save_as_answer : string).

Module Ui.

Section WithPlatform.

Variable P : Platform.

(** What a slot leaves when it returns.  No slot of the source catches an
    exception it does not handle itself and no [sys.excepthook] is
    installed, so PyQt6 ends the application when an exception leaves a
    slot: the run stops there ([None]). *)
Definition returned (r : State * Completion) : option State :=
  match r with
  | (s, Returned) => Some s
  | (_, Raised) => None
  end.

(** The slot each signal is connected to, run on the state; [None] when the
    slot raises.  A stopped timer delivers no timeout. *)
Definition handle (e : UiEvent) (s : State) : option State :=
  match e with
  | ItemClicked idx column answer =>
      Timeline.on_tree_item_clicked idx column answer s
  | ItemDoubleClicked idx column answer =>
      Timeline.on_tree_item_double_clicked idx column answer s
  | AddClicked files => Timeline.add_images P files s
  | RemoveClicked idx => Some (Timeline.remove_selected idx s)
  | DuplicateClicked idx => Timeline.duplicate_selected idx s
  | UpClicked idx => Timeline.move_up idx s
  | DownClicked idx => Timeline.move_down idx s
  | ExportClicked out_dir_str =>
      returned (s, snd (FrameExport.export_checked P out_dir_str s))
  | PlayPauseClicked => Playback.toggle_play_pause s
  | PrevClicked => Some (Playback.prev_frame_clicked s)
  | NextClicked => Some (Playback.next_frame_clicked s)
  | DefaultDurationChanged value =>
      Some (Timeline.on_default_duration_changed value s)
  | OverwriteAllClicked => Some (Timeline.on_overwrite_all_clicked s)
  | ModeChanged data => Some (Timeline.on_mode_changed data s)
  | TimerTimeout =>
      match play_timer s with
      | None => Some s
      | Some _ => Playback.advance_frame_for_playback s
      end
  | NewTriggered resp answer => Some (fst (Project.new_project P resp answer s))
  | OpenTriggered path_str resp answer im spin =>
      let '(s', _, c) :=
        Project.open_gif_guarded P path_str resp answer im spin s in
      returned (s', c)
  | SaveTriggered answer => Some (fst (GifExport.save_gif P answer s))
  | SaveAsTriggered path_str => Some (fst (GifExport.save_gif_as P path_str s))
  | SettingsTriggered accepted => Some (Project.open_settings accepted s)
  | CloseRequested resp answer =>
      Some (snd (fst (Project.closeEvent P resp answer s)))
  end.

(** The rows a signal can name: the tree holds one item per frame, so a
    clicked item carries a row of the list, and the selected row handed to
    [move_up] is -1 or a row of the list. *)
Definition selection_ok (e : UiEvent) (s : State) : Prop :=
  match e with
  | ItemClicked idx _ _ => 0 <= idx < Py.len (frames s)
  | ItemDoubleClicked idx _ _ => 0 <= idx < Py.len (frames s)
  | UpClicked idx => -1 <= idx < Py.len (frames s)
  | _ => True
  end.

(** The states the window can be in: the one [__init__] builds, and those a
    slot leaves when it returns. *)
Inductive reachable : State -> Prop :=
| reach_init : reachable initial_state
| reach_step (e : UiEvent) (s s' : State) :
    reachable s -> selection_ok e s -> handle e s = Some s' -> reachable s'.

End WithPlatform.

End Ui.

(** ** Invariants of the window state *)

(** The cursor is -1 on an empty timeline and a row of the list otherwise. *)
Definition cursor_ok (s : State) : Prop :=
  (frames s = [] /\ current_index s = -1) \/
  0 <= current_index s < Py.len (frames s).

(** A frame that is not pinned carries the default duration (which is what
    [rebuild_tree] prints for it). *)
Definition durations_consistent (s : State) : Prop :=
  forall f, In f (frames s) ->
            is_custom_duration f = false ->
            duration_ms f = default_duration_ms s.

(** The playing flag is up exactly while the timer runs, and the timer never
    runs with an interval under 10 ms. *)
Definition timer_ok (s : State) : Prop :=
  (is_playing s = true <-> play_timer s <> None) /\
  forall ms, play_timer s = Some ms -> 10 <= ms.

Definition direction_ok (s : State) : Prop :=
  wave_direction s = 1 \/ wave_direction s = -1.

Definition Inv (s : State) : Prop :=
  cursor_ok s /\ durations_consistent s /\ timer_ok s /\ direction_ok s.


(** ** Reference notions of the specification *)

(** The ping-pong sequence [0,1,2,1,0,1,2,...] of a three-frame timeline. *)
Definition wave3 (k : nat) : Z :=
  match (k mod 4)%nat with
  | 0%nat => 0
  | 1%nat => 1
  | 2%nat => 2
  | _ => 1
  end.

(** Where a three-frame wave stands: the cursor, and the direction where the
    next step depends on it. *)
Definition phase (p : nat) (s : State) : Prop :=
  match p with
  | 0%nat => current_index s = 0
  | 1%nat => current_index s = 1 /\ wave_direction s = 1
  | 2%nat => current_index s = 2
  | _ => current_index s = 1 /\ wave_direction s = -1
  end.

(** [clamp(x, lo, hi)]. *)
Definition clamp (x lo hi : Z) : Z := Z.max lo (Z.min x hi).

(** The export failures, by the message box that reports each. *)
Definition EmptyTimelineError : Event :=
  MsgInformation "Save GIF" "No frames to save.".
Definition FirstFrameLoadError : Event :=
  MsgCritical "Save GIF" "Could not load first frame.".
Definition NoLoadableFramesError : Event :=
  MsgCritical "Save GIF" "No frames could be loaded for saving.".
Definition NothingCheckedError : Event :=
  MsgInformation "Export Frames" "No checked frames to export.".

(** Does a trace touch the destination of a GIF export? *)
Definition writes_gif (tr : list Event) : bool :=
  existsb (fun e => match e with GifWrite _ => true | _ => false end) tr.

(** Does a trace show the directory dialog? *)
Definition asks_directory (tr : list Event) : bool :=
  existsb (fun e => match e with DirectoryDialog _ => true | _ => false end) tr.

(** The image [load_frame_image] returns, without the two sizes. *)
Definition loaded (P : Platform) (f : FrameData) (size : option (Z * Z))
  : option Image :=
  fst (fst (GifExport.load_frame_image P f size)).

(** The size [_save_gif_to_path] gives every frame: the size of the first
    frame loaded as it is. *)
Definition canonical_size (P : Platform) (f0 : FrameData) : Z * Z :=
  let '(_, w, h) := GifExport.load_frame_image P f0 None in (w, h).

(** The (image, duration) pairs of the frames that load at [out_size], in
    timeline order. *)
Fixpoint surviving (P : Platform) (out_size : Z * Z) (fs : list FrameData)
  : list (Image * Z) :=
  match fs with
  | [] => []
  | f :: rest =>
      match loaded P f (Some out_size) with
      | Some img => (img, duration_ms f) :: surviving P out_size rest
      | None => surviving P out_size rest
      end
  end.

(** The durations an import extracts: the declared one, or the default. *)
Definition extracted (default_ms : Z) (subs : list (option Z)) : list Z :=
  map (fun info => match info with Some d => d | None => default_ms end) subs.

(** An image whose sub-images all decode and whose iterator stops. *)
Definition complete (subs : list (option Z)) : GifImage :=
  mkGif (map Decodable subs) false.

(** Does decoding the image raise: at a sub-image, or in the iterator? *)
Definition decode_raises (g : GifImage) : bool :=
  existsb (fun x => match x with Undecodable _ => true | Decodable _ => false end)
          (gif_subs g)
  || gif_iterator_raises g.

(** The sub-images that decode before the first one that does not. *)
Fixpoint decoded_prefix (subs : list SubImage) : list (option Z) :=
  match subs with
  | Decodable info :: rest => info :: decoded_prefix rest
  | _ => []
  end.

(** The image a frame contributes to an export at [out_size], in terms of
    the platform alone: its source decoded (an SVG rendered at [out_size])
    and the result resampled to [out_size]; nothing when the source is
    empty or gone, or when decoding or resampling fails. *)
Definition resampled (P : Platform) (out_size : Z * Z) (f : FrameData)
  : option Image :=
  if String.eqb (source_path f) "" then None
  else if negb (path_exists P (source_path f)) then None
  else
    match
      (if String.eqb (str_lower P (path_suffix P (source_path f))) ".svg"
       then render_svg P (source_path f) out_size
       else open_rgba P (source_path f))
    with
    | None => None
    | Some decoded => resize P decoded out_size
    end.

(** The (resampled image, duration) pairs of a frame list, in order, the
    frames without an image left out. *)
Fixpoint encoded_pairs (P : Platform) (out_size : Z * Z)
         (fs : list FrameData) : list (Image * Z) :=
  match fs with
  | [] => []
  | f :: rest =>
      match resampled P out_size f with
      | Some img => (img, duration_ms f) :: encoded_pairs P out_size rest
      | None => encoded_pairs P out_size rest
      end
  end.

(** The path [export_checked] writes a frame to. *)
Definition export_target (P : Platform) (out_dir : string) (f : FrameData)
  : string :=
  if String.eqb (str_lower P (path_suffix P (source_path f))) ".svg"
  then FrameExport.svg_export_path P out_dir f
  else FrameExport.raster_export_path P out_dir f.

(** Can [export_checked] write the frame: the source is there, and either
    it is an SVG whose pixmap saves, or it opens and saves? *)
Definition exportable (P : Platform) (out_dir : string) (f : FrameData)
  : Prop :=
  source_path f <> "" /\
  path_exists P (source_path f) = true /\
  (if String.eqb (str_lower P (path_suffix P (source_path f))) ".svg"
   then pixmap_save_ok P (FrameExport.svg_export_path P out_dir f) = true
   else export_open_ok P (source_path f) = true /\
        export_save_ok P (FrameExport.raster_export_path P out_dir f) = true).


(** ** Concrete timelines and a concrete platform *)

Module Demo.

Definition frame (src : string) (ms : Z) (custom checked : bool) : FrameData :=
  mkFrame src src ms custom checked.

Definition with_frames (fr : list FrameData) (cursor : Z) (mode : string)
           (dir : Z) : State :=
  mkState fr cursor 100 mode true (Some 100) dir false None.

(** One frame, wave mode, cursor 0, direction -1. *)
Definition single_wave : State :=
  with_frames [frame "a.png" 100 false false] 0 "wave" (-1).

(** Three frames with distinct durations. *)
Definition abc : list FrameData :=
  [frame "a.png" 100 false false; frame "b.png" 250 true true;
   frame "c.png" 40 true false].

Definition three_wave : State := with_frames abc 0 "wave" 1.
Definition three_loop : State := with_frames abc 0 "loop" 1.

(** Three frames, cursor on the last one. *)
Definition three_at_end : State := with_frames abc 2 "loop" 1.

(** No frames, but the timer still running. *)
Definition empty_playing : State := with_frames [] (-1) "loop" 1.

(** [pathlib] on plain POSIX paths: the index of the last occurrence of a
    character, the final component, its suffix and stem, a replaced
    suffix. *)
Fixpoint rfind (c : ascii) (s : string) : option nat :=
  match s with
  | EmptyString => None
  | String a rest =>
      match rfind c rest with
      | Some i => Some (S i)
      | None => if Ascii.eqb a c then Some O else None
      end
  end.

Definition name_of (p : string) : string :=
  match rfind "/" p with
  | Some i => substring (S i) (String.length p - S i) p
  | None => p
  end.

Definition suffix_of (p : string) : string :=
  let n := name_of p in
  match rfind "." n with
  | Some i =>
      if (0 <? i)%nat && (i <? String.length n - 1)%nat
      then substring i (String.length n - i) n
      else ""
  | None => ""
  end.

Definition stem_of (p : string) : string :=
  let n := name_of p in
  substring 0 (String.length n - String.length (suffix_of p)) n.

Definition with_suffix (p ext : string) : string :=
  (substring 0 (String.length p - String.length (suffix_of p)) p ++ ext)%string.

(** [str.lower] on ASCII. *)
Definition lower_char (c : ascii) : ascii :=
  let n := nat_of_ascii c in
  if (65 <=? n)%nat && (n <=? 90)%nat then ascii_of_nat (n + 32) else c.

Fixpoint lower (s : string) : string :=
  match s with
  | EmptyString => EmptyString
  | String c rest => String (lower_char c) (lower rest)
  end.

(** A file system on which "missing.png" does not exist and "broken.png"
    exists but does not decode; "c.png" is 8x6, every other image 4x3.
    Resampling gives the requested size and marks the pixels as new. *)
Definition platform : Platform :=
  {| path_exists := fun p => negb (String.eqb p "missing.png");
     path_str := fun p => p;
     path_name := name_of;
     path_stem := stem_of;
     path_suffix := suffix_of;
     path_join := fun d n => (d ++ "/" ++ n)%string;
     path_with_suffix := with_suffix;
     str_lower := lower;
     tmp_frame_path := fun n => ("_tmp_frames/" ++ n)%string;
     open_rgba := fun p =>
       if String.eqb p "broken.png" then None
       else if String.eqb p "c.png" then Some (mkImage p 8 6)
       else Some (mkImage p 4 3);
     render_svg := fun p sz => Some (mkImage p (fst sz) (snd sz));
     resize := fun img sz =>
       Some (mkImage (img_data img ++ "~")%string (fst sz) (snd sz));
     gif_save_ok := fun _ => true;
     export_open_ok := fun p => negb (String.eqb p "broken.png");
     export_save_ok := fun _ => true;
     pixmap_save_ok := fun _ => true |}.

(** The same platform, except that resampling fails. *)
Definition platform_no_resize : Platform :=
  mkPlatform (path_exists platform) (path_str platform) (path_name platform)
             (path_stem platform) (path_suffix platform) (path_join platform)
             (path_with_suffix platform) (str_lower platform)
             (tmp_frame_path platform) (open_rgba platform)
             (render_svg platform) (fun _ _ => None)
             (gif_save_ok platform) (export_open_ok platform)
             (export_save_ok platform) (pixmap_save_ok platform).

(** Modelled from the spec: the default-duration spin box that
    [build_main_ui] of [ui_main.py] creates, which is not at hand.  Its
    range is the range the specification gives for [duration_ms], 10 to
    60000, and it shows the initial default, 100. *)
Definition spin_box : SpinBox := mkSpin 10 60000 100.

(** A timeline in which the first frame is 4x3 and the last 8x6, the second
    being gone. *)
Definition mixed_sizes : State :=
  with_frames [frame "a.png" 100 false false; frame "missing.png" 70 true true;
               frame "c.png" 40 true false] 0 "loop" 1.

(** Two checked frames that carry the same name. *)
Definition same_name : State :=
  with_frames [mkFrame "a.png" "a.png" 100 false true;
               mkFrame "c.png" "a.png" 40 true true] 0 "loop" 1.

(** A timeline with one checked frame that decodes and one that is gone. *)
Definition checked_pair : State :=
  with_frames [frame "a.png" 100 false true; frame "missing.png" 70 true true;
               frame "c.png" 40 true false] 0 "loop" 1.

(** A timeline whose checked frame exists but does not decode. *)
Definition checked_broken : State :=
  with_frames [frame "broken.png" 100 false true] 0 "loop" 1.

(** A timeline whose only checked frame points to a file that is gone. *)
Definition checked_missing : State :=
  with_frames [frame "missing.png" 100 false true] 0 "loop" 1.

(** A timeline whose second frame is gone. *)
Definition with_gap : State :=
  with_frames [frame "a.png" 100 false false; frame "missing.png" 70 true true;
               frame "c.png" 40 true false] 0 "loop" 1.

(** A stopped, empty project. *)
Definition stopped : State := initial_state.

(** An empty project with unsaved changes (the last frame was removed). *)
Definition unsaved_empty : State := set_unsaved_changes true initial_state.

(** Three frames, playing, with unsaved changes and no file yet. *)
Definition unsaved_three : State := set_unsaved_changes true three_loop.

End Demo.

(** ** Facts about the Python helpers *)

Lemma len_nil_iff {A : Type} (l : list A) : Py.len l = 0 <-> l = [].
Proof.
  unfold Py.len. destruct l as [|a l]; cbn [List.length]; split; intro H;
    try reflexivity; try discriminate; lia.
Qed.

Lemma len_pos {A : Type} (l : list A) : l <> [] -> 1 <= Py.len l.
Proof.
  intro H. unfold Py.len. destruct l as [|a l]; [congruence|].
  cbn [List.length]. lia.
Qed.

Lemma truthy_false_iff {A : Type} (l : list A) : Py.truthy l = false <-> l = [].
Proof. destruct l; cbn; split; intro; congruence. Qed.

Lemma truthy_true_iff {A : Type} (l : list A) : Py.truthy l = true <-> l <> [].
Proof. destruct l; cbn; split; intro; congruence. Qed.

(** An index inside [0 .. len-1] never raises and reads position [i]. *)
Lemma index_in_range {A : Type} (l : list A) (i : Z) :
  0 <= i < Py.len l ->
  exists x, Py.index l i = Some x /\ nth_error l (Z.to_nat i) = Some x.
Proof.
  intros [H0 H1]. unfold Py.index.
  destruct (Z.leb_spec 0 i); [|lia].
  destruct (Z.ltb_spec i (Py.len l)); [|lia].
  cbn [andb].
  destruct (nth_error l (Z.to_nat i)) as [x|] eqn:E.
  - exists x. split; reflexivity.
  - apply nth_error_None in E. unfold Py.len in H1. lia.
Qed.

(** [del] removes exactly position [i]. *)
Lemma del_length {A : Type} (l : list A) (i : nat) :
  (i < List.length l)%nat -> S (List.length (Py.del l i)) = List.length l.
Proof.
  revert i. induction l as [|a l IH]; intros i H; cbn in *; [lia|].
  destruct i as [|j]; [reflexivity|].
  cbn. rewrite IH by lia. reflexivity.
Qed.

Lemma del_nth_before {A : Type} (l : list A) (i j : nat) :
  (j < i)%nat -> nth_error (Py.del l i) j = nth_error l j.
Proof.
  revert i j. induction l as [|a l IH]; intros i j H.
  - destruct i; reflexivity.
  - destruct i as [|i]; [lia|]. destruct j as [|j]; cbn; [reflexivity|].
    apply IH. lia.
Qed.

Lemma del_nth_after {A : Type} (l : list A) (i j : nat) :
  (i <= j)%nat -> nth_error (Py.del l i) j = nth_error l (S j).
Proof.
  revert i j. induction l as [|a l IH]; intros i j H.
  - destruct i, j; reflexivity.
  - destruct i as [|i]; [reflexivity|].
    destruct j as [|j]; [lia|]. cbn. apply IH. lia.
Qed.

(** ** Playback: one tick *)

Section TickFacts.

Import Playback.

(** The index the advance rule returns is a valid one, and the rule touches
    nothing but [wave_direction]. *)
Lemma next_index_valid (s : State) :
  frames s <> [] ->
  0 <= fst (get_next_index_for_mode s) < Py.len (frames s) /\
  frames (snd (get_next_index_for_mode s)) = frames s /\
  is_playing (snd (get_next_index_for_mode s)) = is_playing s /\
  animation_mode (snd (get_next_index_for_mode s)) = animation_mode s.
Proof.
  intro Hne. pose proof (len_pos _ Hne) as Hn.
  unfold get_next_index_for_mode.
  destruct (Z.eqb_spec (Py.len (frames s)) 0) as [E|_]; [lia|].
  destruct (String.eqb (animation_mode s) "loop").
  { cbn. repeat split; auto; apply Z.mod_pos_bound; lia. }
  destruct (String.eqb (animation_mode s) "wave").
  2:{ cbn. repeat split; auto; apply Z.mod_pos_bound; lia. }
  destruct (Z.leb_spec (current_index s) 0);
    [| destruct (Z.geb_spec (current_index s) (Py.len (frames s) - 1))];
    cbn; repeat split; auto; lia.
Qed.

(** A tick on a non-empty timeline never raises: it moves the cursor to the
    index of the advance rule and restarts the timer with the duration of
    the frame found there. *)
Lemma tick_nonempty (s : State) :
  frames s <> [] ->
  exists f,
    nth_error (frames s) (Z.to_nat (fst (get_next_index_for_mode s))) = Some f /\
    advance_frame_for_playback s =
      Some (timer_start (Z.max 10 (duration_ms f))
              (set_current_index (fst (get_next_index_for_mode s))
                 (snd (get_next_index_for_mode s)))).
Proof.
  intro Hne.
  destruct (next_index_valid s Hne) as (Hi & Hf & _).
  unfold advance_frame_for_playback.
  apply truthy_true_iff in Hne. rewrite Hne. cbn [negb].
  destruct (get_next_index_for_mode s) as [i s1] eqn:E. cbn [fst snd] in *.
  cbn [frames current_index set_current_index]. rewrite Hf.
  destruct (index_in_range (frames s) i Hi) as (f & Hx & Hnth).
  exists f. rewrite Hx. split; [exact Hnth | reflexivity].
Qed.

(** The wave branch of the advance rule, as the source has it. *)
Lemma wave_next (s : State) :
  frames s <> [] ->
  animation_mode s = "wave" ->
  let n := Py.len (frames s) in
  let dir :=
    if current_index s <=? 0 then 1
    else if current_index s >=? n - 1 then -1
    else wave_direction s in
  fst (get_next_index_for_mode s) = clamp (current_index s + dir) 0 (n - 1) /\
  wave_direction (snd (get_next_index_for_mode s)) = dir.
Proof.
  intros Hne Hw n dir. pose proof (len_pos _ Hne) as Hn.
  unfold get_next_index_for_mode, clamp. rewrite Hw. cbn [String.eqb].
  fold n. destruct (Z.eqb_spec n 0) as [E|_]; [lia|].
  replace (String.eqb "wave" "loop") with false by reflexivity.
  replace (String.eqb "wave" "wave") with true by reflexivity.
  subst dir.
  destruct (Z.leb_spec (current_index s) 0);
    [| destruct (Z.geb_spec (current_index s) (n - 1))];
    cbn; split; auto; rewrite Z.min_comm; reflexivity.
Qed.

End TickFacts.

(** ** Playback: wave mode *)

Section WaveMode.

Import Playback.

(** One tick in wave mode. *)
Lemma wave_tick (s : State) :
  frames s <> [] ->
  animation_mode s = "wave" ->
  let n := Py.len (frames s) in
  let dir :=
    if current_index s <=? 0 then 1
    else if current_index s >=? n - 1 then -1
    else wave_direction s in
  exists s',
    advance_frame_for_playback s = Some s' /\
    frames s' = frames s /\
    animation_mode s' = "wave" /\
    wave_direction s' = dir /\
    current_index s' = clamp (current_index s + dir) 0 (n - 1).
Proof.
  intros Hne Hw n dir.
  destruct (tick_nonempty s Hne) as (f & _ & Htick).
  destruct (next_index_valid s Hne) as (_ & Hf & _ & Hm).
  destruct (wave_next s Hne Hw) as (Hi & Hd).
  eexists. split; [exact Htick|].
  cbn. repeat split; try assumption. congruence.
Qed.

Lemma wave3_period (k : nat) : wave3 (4 + k) = wave3 k.
Proof.
  unfold wave3. replace (4 + k)%nat with (k + 1 * 4)%nat by lia.
  rewrite Nat.Div0.mod_add. reflexivity.
Qed.

Lemma wave3_from_phase (k : nat) :
  forall (p : nat) (s : State),
    (p < 4)%nat ->
    Py.len (frames s) = 3 ->
    animation_mode s = "wave" ->
    phase p s ->
    exists sk, ticks k s = Some sk /\ current_index sk = wave3 (p + k).
Proof.
  induction k as [|k IH]; intros p s Hp Hn Hw Hph.
  - exists s. split; [reflexivity|].
    rewrite Nat.add_0_r.
    destruct p as [|[|[|[|p]]]]; cbn in Hph |- *; try lia; tauto.
  - assert (Hne : frames s <> []).
    { intro E. rewrite E in Hn. discriminate. }
    destruct (wave_tick s Hne Hw) as (s' & Ht & Hf & Hw' & Hd & Hc).
    rewrite Hn in Hd, Hc. cbn [ticks]. rewrite Ht.
    assert (Hn' : Py.len (frames s') = 3) by (rewrite Hf; exact Hn).
    destruct p as [|[|[|[|p]]]]; cbn [phase] in Hph; try lia.
    + rewrite Hph in Hd, Hc. cbn in Hd, Hc.
      assert (Hph' : phase 1 s') by (split; assumption).
      destruct (IH 1%nat s' ltac:(lia) Hn' Hw' Hph') as (sk & Hk & Hck).
      exists sk. split; [exact Hk|]. rewrite Hck. f_equal; lia.
    + destruct Hph as [Hc0 Hd0]. rewrite Hc0, Hd0 in Hd, Hc. cbn in Hd, Hc.
      assert (Hph' : phase 2 s') by exact Hc.
      destruct (IH 2%nat s' ltac:(lia) Hn' Hw' Hph') as (sk & Hk & Hck).
      exists sk. split; [exact Hk|]. rewrite Hck. f_equal; lia.
    + rewrite Hph in Hd, Hc. cbn in Hd, Hc.
      assert (Hph' : phase 3 s') by (split; assumption).
      destruct (IH 3%nat s' ltac:(lia) Hn' Hw' Hph') as (sk & Hk & Hck).
      exists sk. split; [exact Hk|]. rewrite Hck. f_equal; lia.
    + destruct Hph as [Hc0 Hd0]. rewrite Hc0, Hd0 in Hd, Hc. cbn in Hd, Hc.
      assert (Hph' : phase 0 s') by exact Hc.
      destruct (IH 0%nat s' ltac:(lia) Hn' Hw' Hph') as (sk & Hk & Hck).
      exists sk. split; [exact Hk|]. rewrite Hck.
      replace (3 + S k)%nat with (4 + k)%nat by lia.
      rewrite wave3_period. reflexivity.
Qed.

(** A single frame: every tick leaves the cursor on index 0. *)
Lemma wave1_stays (k : nat) :
  forall s : State,
    Py.len (frames s) = 1 ->
    animation_mode s = "wave" ->
    exists sk, ticks k s = Some sk /\
               (current_index s = 0 \/ (0 < k)%nat -> current_index sk = 0).
Proof.
  induction k as [|k IH]; intros s Hn Hw.
  - exists s. split; [reflexivity|]. intros [H|H]; [exact H | lia].
  - assert (Hne : frames s <> []).
    { intro E. rewrite E in Hn. discriminate. }
    destruct (wave_tick s Hne Hw) as (s' & Ht & Hf & Hw' & _ & Hc).
    rewrite Hn in Hc. unfold clamp in Hc.
    assert (Hc0 : current_index s' = 0) by lia.
    destruct (IH s') as (sk & Hk & Hck); [rewrite Hf; exact Hn | exact Hw' |].
    exists sk. cbn [ticks]. rewrite Ht. split; [exact Hk|].
    intros _. apply Hck. left. exact Hc0.
Qed.

(** C1 (as amended).  In wave mode, on a timeline of [n >= 1] frames, a tick
    sets [wave_direction] to +1 when the cursor is [<= 0], otherwise to -1
    when the cursor is [>= n-1], otherwise leaves it as the previous tick
    left it; the new cursor is [clamp(cursor + wave_direction, 0, n-1)] with
    the direction just set.  From cursor 0 a three-frame timeline visits
    0,1,2,1,0,1,2,... and a one-frame timeline stays on 0 for ever. *)
Theorem wave_advance (s : State) :
  1 <= Py.len (frames s) ->
  animation_mode s = "wave" ->
  let n := Py.len (frames s) in
  (exists s',
      advance_frame_for_playback s = Some s' /\
      (current_index s <= 0 -> wave_direction s' = 1) /\
      (0 < current_index s -> current_index s >= n - 1 ->
       wave_direction s' = -1) /\
      (0 < current_index s < n - 1 -> wave_direction s' = wave_direction s) /\
      current_index s' =
        clamp (current_index s + wave_direction s') 0 (n - 1)) /\
  (n = 3 -> current_index s = 0 ->
   forall k, exists sk, ticks k s = Some sk /\ current_index sk = wave3 k) /\
  (n = 1 -> current_index s = 0 ->
   forall k, exists sk, ticks k s = Some sk /\ current_index sk = 0).
Proof.
  intros Hn Hw n.
  assert (Hne : frames s <> []).
  { intro E. rewrite E in Hn. cbn in Hn. lia. }
  split; [|split].
  - destruct (wave_tick s Hne Hw) as (s' & Ht & _ & _ & Hd & Hc).
    fold n in Hd, Hc. exists s'. split; [exact Ht|].
    rewrite Hd.
    destruct (Z.leb_spec (current_index s) 0);
      [| destruct (Z.geb_spec (current_index s) (n - 1))];
      repeat split; intros; try lia; exact Hc.
  - intros H3 H0 k.
    destruct (wave3_from_phase k 0%nat s ltac:(lia) H3 Hw H0) as (sk & Hk & Hc).
    exists sk. split; [exact Hk | exact Hc].
  - intros H1 H0 k.
    destruct (wave1_stays k s H1 Hw) as (sk & Hk & Hc).
    exists sk. split; [exact Hk|]. apply Hc. left. exact H0.
Qed.

(** The three-frame timeline of [Demo], from cursor 0. *)
Lemma wave_advance_witness :
  1 <= Py.len (frames Demo.three_wave) /\
  animation_mode Demo.three_wave = "wave" /\
  forall k, exists sk,
    ticks k Demo.three_wave = Some sk /\ current_index sk = wave3 k.
Proof.
  split; [cbn; lia|]. split; [reflexivity|].
  refine (proj1 (proj2 (wave_advance Demo.three_wave _ _)) _ _);
    [cbn; lia | reflexivity | reflexivity | reflexivity].
Defined.

(** C1 (as stated) fails on a single frame: there the cursor is both [<= 0]
    and [>= n-1], the source tests the second under [elif], and the tick
    leaves [wave_direction] at +1, not at -1. *)
Lemma wave_single_frame_direction :
  exists s',
    advance_frame_for_playback Demo.single_wave = Some s' /\
    current_index Demo.single_wave >= Py.len (frames Demo.single_wave) - 1 /\
    wave_direction s' = 1 /\
    wave_direction s' <> -1.
Proof.
  eexists. split; [reflexivity|]. cbn. repeat split; lia.
Qed.

End WaveMode.

(** ** Playback: the tick and its delay *)

Section Tick.

Import Playback.

(** C3.  On a non-empty timeline a tick returns normally; it first assigns
    the index of the advance rule to the cursor, and the delay it then gives
    the timer is [max(10, duration_ms)] of the frame at that new cursor - so
    a delay computed from the frame that was current before differs from it
    whenever the two frames' floored durations differ. *)
Theorem tick_delay_of_new_frame (s : State) :
  frames s <> [] ->
  exists s' f,
    advance_frame_for_playback s = Some s' /\
    current_index s' = fst (get_next_index_for_mode s) /\
    0 <= current_index s' < Py.len (frames s') /\
    frames s' = frames s /\
    is_playing s' = is_playing s /\
    nth_error (frames s') (Z.to_nat (current_index s')) = Some f /\
    play_timer s' = Some (Z.max 10 (duration_ms f)) /\
    (forall g,
        Py.index (frames s) (current_index s) = Some g ->
        Z.max 10 (duration_ms g) <> Z.max 10 (duration_ms f) ->
        play_timer s' <> Some (Z.max 10 (duration_ms g))).
Proof.
  intro Hne.
  destruct (tick_nonempty s Hne) as (f & Hnth & Htick).
  destruct (next_index_valid s Hne) as (Hi & Hf & Hp & _).
  eexists. exists f. split; [exact Htick|].
  cbn. rewrite Hf. repeat split; try tauto.
  intros g _ Hd E. injection E as E. congruence.
Qed.

(** In loop mode, from the first frame (100 ms) of [Demo.abc] the tick moves
    to the second (250 ms) and schedules 250 ms. *)
Example tick_three_loop :
  option_map (fun s' => (current_index s', play_timer s'))
             (advance_frame_for_playback Demo.three_loop)
  = Some (1, Some 250).
Proof. reflexivity. Qed.

Lemma tick_delay_of_new_frame_witness :
  frames Demo.three_loop <> [] /\
  exists s' f,
    advance_frame_for_playback Demo.three_loop = Some s' /\
    current_index s' = 1 /\
    nth_error (frames s') (Z.to_nat (current_index s')) = Some f /\
    play_timer s' = Some (Z.max 10 (duration_ms f)).
Proof.
  assert (Hne : frames Demo.three_loop <> []) by discriminate.
  split; [exact Hne|].
  destruct (tick_delay_of_new_frame Demo.three_loop Hne)
    as (s' & f & Ht & Hc & _ & _ & _ & Hn & Hp & _).
  exists s', f. repeat split; assumption.
Defined.

(** C9.  A tick that finds the frame list empty stops playback - playing
    flag down, timer stopped - without an index into the list and without
    touching the cursor. *)
Theorem tick_on_empty_stops (s : State) :
  frames s = [] ->
  exists s',
    advance_frame_for_playback s = Some s' /\
    is_playing s' = false /\
    play_timer s' = None /\
    current_index s' = current_index s /\
    frames s' = [] /\
    wave_direction s' = wave_direction s.
Proof.
  intro He. exists (stop_playback s).
  unfold advance_frame_for_playback. rewrite He. cbn.
  repeat split. exact He.
Qed.

Lemma tick_on_empty_stops_witness :
  frames Demo.empty_playing = [] /\
  is_playing Demo.empty_playing = true /\
  exists s',
    advance_frame_for_playback Demo.empty_playing = Some s' /\
    is_playing s' = false /\
    play_timer s' = None /\
    current_index s' = current_index Demo.empty_playing /\
    frames s' = [] /\
    wave_direction s' = wave_direction Demo.empty_playing.
Proof.
  split; [reflexivity|]. split; [reflexivity|].
  apply (tick_on_empty_stops Demo.empty_playing). reflexivity.
Defined.

End Tick.

(** ** Timeline edits *)

Section Edits.

Import Timeline.

(** C2 (as amended).  [remove] at an index outside the list changes nothing.
    At an index inside, it deletes the frame at that index (the frames before
    it keep their place, the frames after it move up by one) and sets the
    cursor to -1 when the list became empty and otherwise to
    [clamp(index, 0, new_len - 1)]: the cursor is computed from the removed
    index, whatever the cursor was before. *)
Theorem remove_selected_cursor (idx : Z) (s : State) :
  (idx < 0 \/ Py.len (frames s) <= idx -> remove_selected idx s = s) /\
  (0 <= idx < Py.len (frames s) ->
   let s' := remove_selected idx s in
   Py.len (frames s') = Py.len (frames s) - 1 /\
   (forall j, (j < Z.to_nat idx)%nat ->
              nth_error (frames s') j = nth_error (frames s) j) /\
   (forall j, (Z.to_nat idx <= j)%nat ->
              nth_error (frames s') j = nth_error (frames s) (S j)) /\
   (frames s' = [] -> current_index s' = -1) /\
   (frames s' <> [] ->
    current_index s' = clamp idx 0 (Py.len (frames s') - 1))).
Proof.
  unfold remove_selected. split.
  - intros [H|H].
    + destruct (Z.ltb_spec idx 0); [reflexivity | lia].
    + destruct (Z.geb_spec idx (Py.len (frames s))); [|lia].
      rewrite orb_true_r. reflexivity.
  - intros [H0 H1].
    destruct (Z.ltb_spec idx 0); [lia|].
    destruct (Z.geb_spec idx (Py.len (frames s))); [lia|].
    cbn [orb].
    assert (Hlen : S (List.length (Py.del (frames s) (Z.to_nat idx)))
                   = List.length (frames s)).
    { apply del_length. unfold Py.len in H1. lia. }
    cbv zeta. cbn [frames set_frames].
    destruct (Py.truthy (Py.del (frames s) (Z.to_nat idx))) eqn:Et;
      cbn [negb frames current_index mark_unsaved set_unsaved_changes
           set_current_index set_frames];
      (split; [unfold Py.len; lia|]);
      (split; [intros j Hj; apply del_nth_before; exact Hj|]);
      (split; [intros j Hj; apply del_nth_after; exact Hj|]).
    + apply truthy_true_iff in Et. split; [congruence|].
      intros _. unfold clamp. reflexivity.
    + apply truthy_false_iff in Et. split; [reflexivity | congruence].
Qed.

(** Removing the first of three frames while the cursor is on the last. *)
Lemma remove_selected_cursor_witness :
  0 <= 0 < Py.len (frames Demo.three_at_end) /\
  Py.len (frames (remove_selected 0 Demo.three_at_end)) = 2 /\
  current_index (remove_selected 0 Demo.three_at_end) = 0.
Proof.
  assert (H : 0 <= 0 < Py.len (frames Demo.three_at_end)) by (cbn; lia).
  split; [exact H|].
  destruct (proj2 (remove_selected_cursor 0 Demo.three_at_end) H)
    as (Hl & _ & _ & _ & Hc).
  split; [exact Hl|].
  rewrite Hc; [reflexivity | discriminate].
Defined.

(** C2 (as stated) fails: with the cursor on the last of three frames,
    removing the first leaves the cursor on 0, while the clamp of the old
    cursor (2) to the new range 0..1 is 1. *)
Lemma remove_selected_old_cursor :
  current_index Demo.three_at_end = 2 /\
  current_index (remove_selected 0 Demo.three_at_end) = 0 /\
  clamp (current_index Demo.three_at_end) 0
        (Py.len (frames (remove_selected 0 Demo.three_at_end)) - 1) = 1 /\
  current_index (remove_selected 0 Demo.three_at_end) <>
  clamp (current_index Demo.three_at_end) 0
        (Py.len (frames (remove_selected 0 Demo.three_at_end)) - 1).
Proof. cbn. repeat split; try reflexivity. discriminate. Qed.

(** C8.  [set_default_duration(ms)] stores [ms] as the default and rewrites
    the duration of exactly the frames whose [is_custom_duration] is false;
    a pinned frame is left as it is, and no frame changes any other field,
    its position or its presence. *)
Theorem default_duration_update (ms : Z) (s : State) :
  let s' := on_default_duration_changed ms s in
  default_duration_ms s' = ms /\
  List.length (frames s') = List.length (frames s) /\
  forall i f,
    nth_error (frames s) i = Some f ->
    exists f',
      nth_error (frames s') i = Some f' /\
      source_path f' = source_path f /\
      display_name f' = display_name f /\
      is_custom_duration f' = is_custom_duration f /\
      is_checked f' = is_checked f /\
      (is_custom_duration f = false -> duration_ms f' = ms) /\
      (is_custom_duration f = true -> f' = f).
Proof.
  cbn. split; [reflexivity|]. split; [apply length_map|].
  intros i f Hf. exists (apply_default ms f).
  split; [rewrite nth_error_map, Hf; reflexivity|].
  unfold apply_default. destruct (is_custom_duration f) eqn:E; cbn;
    repeat split; auto; congruence.
Qed.

(** On [Demo.abc] (one default frame, two pinned ones) with [ms = 60]. *)
Lemma default_duration_update_witness :
  default_duration_ms (on_default_duration_changed 60 Demo.three_loop) = 60 /\
  map duration_ms (frames (on_default_duration_changed 60 Demo.three_loop))
  = [60; 250; 40].
Proof.
  split.
  - exact (proj1 (default_duration_update 60 Demo.three_loop)).
  - reflexivity.
Defined.

Section WithPlatform.

Variable P : Platform.

Lemma append_files_length (d : Z) (files : list string) :
  forall fr, List.length (append_files P d files fr)
             = (List.length fr + List.length files)%nat.
Proof.
  induction files as [|f rest IH]; intro fr; cbn.
  - lia.
  - rewrite IH, length_app. cbn. lia.
Qed.

(** C10.  When the dialog returns at least one file, playback is stopped and
    the cursor is not beyond the extended list, [add_images] returns with
    the files appended and with playback started: the playing flag is up
    and the timer runs, with the floored duration of the current frame. *)
Theorem add_images_starts_playback (files : list string) (s : State) :
  files <> [] ->
  is_playing s = false ->
  current_index s < Py.len (frames s) + Py.len files ->
  exists s',
    add_images P files s = Some s' /\
    Py.len (frames s') = Py.len (frames s) + Py.len files /\
    frames s' <> [] /\
    is_playing s' = true /\
    (exists d, play_timer s' = Some (Z.max 10 d)) /\
    (0 <= current_index s' ->
     exists f, nth_error (frames s') (Z.to_nat (current_index s')) = Some f /\
               play_timer s' = Some (Z.max 10 (duration_ms f))).
Proof.
  intros Hfiles Hstop Hcur.
  unfold add_images.
  apply truthy_true_iff in Hfiles. rewrite Hfiles. cbn [negb].
  set (fr := append_files P (default_duration_ms s) files (frames s)).
  assert (Hlen : Py.len fr = Py.len (frames s) + Py.len files).
  { unfold Py.len, fr. rewrite append_files_length. lia. }
  assert (Hne : fr <> []).
  { intro E. rewrite E in Hlen. apply truthy_true_iff in Hfiles.
    destruct files; [congruence|]. unfold Py.len in Hlen. cbn in Hlen. lia. }
  assert (Ht : Py.truthy fr = true) by (apply truthy_true_iff; exact Hne).
  cbn [frames set_frames current_index]. rewrite Ht.
  set (c := if (current_index s =? -1) && true then 0 else current_index s).
  assert (Hc : c < Py.len fr).
  { pose proof (len_pos fr Hne).
    subst c. destruct (Z.eqb_spec (current_index s) (-1)); cbn; lia. }
  assert (Hs2 :
    (if (current_index s =? -1) && true
     then set_current_index 0 (set_frames fr s) else set_frames fr s)
    = set_current_index c (set_frames fr s)).
  { subst c. destruct ((current_index s =? -1) && true); [reflexivity|].
    destruct s; reflexivity. }
  rewrite Hs2. cbn. rewrite Ht, Hstop. cbn.
  unfold Playback.start_playback. cbn. rewrite Ht. cbn.
  destruct (Z.geb_spec c 0) as [Hge|Hlt].
  - destruct (index_in_range fr c) as (f & Hx & Hnth); [lia|].
    rewrite Hx. cbn. eexists. split; [reflexivity|]. cbn.
    repeat split; auto.
    + exists (duration_ms f). reflexivity.
    + intros _. exists f. split; [exact Hnth | reflexivity].
  - eexists. split; [reflexivity|]. cbn.
    repeat split; auto.
    + exists (default_duration_ms s). reflexivity.
    + intro. lia.
Qed.

End WithPlatform.

(** Two files added to the empty, stopped project. *)
Lemma add_images_starts_playback_witness :
  ["a.png"; "b.png"] <> [] /\
  is_playing Demo.stopped = false /\
  exists s',
    add_images Demo.platform ["a.png"; "b.png"] Demo.stopped = Some s' /\
    is_playing s' = true /\
    exists d, play_timer s' = Some (Z.max 10 d).
Proof.
  assert (H1 : ["a.png"; "b.png"] <> []) by discriminate.
  split; [exact H1|]. split; [reflexivity|].
  destruct (add_images_starts_playback Demo.platform ["a.png"; "b.png"]
              Demo.stopped H1 eq_refl)
    as (s' & Ha & _ & _ & Hp & Ht & _); [cbn; lia|].
  exists s'. repeat split; assumption.
Defined.

End Edits.

(** ** GIF import: the pass over the durations *)

Section ImportFacts.

Import GifImport.

Variable P : Platform.


Lemma all_equal_first_true (ds : list Z) :
  all_equal_first ds = true <-> exists d, forall x, In x ds -> x = d.
Proof.
  destruct ds as [|d0 rest].
  - cbn. split; [intros _; exists 0; intros x [] | reflexivity].
  - unfold all_equal_first. rewrite forallb_forall. split.
    + intro H. exists d0. intros x Hx. apply Z.eqb_eq. apply H. exact Hx.
    + intros (d & H) x Hx. apply Z.eqb_eq.
      rewrite (H x Hx). symmetry. apply H. left. reflexivity.
Qed.



(** After the post-pass a frame that is not pinned has the default
    duration. *)
Lemma post_pass_consistent (ds : list Z) (s : State) :
  durations_consistent (post_pass ds s).
Proof.
  unfold post_pass, durations_consistent.
  destruct (Py.truthy ds && all_equal_first ds); cbn;
    intros f Hin Hcu; apply in_map_iff in Hin; destruct Hin as (g & <- & _);
    cbn in *; [reflexivity|].
  apply negb_false_iff in Hcu. apply Z.eqb_eq. exact Hcu.
Qed.

(** Setting the spin box leaves the state alone or runs the slot. *)
Lemma spin_set_value_shape (spin : SpinBox) (v : Z) (s : State) :
  spin_set_value spin v s = s \/
  (spin_bound spin v <> spin_value spin /\
   spin_set_value spin v s
   = Timeline.on_default_duration_changed (spin_bound spin v) s).
Proof.
  unfold spin_set_value.
  destruct (Z.eqb_spec (spin_bound spin v) (spin_value spin));
    [left | right]; auto.
Qed.

(** The slot run with the default the state already has changes no frame,
    when unpinned frames carry that default. *)
Lemma default_echo_frames (s : State) :
  durations_consistent s ->
  map (Timeline.apply_default (default_duration_ms s)) (frames s) = frames s.
Proof.
  intro H. rewrite <- (map_id (frames s)) at 2. apply map_ext_in.
  intros f Hf. unfold Timeline.apply_default.
  destruct (is_custom_duration f) eqn:E; cbn; [reflexivity|].
  rewrite <- (H f Hf E). destruct f. cbn in *. subst. reflexivity.
Qed.

(** A default inside the range of the spin box passes through it
    unchanged: frames and default stay, whatever the box showed. *)
Lemma spin_in_range (spin : SpinBox) (s : State) :
  durations_consistent s ->
  spin_minimum spin <= default_duration_ms s <= spin_maximum spin ->
  frames (spin_set_value spin (default_duration_ms s) s) = frames s /\
  default_duration_ms (spin_set_value spin (default_duration_ms s) s)
  = default_duration_ms s.
Proof.
  intros Hc Hr.
  assert (Hb : spin_bound spin (default_duration_ms s) = default_duration_ms s)
    by (unfold spin_bound; lia).
  destruct (spin_set_value_shape spin (default_duration_ms s) s)
    as [-> | [_ ->]]; [auto|].
  rewrite Hb. cbn. split; [apply default_echo_frames; exact Hc | reflexivity].
Qed.

(** Whatever the spin box does, it keeps the number of frames. *)
Lemma spin_length (spin : SpinBox) (v : Z) (s : State) :
  List.length (frames (spin_set_value spin v s)) = List.length (frames s).
Proof.
  destruct (spin_set_value_shape spin v s) as [-> | [_ ->]];
    [reflexivity | cbn; apply length_map].
Qed.

(** Starting playback keeps the timeline data. *)
Lemma start_playback_keeps (s s' : State) :
  Playback.start_playback s = Some s' ->
  frames s' = frames s /\
  default_duration_ms s' = default_duration_ms s /\
  current_index s' = current_index s.
Proof.
  unfold Playback.start_playback.
  destruct (negb (Py.truthy (frames s))).
  - intro H. injection H as <-. auto.
  - cbn [current_index frames default_duration_ms timer_stop set_play_timer
         set_is_playing].
    destruct (if current_index s >=? 0
              then option_map duration_ms
                     (Py.index (frames s) (current_index s))
              else Some (default_duration_ms s)) as [d|]; [|discriminate].
    intro H. injection H as <-. cbn. auto.
Qed.

(** Starting playback with the cursor on a frame returns. *)
Lemma start_playback_returns (s : State) :
  0 <= current_index s < Py.len (frames s) ->
  exists s', Playback.start_playback s = Some s' /\ is_playing s' = true.
Proof.
  intro Hc. unfold Playback.start_playback.
  destruct (Py.truthy (frames s)) eqn:Et.
  - cbn [negb current_index frames timer_stop set_play_timer set_is_playing].
    destruct (Z.geb_spec (current_index s) 0); [|lia].
    destruct (index_in_range (frames s) (current_index s) Hc) as (f & Hx & _).
    rewrite Hx. cbn. eexists. split; reflexivity.
  - apply truthy_false_iff in Et. rewrite Et in Hc. cbn in Hc. lia.
Qed.

(** The tail of [open_gif], from the post-pass on: with a frame in the list
    it returns, and the frames and the default it leaves are those the spin
    box left. *)
Lemma open_gif_tail (path : string) (spin : SpinBox) (s3 : State) :
  frames s3 <> [] ->
  let s3' := spin_set_value spin (default_duration_ms s3) s3 in
  exists s',
    (let s6 :=
       set_unsaved_changes false
         (set_current_gif_path (Some path)
            (set_current_index (if Py.truthy (frames s3') then 0 else -1)
                               s3')) in
     if Py.truthy (frames s6) then
       match Playback.start_playback s6 with
       | Some s7 => (s7, @nil Event, Returned)
       | None => (timer_stop (set_is_playing true s6), [], Raised)
       end
     else (s6, [], Returned))
    = (s', [], Returned) /\
    frames s' = frames s3' /\
    default_duration_ms s' = default_duration_ms s3' /\
    current_index s' = 0 /\
    current_gif_path s' = Some path /\
    unsaved_changes s' = false /\
    is_playing s' = true /\
    animation_mode s' = animation_mode s3 /\
    wave_direction s' = wave_direction s3.
Proof.
  intros Hne s3'.
  assert (Hne' : frames s3' <> []).
  { intro E. apply Hne. pose proof (spin_length spin (default_duration_ms s3) s3)
      as Hl. fold s3' in Hl. rewrite E in Hl.
    destruct (frames s3); [reflexivity | discriminate]. }
  assert (Ht : Py.truthy (frames s3') = true)
    by (apply truthy_true_iff; exact Hne').
  assert (Hmode : animation_mode s3' = animation_mode s3 /\
                  wave_direction s3' = wave_direction s3).
  { unfold s3'.
    destruct (spin_set_value_shape spin (default_duration_ms s3) s3)
      as [-> | [_ ->]]; cbn; auto. }
  cbv zeta.
  cbn [frames set_unsaved_changes set_current_gif_path set_current_index].
  rewrite Ht.
  set (s6 := set_unsaved_changes false _).
  destruct (start_playback_returns s6) as (s' & Hsp & Hplay).
  { cbn. pose proof (len_pos _ Hne'). lia. }
  rewrite Hsp. exists s'. split; [reflexivity|].
  revert Hsp. unfold Playback.start_playback.
  cbn [frames s6 set_unsaved_changes set_current_gif_path set_current_index].
  rewrite Ht. cbn [negb].
  cbn [current_index frames timer_stop set_play_timer set_is_playing].
  destruct (option_map duration_ms _) as [dd|]; cbn; [|discriminate].
  intro Hsp. injection Hsp as <-. cbn. tauto.
Qed.


End ImportFacts.



(** A GIF whose sub-images declare 120 ms, nothing, and 30 ms, imported
    while the default is 100 ms. *)
Example import_mixed :
  (let '(s', _, _) :=
     GifImport.open_gif Demo.platform "x.gif" true
       (Some (complete [Some 120; None; Some 30])) Demo.spin_box Demo.stopped in
   (default_duration_ms s',
    map (fun f => (duration_ms f, is_custom_duration f)) (frames s')))
  = (100, [(120, true); (100, false); (30, true)]).
Proof. vm_compute. reflexivity. Qed.

(** ** GIF export *)

Section ExportFacts.

Import GifExport.

Variable P : Platform.

(** Loading looks at the source of a frame only: whether the frame is
    checked, and how it is named or timed, plays no role. *)
Lemma loaded_by_source (f g : FrameData) (size : option (Z * Z)) :
  source_path f = source_path g -> loaded P f size = loaded P g size.
Proof.
  intro E. unfold loaded, load_frame_image. rewrite E. reflexivity.
Qed.

(** The loop fills its two accumulators with the two halves of the
    surviving pairs. *)
Lemma collect_spec (out_size : Z * Z) (fs : list FrameData) :
  forall images durations,
    collect P out_size fs images durations
    = (images ++ map fst (surviving P out_size fs),
       durations ++ map snd (surviving P out_size fs)).
Proof.
  induction fs as [|f rest IH]; intros images durations; cbn [collect surviving].
  - cbn. rewrite !app_nil_r. reflexivity.
  - unfold loaded.
    destruct (load_frame_image P f (Some out_size)) as [[o w] h].
    cbn [fst]. destruct o as [img|].
    + rewrite IH, <- !app_assoc. reflexivity.
    + apply IH.
Qed.

Lemma surviving_nil_iff (out_size : Z * Z) (fs : list FrameData) :
  surviving P out_size fs = [] <->
  forall f, In f fs -> loaded P f (Some out_size) = None.
Proof.
  induction fs as [|f rest IH]; cbn [surviving].
  - split; [intros _ f [] | reflexivity].
  - destruct (loaded P f (Some out_size)) as [img|] eqn:E.
    + split; [discriminate|]. intro H.
      rewrite (H f (or_introl eq_refl)) in E. discriminate.
    + rewrite IH. split.
      * intros H g [<-|Hg]; [exact E | apply H; exact Hg].
      * intros H g Hg. apply H. right. exact Hg.
Qed.

(** What [_save_gif_to_path] does once the first frame has loaded. *)
Lemma save_after_first (path : string) (s : State) (f0 : FrameData)
      (rest : list FrameData) (img : Image) (w h : Z) :
  frames s = f0 :: rest ->
  load_frame_image P f0 None = (Some img, w, h) ->
  _save_gif_to_path P path s =
    match map fst (surviving P (w, h) (frames s)) with
    | [] => (s, [NoLoadableFramesError])
    | first :: more =>
        let call :=
          mkGifSave path first more
                    (map snd (surviving P (w, h) (frames s))) 0 2 in
        if gif_save_ok P call
        then (set_unsaved_changes false s,
              [GifWrite call;
               MsgInformation "Save GIF"
                 ("Saved animated GIF to:" ++ Py.newline ++ path)%string])
        else (s, [GifWrite call; MsgCritical "Save GIF" "Error saving GIF"])
    end.
Proof.
  intros Hf Hl. unfold _save_gif_to_path. rewrite Hf, Hl, <- Hf.
  rewrite collect_spec. cbn [app]. reflexivity.
Qed.

(** What [load_frame_image] returns at a size is the source decoded and
    then resampled to that size. *)
Lemma loaded_resampled (f : FrameData) (out_size : Z * Z) :
  loaded P f (Some out_size) = resampled P out_size f.
Proof.
  unfold loaded, resampled, load_frame_image.
  destruct (String.eqb (source_path f) ""); [reflexivity|].
  destruct (negb (path_exists P (source_path f))); [reflexivity|].
  destruct (if String.eqb (str_lower P (path_suffix P (source_path f))) ".svg"
            then render_svg P (source_path f) out_size
            else open_rgba P (source_path f)) as [decoded|]; [|reflexivity].
  destruct (resize P decoded out_size); reflexivity.
Qed.

Lemma surviving_encoded (out_size : Z * Z) (fs : list FrameData) :
  surviving P out_size fs = encoded_pairs P out_size fs.
Proof.
  induction fs as [|f rest IH]; cbn [surviving encoded_pairs]; [reflexivity|].
  rewrite loaded_resampled, IH. reflexivity.
Qed.

(** Every encoded pair comes from a frame of the list: its duration, and
    its source decoded and resampled. *)
Lemma encoded_pairs_In (out_size : Z * Z) (fs : list FrameData)
      (im : Image) (d : Z) :
  In (im, d) (encoded_pairs P out_size fs) ->
  exists f decoded,
    In f fs /\ d = duration_ms f /\
    (if String.eqb (str_lower P (path_suffix P (source_path f))) ".svg"
     then render_svg P (source_path f) out_size
     else open_rgba P (source_path f)) = Some decoded /\
    resize P decoded out_size = Some im.
Proof.
  induction fs as [|f rest IH]; cbn [encoded_pairs]; [intros []|].
  intro H.
  assert (Hrest : In (im, d) (encoded_pairs P out_size rest) ->
                  exists g decoded,
                    In g (f :: rest) /\ d = duration_ms g /\
                    (if String.eqb (str_lower P (path_suffix P (source_path g)))
                                   ".svg"
                     then render_svg P (source_path g) out_size
                     else open_rgba P (source_path g)) = Some decoded /\
                    resize P decoded out_size = Some im).
  { intro Hr. destruct (IH Hr) as (g & dec & Hg & Hrest).
    exists g, dec. split; [right; exact Hg | exact Hrest]. }
  destruct (resampled P out_size f) as [r|] eqn:E; [|exact (Hrest H)].
  destruct H as [H|H]; [|exact (Hrest H)].
  injection H as -> <-. revert E. unfold resampled.
  destruct (String.eqb (source_path f) ""); [discriminate|].
  destruct (negb (path_exists P (source_path f))); [discriminate|].
  destruct (if String.eqb (str_lower P (path_suffix P (source_path f))) ".svg"
            then render_svg P (source_path f) out_size
            else open_rgba P (source_path f)) as [decoded|] eqn:Ed;
    [|discriminate].
  intro E. exists f, decoded. split; [left; reflexivity|]. auto.
Qed.

(** C5.  When the first frame loads, the canonical size is the size of the
    image it gave, and every frame of the timeline, checked or not, is
    loaded at that size: decoded, then resampled to it.  The images and the
    durations handed to the encoder are the two halves of the list of
    (resampled image, duration_ms) pairs of the frames that gave an image,
    in timeline order, so they stay aligned; and when a pair survives the
    encoder is called exactly once, with these images, these durations,
    [loop = 0] and [disposal = 2]. *)
Theorem export_encodes_surviving (path : string) (s : State) (f0 : FrameData)
        (rest : list FrameData) (img : Image) (w h : Z) :
  frames s = f0 :: rest ->
  load_frame_image P f0 None = (Some img, w, h) ->
  let pairs := encoded_pairs P (w, h) (frames s) in
  (w, h) = (img_width img, img_height img) /\
  collect P (w, h) (frames s) [] [] = (map fst pairs, map snd pairs) /\
  (forall im d,
      In (im, d) pairs ->
      exists f decoded,
        In f (frames s) /\ d = duration_ms f /\
        (if String.eqb (str_lower P (path_suffix P (source_path f))) ".svg"
         then render_svg P (source_path f) (w, h)
         else open_rgba P (source_path f)) = Some decoded /\
        resize P decoded (w, h) = Some im) /\
  (forall first more,
      map fst pairs = first :: more ->
      exists msg,
        snd (_save_gif_to_path P path s)
        = [GifWrite (mkGifSave path first more (map snd pairs) 0 2); msg]).
Proof.
  intros Hf Hl pairs.
  split.
  { revert Hl. unfold load_frame_image.
    destruct (String.eqb (source_path f0) ""); [discriminate|].
    destruct (negb (path_exists P (source_path f0))); [discriminate|].
    destruct (if String.eqb (str_lower P (path_suffix P (source_path f0)))
                            ".svg"
              then render_svg P (source_path f0) (512, 512)
              else open_rgba P (source_path f0)) as [i0|]; [|discriminate].
    intro E. injection E as <- <- <-. reflexivity. }
  split; [unfold pairs; rewrite <- surviving_encoded; apply collect_spec|].
  split; [intros im d; apply encoded_pairs_In|].
  intros first more Hp.
  rewrite (save_after_first path s f0 rest img w h Hf Hl).
  rewrite surviving_encoded. fold pairs. rewrite Hp. cbv zeta.
  destruct (gif_save_ok P _); eexists; reflexivity.
Qed.

(** C6.  The export ends without a call of the encoder in exactly three
    cases, each reported by its own message and each leaving the state as it
    was: the timeline is empty; the first frame does not load as it is; the
    first frame loads but no frame loads at the canonical size. *)
Theorem export_failures (path : string) (s : State) :
  (frames s = [] ->
   _save_gif_to_path P path s = (s, [EmptyTimelineError])) /\
  (forall f0 rest,
      frames s = f0 :: rest ->
      loaded P f0 None = None ->
      _save_gif_to_path P path s = (s, [FirstFrameLoadError])) /\
  (forall f0 rest,
      frames s = f0 :: rest ->
      loaded P f0 None <> None ->
      (forall f, In f (frames s) ->
                 loaded P f (Some (canonical_size P f0)) = None) ->
      _save_gif_to_path P path s = (s, [NoLoadableFramesError])) /\
  (writes_gif (snd (_save_gif_to_path P path s)) = false <->
   frames s = [] \/
   exists f0 rest,
     frames s = f0 :: rest /\
     (loaded P f0 None = None \/
      forall f, In f (frames s) ->
                loaded P f (Some (canonical_size P f0)) = None)).
Proof.
  assert (Hfirst : forall f0 rest,
             frames s = f0 :: rest -> loaded P f0 None = None ->
             _save_gif_to_path P path s = (s, [FirstFrameLoadError])).
  { intros f0 rest Hf Hl. unfold _save_gif_to_path. rewrite Hf.
    unfold loaded in Hl.
    destruct (load_frame_image P f0 None) as [[o w] h]. cbn in Hl.
    rewrite Hl. reflexivity. }
  assert (Hnone : forall f0 rest,
             frames s = f0 :: rest -> loaded P f0 None <> None ->
             (forall f, In f (frames s) ->
                        loaded P f (Some (canonical_size P f0)) = None) ->
             _save_gif_to_path P path s = (s, [NoLoadableFramesError])).
  { intros f0 rest Hf Hl Hall. unfold loaded, canonical_size in *.
    destruct (load_frame_image P f0 None) as [[o w] h] eqn:E. cbn in Hl.
    destruct o as [img|]; [|congruence].
    rewrite (save_after_first path s f0 rest img w h Hf E).
    apply surviving_nil_iff in Hall. rewrite Hall. reflexivity. }
  split; [|split; [exact Hfirst | split; [exact Hnone|]]].
  - intro He. unfold _save_gif_to_path. rewrite He. reflexivity.
  - split.
    + intro Hw. destruct (frames s) as [|f0 rest] eqn:Hf; [left; reflexivity|].
      right. exists f0, rest. split; [reflexivity|].
      destruct (loaded P f0 None) as [img|] eqn:Hl; [right | left; reflexivity].
      unfold loaded, canonical_size in *.
      destruct (load_frame_image P f0 None) as [[o w] h] eqn:E. cbn in Hl.
      subst o.
      rewrite (save_after_first path s f0 rest img w h Hf E) in Hw.
      rewrite <- Hf. apply surviving_nil_iff.
      destruct (surviving P (w, h) (frames s)) as [|pr more]; [reflexivity|].
      cbn [map] in Hw. cbv zeta in Hw.
      destruct (gif_save_ok P _) in Hw; discriminate.
    + intros [He | (f0 & rest & Hf & [Hl | Hall])].
      * unfold _save_gif_to_path. rewrite He. reflexivity.
      * rewrite (Hfirst f0 rest Hf Hl). reflexivity.
      * destruct (loaded P f0 None) as [img|] eqn:Hl.
        -- rewrite (Hnone f0 rest Hf); [reflexivity | congruence | exact Hall].
        -- rewrite (Hfirst f0 rest Hf Hl). reflexivity.
Qed.

End ExportFacts.

(** Export of [Demo.mixed_sizes]: the first frame is 4x3, the second is
    gone, the third is 8x6; the encoder receives the first and the third,
    both resampled to 4x3, with their own durations. *)
Lemma export_encodes_surviving_witness :
  frames Demo.mixed_sizes
  = Demo.frame "a.png" 100 false false
      :: [Demo.frame "missing.png" 70 true true;
          Demo.frame "c.png" 40 true false] /\
  GifExport.load_frame_image Demo.platform
    (Demo.frame "a.png" 100 false false) None
  = (Some (mkImage "a.png" 4 3), 4, 3) /\
  exists msg,
    snd (GifExport._save_gif_to_path Demo.platform "o.gif" Demo.mixed_sizes)
    = [GifWrite (mkGifSave "o.gif" (mkImage "a.png~" 4 3)
                           [mkImage "c.png~" 4 3] [100; 40] 0 2);
       msg].
Proof.
  assert (H1 : frames Demo.mixed_sizes
               = Demo.frame "a.png" 100 false false
                   :: [Demo.frame "missing.png" 70 true true;
                       Demo.frame "c.png" 40 true false]) by reflexivity.
  assert (H2 : GifExport.load_frame_image Demo.platform
                 (Demo.frame "a.png" 100 false false) None
               = (Some (mkImage "a.png" 4 3), 4, 3))
    by (vm_compute; reflexivity).
  split; [exact H1|]. split; [exact H2|].
  destruct (export_encodes_surviving Demo.platform "o.gif" Demo.mixed_sizes
              _ _ _ 4 3 H1 H2) as (_ & _ & _ & He).
  apply (He (mkImage "a.png~" 4 3) [mkImage "c.png~" 4 3]).
  vm_compute. reflexivity.
Defined.

(** Export of the empty project. *)
Lemma export_failures_witness :
  frames Demo.stopped = [] /\
  GifExport._save_gif_to_path Demo.platform "o.gif" Demo.stopped
  = (Demo.stopped, [EmptyTimelineError]).
Proof.
  split; [reflexivity|].
  exact (proj1 (export_failures Demo.platform "o.gif" Demo.stopped) eq_refl).
Defined.

(** The two other failures are reachable: a first frame that is gone, and a
    platform on which the first frame decodes but resampling fails. *)
Example export_first_frame_gone :
  GifExport._save_gif_to_path Demo.platform "o.gif" Demo.checked_missing
  = (Demo.checked_missing, [FirstFrameLoadError]).
Proof. reflexivity. Qed.

Example export_nothing_loadable :
  GifExport._save_gif_to_path Demo.platform_no_resize "o.gif" Demo.three_loop
  = (Demo.three_loop, [NoLoadableFramesError]).
Proof. reflexivity. Qed.

(** [save_gif_as] stores the chosen path after the export whatever its
    outcome; the frames, the cursor, the default duration and the mode are
    those [_save_gif_to_path] left. *)
Lemma save_gif_as_keeps_timeline (P : Platform) (path_str : string) (s : State) :
  let s' := fst (GifExport.save_gif_as P path_str s) in
  frames s' = frames s /\
  current_index s' = current_index s /\
  default_duration_ms s' = default_duration_ms s /\
  animation_mode s' = animation_mode s.
Proof.
  unfold GifExport.save_gif_as.
  destruct (String.eqb path_str ""); [cbn; auto|].
  set (p := if negb _ then _ else _).
  destruct (GifExport._save_gif_to_path P p s) as [s1 tr] eqn:E.
  assert (H : s1 = s \/ s1 = set_unsaved_changes false s).
  { revert E. unfold GifExport._save_gif_to_path.
    destruct (frames s) as [|f0 rest]; [intro E; injection E; auto|].
    destruct (GifExport.load_frame_image P f0 None) as [[[i|] w] h];
      [|intro E; injection E; auto].
    destruct (GifExport.collect P (w, h) (f0 :: rest) [] []) as [[|a l] d];
      [intro E; injection E; auto|].
    destruct (gif_save_ok P _); intro E; injection E; auto. }
  destruct H as [-> | ->]; cbn; auto.
Qed.

(** ** Export of the checked frames *)

Section FrameExportFacts.

Import FrameExport.

Variable P : Platform.

(** With no frame checked the method reports it and returns, before the
    directory dialog is shown and before anything is written. *)
Lemma export_nothing_checked (out_dir_str : string) (s : State) :
  (forall f, In f (frames s) -> is_checked f = false) ->
  export_checked P out_dir_str s = ([NothingCheckedError], Returned) /\
  asks_directory (fst (export_checked P out_dir_str s)) = false /\
  written (fst (export_checked P out_dir_str s)) = 0%nat.
Proof.
  intro H. unfold export_checked.
  assert (E : filter is_checked (frames s) = []).
  { induction (frames s) as [|f l IH]; [reflexivity|].
    cbn. rewrite (H f (or_introl eq_refl)). apply IH.
    intros g Hg. apply H. right. exact Hg. }
  rewrite E. cbn. auto.
Qed.

Lemma written_paths_app (tr1 tr2 : list Event) :
  written_paths (tr1 ++ tr2) = written_paths tr1 ++ written_paths tr2.
Proof. unfold written_paths. apply flat_map_app. Qed.

Lemma nodup_length_le (l : list string) :
  (List.length (nodup string_dec l) <= List.length l)%nat.
Proof.
  induction l as [|x l IH]; cbn; [lia|].
  destruct (in_dec string_dec x l); cbn; lia.
Qed.

(** Distinct paths cannot outnumber the saves. *)
Lemma written_le_saves (tr : list Event) :
  (written tr <= List.length (written_paths tr))%nat.
Proof. unfold written. apply nodup_length_le. Qed.

(** The loop saves for frames of its list only, once at most for each, and
    what was written before stays written. *)
Lemma export_loop_written (out_dir : string) (checked : list FrameData) :
  forall tr,
    (List.length (written_paths (fst (export_loop P out_dir checked tr)))
     <= List.length (written_paths tr) + List.length checked)%nat /\
    forall e, In e (fst (export_loop P out_dir checked tr)) ->
              In e tr \/
              exists f path, In f checked /\ e = FrameWrite path (source_path f).
Proof.
  induction checked as [|f rest IH]; intro tr; cbn [export_loop].
  - cbn [fst List.length]. split; [lia | auto].
  - assert (Hw : forall e,
               List.length (written_paths (tr ++ [FrameWrite e (source_path f)]))
               = S (List.length (written_paths tr))).
    { intro e. rewrite written_paths_app, length_app. cbn. lia. }
    assert (Hrest : forall tr',
               (List.length (written_paths tr')
                <= S (List.length (written_paths tr)))%nat ->
               (forall e, In e tr' ->
                          In e tr \/
                          exists path, e = FrameWrite path (source_path f)) ->
               (List.length
                  (written_paths (fst (export_loop P out_dir rest tr')))
                <= List.length (written_paths tr)
                   + List.length (f :: rest))%nat /\
               forall e, In e (fst (export_loop P out_dir rest tr')) ->
                         In e tr \/
                         exists g path,
                           In g (f :: rest)
                           /\ e = FrameWrite path (source_path g)).
    { intros tr' Hle Hin. destruct (IH tr') as [H1 H2]. split.
      - cbn [List.length]. lia.
      - intros e He. destruct (H2 e He) as [H|(g & path & Hg & ->)].
        + destruct (Hin e H) as [H'|(path & ->)]; [left; exact H'|].
          right. exists f, path. split; [left; reflexivity | reflexivity].
        + right. exists g, path. split; [right; exact Hg | reflexivity]. }
    assert (Hadd : forall path e,
               In e (tr ++ [FrameWrite path (source_path f)]) ->
               In e tr \/ exists path', e = FrameWrite path' (source_path f)).
    { intros path e He. apply in_app_or in He.
      destruct He as [He|[<-|[]]]; [left; exact He | right; eauto]. }
    destruct (String.eqb (source_path f) "" || negb (path_exists P (source_path f))).
    { apply Hrest; [lia | auto]. }
    destruct (String.eqb (str_lower P (path_suffix P (source_path f))) ".svg").
    { destruct (pixmap_save_ok P (svg_export_path P out_dir f));
        apply Hrest; [rewrite Hw; lia | apply Hadd | lia | auto]. }
    destruct (negb (export_open_ok P (source_path f))).
    { cbn [fst List.length]. split; [lia | auto]. }
    destruct (export_save_ok P (raster_export_path P out_dir f)).
    { apply Hrest; [rewrite Hw; lia | apply Hadd]. }
    cbn [fst List.length]. split; [lia | auto].
Qed.

(** When the method gets as far as its closing message, the count in that
    message is the number of checked frames, whatever was written. *)
Lemma export_reports_checked (out_dir_str : string) (s : State)
      (tr : list Event) :
  filter is_checked (frames s) <> [] ->
  out_dir_str <> "" ->
  export_loop P (path_str P out_dir_str) (filter is_checked (frames s))
              [DirectoryDialog "Export Frames To Folder"] = (tr, Returned) ->
  export_checked P out_dir_str s
  = (tr ++ [MsgInformation "Export Frames"
              ("Exported "
               ++ Py.str_nat (List.length (filter is_checked (frames s)))
               ++ " frame(s) to " ++ path_str P out_dir_str)%string],
     Returned).
Proof.
  intros Hc Hd Hl. unfold export_checked.
  apply truthy_true_iff in Hc. rewrite Hc. cbn [negb].
  apply String.eqb_neq in Hd. rewrite Hd, Hl. reflexivity.
Qed.

End FrameExportFacts.

(** C7, on [Demo.checked_missing].  The only checked frame points to a file
    that is gone: the loop skips it, no file is written, and the closing
    message still says that one frame was exported. *)
Theorem export_checked_count :
  FrameExport.export_checked Demo.platform "out" Demo.checked_missing
  = ([DirectoryDialog "Export Frames To Folder";
      MsgInformation "Export Frames" "Exported 1 frame(s) to out"],
     Returned) /\
  FrameExport.written
    (fst (FrameExport.export_checked Demo.platform "out" Demo.checked_missing))
  = 0%nat /\
  List.length (filter is_checked (frames Demo.checked_missing)) = 1%nat.
Proof. repeat split. Qed.

(** Two checked frames, one of them gone: one file written, two reported. *)
Example export_checked_pair :
  FrameExport.export_checked Demo.platform "out" Demo.checked_pair
  = ([DirectoryDialog "Export Frames To Folder";
      FrameWrite "out/a.png" "a.png";
      MsgInformation "Export Frames" "Exported 2 frame(s) to out"],
     Returned).
Proof. reflexivity. Qed.

(** A checked frame that exists but does not decode is not skipped: the
    exception of [Image.open] leaves the method. *)
Example export_checked_broken :
  FrameExport.export_checked Demo.platform "out" Demo.checked_broken
  = ([DirectoryDialog "Export Frames To Folder"], Raised).
Proof. reflexivity. Qed.

(** ** More facts about the Python helpers *)

Lemma replace_nth_length {A : Type} (l : list A) (n : nat) (x : A) :
  List.length (Py.replace_nth l n x) = List.length l.
Proof.
  revert n. induction l as [|a l IH]; intros [|n]; cbn; auto.
Qed.

Lemma replace_nth_same {A : Type} (l : list A) (n : nat) (x : A) :
  (n < List.length l)%nat -> nth_error (Py.replace_nth l n x) n = Some x.
Proof.
  revert n. induction l as [|a l IH]; intros [|n] H; cbn in *; try lia; auto.
  apply IH. lia.
Qed.

Lemma replace_nth_other {A : Type} (l : list A) (n m : nat) (x : A) :
  n <> m -> nth_error (Py.replace_nth l n x) m = nth_error l m.
Proof.
  revert n m. induction l as [|a l IH]; intros [|n] [|m] H; cbn; auto;
    try congruence.
Qed.

Lemma replace_nth_In {A : Type} (l : list A) (n : nat) (x y : A) :
  In y (Py.replace_nth l n x) -> y = x \/ In y l.
Proof.
  revert n. induction l as [|a l IH]; intros [|n] H; cbn in *; try tauto.
  - destruct H as [H|H]; auto.
  - destruct H as [H|H]; auto. destruct (IH n H); auto.
Qed.

(** Overwriting a position with what it holds changes nothing. *)
Lemma replace_nth_id {A : Type} (l : list A) (n : nat) (x : A) :
  nth_error l n = Some x -> Py.replace_nth l n x = l.
Proof.
  revert n. induction l as [|a l IH]; intros [|n] H; cbn in *; try congruence.
  rewrite IH; auto.
Qed.

Lemma replace_nth_twice {A : Type} (l : list A) (n : nat) (x y : A) :
  Py.replace_nth (Py.replace_nth l n x) n y = Py.replace_nth l n y.
Proof.
  revert n. induction l as [|a l IH]; intros [|n]; cbn; auto.
  rewrite IH. reflexivity.
Qed.

Lemma replace_nth_swap {A : Type} (l : list A) (n m : nat) (x y : A) :
  n <> m ->
  Py.replace_nth (Py.replace_nth l n x) m y
  = Py.replace_nth (Py.replace_nth l m y) n x.
Proof.
  revert n m. induction l as [|a l IH]; intros [|n] [|m] H; cbn; auto;
    try congruence.
  rewrite IH; auto.
Qed.

Lemma store_in_range {A : Type} (l : list A) (i : Z) (x : A) :
  0 <= i < Py.len l ->
  Py.store l i x = Some (Py.replace_nth l (Z.to_nat i) x).
Proof.
  intros [H0 H1]. unfold Py.store.
  destruct (Z.leb_spec 0 i); [|lia].
  destruct (Z.ltb_spec i (Py.len l)); [|lia]. reflexivity.
Qed.

Lemma len_replace_nth {A : Type} (l : list A) (n : nat) (x : A) :
  Py.len (Py.replace_nth l n x) = Py.len l.
Proof. unfold Py.len. rewrite replace_nth_length. reflexivity. Qed.

Lemma del_In {A : Type} (l : list A) (n : nat) (x : A) :
  In x (Py.del l n) -> In x l.
Proof.
  revert n. induction l as [|a l IH]; intros [|n] H; cbn in *; auto.
  destruct H as [H|H]; auto. right. exact (IH n H).
Qed.

Lemma insert_length {A : Type} (l : list A) (n : nat) (x : A) :
  List.length (Py.insert l n x) = S (List.length l).
Proof.
  unfold Py.insert. rewrite length_app. cbn.
  rewrite <- (firstn_skipn n l) at 3. rewrite length_app. lia.
Qed.

Lemma insert_In {A : Type} (l : list A) (n : nat) (x y : A) :
  In y (Py.insert l n x) <-> y = x \/ In y l.
Proof.
  unfold Py.insert. rewrite <- (firstn_skipn n l) at 3.
  rewrite !in_app_iff. cbn. intuition auto.
Qed.

(** Deleting what was just inserted gives the list back. *)
Lemma del_insert {A : Type} (l : list A) (n : nat) (x : A) :
  (n <= List.length l)%nat -> Py.del (Py.insert l n x) n = l.
Proof.
  revert n. induction l as [|a l IH]; intros [|n] H; cbn in *; try lia; auto.
  f_equal. apply IH. lia.
Qed.

Lemma insert_nth_before {A : Type} (l : list A) (n m : nat) (x : A) :
  (m < n)%nat -> (n <= List.length l)%nat ->
  nth_error (Py.insert l n x) m = nth_error l m.
Proof.
  revert n m. induction l as [|a l IH]; intros [|n] [|m] H1 H2; cbn in *;
    try lia; auto.
  apply (IH n m); lia.
Qed.

Lemma insert_nth_at {A : Type} (l : list A) (n : nat) (x : A) :
  (n <= List.length l)%nat -> nth_error (Py.insert l n x) n = Some x.
Proof.
  revert n. induction l as [|a l IH]; intros [|n] H; cbn in *; try lia; auto.
  apply (IH n). lia.
Qed.

Lemma insert_nth_after {A : Type} (l : list A) (n m : nat) (x : A) :
  (n <= m)%nat -> (n <= List.length l)%nat ->
  nth_error (Py.insert l n x) (S m) = nth_error l m.
Proof.
  revert n m. induction l as [|a l IH]; intros [|n] [|m] H1 H2; cbn in *;
    try lia; auto.
  apply (IH n m); lia.
Qed.

(** ** Duplicating, moving and marking frames *)

Section MoreEdits.

Import Timeline.

(** The two reads and two stores of a swap, for two rows of the list. *)
Lemma swap_items_in_range (l : list FrameData) (i j : Z) :
  0 <= i < Py.len l -> 0 <= j < Py.len l ->
  exists a b,
    nth_error l (Z.to_nat j) = Some a /\
    nth_error l (Z.to_nat i) = Some b /\
    swap_items l i j
    = Some (Py.replace_nth (Py.replace_nth l (Z.to_nat i) a) (Z.to_nat j) b).
Proof.
  intros Hi Hj. unfold swap_items.
  destruct (index_in_range l j Hj) as (a & Ha & Hna).
  destruct (index_in_range l i Hi) as (b & Hb & Hnb).
  exists a, b. rewrite Ha, Hb, (store_in_range l i a Hi).
  rewrite store_in_range by (rewrite len_replace_nth; exact Hj).
  auto.
Qed.

Lemma swap_adjacent_perm (l : list FrameData) (n : nat) (a b : FrameData) :
  nth_error l n = Some b ->
  nth_error l (S n) = Some a ->
  Permutation (Py.replace_nth (Py.replace_nth l n a) (S n) b) l.
Proof.
  revert n. induction l as [|x l IH]; intros [|n] Hb Ha; cbn in *;
    try discriminate.
  - destruct l as [|y l]; cbn in *; [discriminate|].
    injection Hb as ->. injection Ha as ->. apply perm_swap.
  - apply perm_skip. apply IH; assumption.
Qed.

(** X1, duplicate.  For a row of the list, [duplicate_selected] returns; the
    list grows by one; the new frame sits right after the original, is named
    after it with "_copy" appended and has its source, duration and flags;
    the original and every other frame keep their content, those behind the
    copy move down by one; the cursor is on the copy.  For any other index
    nothing changes. *)
Theorem duplicate_selected_copy (idx : Z) (s : State) :
  (idx < 0 \/ Py.len (frames s) <= idx -> duplicate_selected idx s = Some s) /\
  (0 <= idx < Py.len (frames s) ->
   exists s' f,
     duplicate_selected idx s = Some s' /\
     nth_error (frames s) (Z.to_nat idx) = Some f /\
     Py.len (frames s') = Py.len (frames s) + 1 /\
     current_index s' = idx + 1 /\
     nth_error (frames s') (Z.to_nat (idx + 1))
     = Some (mkFrame (source_path f) (display_name f ++ "_copy")%string
                     (duration_ms f) (is_custom_duration f) (is_checked f)) /\
     (forall j, (j <= Z.to_nat idx)%nat ->
                nth_error (frames s') j = nth_error (frames s) j) /\
     (forall j, (Z.to_nat idx < j)%nat ->
                nth_error (frames s') (S j) = nth_error (frames s) j)).
Proof.
  unfold duplicate_selected. split.
  - intros [H|H].
    + destruct (Z.ltb_spec idx 0); [reflexivity | lia].
    + destruct (Z.geb_spec idx (Py.len (frames s))); [|lia].
      rewrite orb_true_r. reflexivity.
  - intros [H0 H1].
    destruct (Z.ltb_spec idx 0); [lia|].
    destruct (Z.geb_spec idx (Py.len (frames s))); [lia|]. cbn [orb].
    destruct (index_in_range (frames s) idx (conj H0 H1)) as (f & Hx & Hn).
    rewrite Hx. eexists. exists f. split; [reflexivity|]. cbn.
    assert (Hle : (Z.to_nat (idx + 1) <= List.length (frames s))%nat)
      by (unfold Py.len in H1; lia).
    split; [exact Hn|].
    split; [unfold Py.len; rewrite insert_length; lia|].
    split; [reflexivity|].
    split; [apply insert_nth_at; exact Hle|].
    split.
    + intros j Hj. apply insert_nth_before; lia.
    + intros j Hj. apply insert_nth_after; lia.
Qed.

Lemma duplicate_selected_copy_witness :
  0 <= 1 < Py.len (frames Demo.three_loop) /\
  exists s',
    duplicate_selected 1 Demo.three_loop = Some s' /\
    map display_name (frames s') = ["a.png"; "b.png"; "b.png_copy"; "c.png"] /\
    current_index s' = 2.
Proof.
  assert (H : 0 <= 1 < Py.len (frames Demo.three_loop)) by (cbn; lia).
  split; [exact H|].
  destruct (proj2 (duplicate_selected_copy 1 Demo.three_loop) H)
    as (s' & f & Hd & _ & _ & Hc & _).
  exists s'. split; [exact Hd|].
  injection Hd as <-. split; reflexivity.
Defined.

(** X2, duplicate, then remove the copy.  Removing the row the copy was put
    in gives the frame list back as it was. *)
Theorem duplicate_then_remove (idx : Z) (s : State) :
  0 <= idx < Py.len (frames s) ->
  exists s',
    duplicate_selected idx s = Some s' /\
    frames (remove_selected (current_index s') s') = frames s /\
    current_index (remove_selected (current_index s') s')
    = Z.min (idx + 1) (Py.len (frames s) - 1).
Proof.
  intros [H0 H1]. unfold duplicate_selected.
  destruct (Z.ltb_spec idx 0); [lia|].
  destruct (Z.geb_spec idx (Py.len (frames s))); [lia|]. cbn [orb].
  destruct (index_in_range (frames s) idx (conj H0 H1)) as (f & Hx & Hn).
  rewrite Hx. eexists. split; [reflexivity|].
  cbn [current_index frames mark_unsaved set_unsaved_changes set_current_index
       set_frames].
  set (dup := mkFrame _ _ _ _ _).
  unfold remove_selected.
  cbn [frames set_frames set_current_index mark_unsaved set_unsaved_changes].
  assert (Hlen : Py.len (Py.insert (frames s) (Z.to_nat (idx + 1)) dup)
                 = Py.len (frames s) + 1).
  { unfold Py.len. rewrite insert_length. lia. }
  rewrite Hlen.
  destruct (Z.ltb_spec (idx + 1) 0); [lia|].
  destruct (Z.geb_spec (idx + 1) (Py.len (frames s) + 1)); [lia|]. cbn [orb].
  rewrite del_insert by (unfold Py.len in H1; lia).
  assert (Ht : Py.truthy (frames s) = true).
  { apply truthy_true_iff. intro E. rewrite E in H1. cbn in H1. lia. }
  rewrite Ht. cbn. split; [reflexivity | lia].
Qed.

Lemma duplicate_then_remove_witness :
  0 <= 1 < Py.len (frames Demo.three_loop) /\
  exists s',
    duplicate_selected 1 Demo.three_loop = Some s' /\
    frames (remove_selected (current_index s') s') = frames Demo.three_loop.
Proof.
  assert (H : 0 <= 1 < Py.len (frames Demo.three_loop)) by (cbn; lia).
  split; [exact H|].
  destruct (duplicate_then_remove 1 Demo.three_loop H) as (s' & Hd & Hf & _).
  exists s'. split; assumption.
Defined.

(** X3, move.  [move_up] on the first row or with nothing selected, and
    [move_down] on the last row or with nothing selected, change nothing.
    Otherwise the selected frame and its neighbour change places, every
    other row keeps its frame, the list is a permutation of what it was,
    and the cursor follows the moved frame. *)
Theorem move_swaps_neighbours (idx : Z) (s : State) :
  (idx <= 0 -> move_up idx s = Some s) /\
  (idx < 0 \/ Py.len (frames s) - 1 <= idx -> move_down idx s = Some s) /\
  (1 <= idx < Py.len (frames s) ->
   exists s',
     move_up idx s = Some s' /\
     current_index s' = idx - 1 /\
     nth_error (frames s') (Z.to_nat (idx - 1))
     = nth_error (frames s) (Z.to_nat idx) /\
     nth_error (frames s') (Z.to_nat idx)
     = nth_error (frames s) (Z.to_nat (idx - 1)) /\
     (forall j, j <> Z.to_nat idx -> j <> Z.to_nat (idx - 1) ->
                nth_error (frames s') j = nth_error (frames s) j) /\
     Permutation (frames s') (frames s)) /\
  (0 <= idx < Py.len (frames s) - 1 ->
   exists s',
     move_down idx s = Some s' /\
     current_index s' = idx + 1 /\
     nth_error (frames s') (Z.to_nat (idx + 1))
     = nth_error (frames s) (Z.to_nat idx) /\
     nth_error (frames s') (Z.to_nat idx)
     = nth_error (frames s) (Z.to_nat (idx + 1)) /\
     (forall j, j <> Z.to_nat idx -> j <> Z.to_nat (idx + 1) ->
                nth_error (frames s') j = nth_error (frames s) j) /\
     Permutation (frames s') (frames s)).
Proof.
  split; [|split; [|split]].
  - intro H. unfold move_up. destruct (Z.leb_spec idx 0); [reflexivity | lia].
  - intros [H|H]; unfold move_down.
    + destruct (Z.ltb_spec idx 0); [reflexivity | lia].
    + destruct (Z.geb_spec idx (Py.len (frames s) - 1)); [|lia].
      rewrite orb_true_r. reflexivity.
  - intros [H1 H2]. unfold move_up.
    destruct (Z.leb_spec idx 0); [lia|].
    destruct (swap_items_in_range (frames s) (idx - 1) idx) as (a & b & Ha & Hb & Hs);
      [lia | lia |].
    rewrite Hs. eexists. split; [reflexivity|]. cbn.
    assert (Hlt : (Z.to_nat idx < List.length (frames s))%nat)
      by (unfold Py.len in H2; lia).
    assert (Hne : Z.to_nat (idx - 1) <> Z.to_nat idx) by lia.
    split; [reflexivity|]. split; [|split; [|split]].
    + rewrite replace_nth_other by lia.
      rewrite replace_nth_same by lia. symmetry. exact Ha.
    + rewrite replace_nth_same by (rewrite replace_nth_length; lia).
      symmetry. exact Hb.
    + intros j Hj1 Hj2. rewrite !replace_nth_other by lia. reflexivity.
    + replace (Z.to_nat idx) with (S (Z.to_nat (idx - 1))) in * by lia.
      apply swap_adjacent_perm; assumption.
  - intros [H1 H2]. unfold move_down.
    destruct (Z.ltb_spec idx 0); [lia|].
    destruct (Z.geb_spec idx (Py.len (frames s) - 1)); [lia|]. cbn [orb].
    destruct (swap_items_in_range (frames s) (idx + 1) idx) as (a & b & Ha & Hb & Hs);
      [lia | lia |].
    rewrite Hs. eexists. split; [reflexivity|]. cbn.
    assert (Hlt : (Z.to_nat (idx + 1) < List.length (frames s))%nat)
      by (unfold Py.len in H2; lia).
    assert (Hne : Z.to_nat (idx + 1) <> Z.to_nat idx) by lia.
    split; [reflexivity|]. split; [|split; [|split]].
    + rewrite replace_nth_other by lia.
      rewrite replace_nth_same by lia. symmetry. exact Ha.
    + rewrite replace_nth_same by (rewrite replace_nth_length; lia).
      symmetry. exact Hb.
    + intros j Hj1 Hj2. rewrite !replace_nth_other by lia. reflexivity.
    + rewrite replace_nth_swap by lia.
      replace (Z.to_nat (idx + 1)) with (S (Z.to_nat idx)) in * by lia.
      apply swap_adjacent_perm; assumption.
Qed.

Lemma move_swaps_neighbours_witness :
  1 <= 2 < Py.len (frames Demo.three_loop) /\
  exists s',
    move_up 2 Demo.three_loop = Some s' /\
    map display_name (frames s') = ["a.png"; "c.png"; "b.png"] /\
    current_index s' = 1.
Proof.
  assert (H : 1 <= 2 < Py.len (frames Demo.three_loop)) by (cbn; lia).
  split; [exact H|].
  destruct (proj1 (proj2 (proj2 (move_swaps_neighbours 2 Demo.three_loop))) H)
    as (s' & Hm & Hc & _).
  exists s'. split; [exact Hm|]. injection Hm as <-. split; reflexivity.
Defined.

End MoreEdits.

Section EditRoundTrips.

Import Timeline.

(** X4, up, then down.  Moving a frame up and then moving it (the cursor
    follows it) down again restores the frame list and puts the cursor back
    on the row it started from. *)
Theorem move_up_then_down (idx : Z) (s : State) :
  1 <= idx < Py.len (frames s) ->
  exists s1 s2,
    move_up idx s = Some s1 /\
    move_down (current_index s1) s1 = Some s2 /\
    frames s2 = frames s /\
    current_index s2 = idx.
Proof.
  intros [H1 H2]. unfold move_up.
  destruct (Z.leb_spec idx 0); [lia|].
  destruct (swap_items_in_range (frames s) (idx - 1) idx)
    as (a & b & Ha & Hb & Hs); [lia | lia |].
  rewrite Hs.
  set (l1 := Py.replace_nth (Py.replace_nth (frames s) (Z.to_nat (idx - 1)) a)
                            (Z.to_nat idx) b).
  assert (Hl1 : Py.len l1 = Py.len (frames s)).
  { unfold l1. rewrite !len_replace_nth. reflexivity. }
  assert (Hlt : (Z.to_nat idx < List.length (frames s))%nat)
    by (unfold Py.len in H2; lia).
  destruct (swap_items_in_range l1 idx (idx - 1))
    as (a' & b' & Ha' & Hb' & Hs'); [lia | lia |].
  assert (Ea : a' = a).
  { unfold l1 in Ha'. rewrite replace_nth_other in Ha' by lia.
    rewrite replace_nth_same in Ha' by lia. congruence. }
  assert (Eb : b' = b).
  { unfold l1 in Hb'.
    rewrite replace_nth_same in Hb' by (rewrite replace_nth_length; lia).
    congruence. }
  subst a' b'.
  eexists. eexists. split; [reflexivity|].
  unfold move_down.
  cbn [current_index frames mark_unsaved set_unsaved_changes set_current_index
       set_frames].
  rewrite Hl1.
  destruct (Z.ltb_spec (idx - 1) 0); [lia|].
  destruct (Z.geb_spec (idx - 1) (Py.len (frames s) - 1)); [lia|]. cbn [orb].
  replace (idx - 1 + 1) with idx by lia.
  rewrite Hs'. split; [reflexivity|]. cbn. split; [|reflexivity].
  unfold l1.
  rewrite replace_nth_twice.
  rewrite (replace_nth_swap _ (Z.to_nat idx) (Z.to_nat (idx - 1))) by lia.
  rewrite replace_nth_twice.
  rewrite (replace_nth_id (frames s) (Z.to_nat (idx - 1)) b Hb).
  apply replace_nth_id. exact Ha.
Qed.

Lemma move_up_then_down_witness :
  1 <= 2 < Py.len (frames Demo.three_loop) /\
  exists s1 s2,
    move_up 2 Demo.three_loop = Some s1 /\
    move_down (current_index s1) s1 = Some s2 /\
    frames s2 = frames Demo.three_loop /\
    current_index s2 = 2.
Proof.
  assert (H : 1 <= 2 < Py.len (frames Demo.three_loop)) by (cbn; lia).
  split; [exact H|].
  exact (move_up_then_down 2 Demo.three_loop H).
Defined.

(** X5, pinning.  Confirming the duration dialog on a row of the list stores
    the value in that frame and pins the frame exactly when the value
    differs from the default; a later change of the default to [ms] then
    gives the frame [ms] if it was left unpinned and leaves the value if it
    was pinned.  Cancelling the dialog changes nothing. *)
Theorem edit_duration_pins (idx val ms : Z) (s : State) :
  0 <= idx < Py.len (frames s) ->
  edit_duration_for_frame idx (val, false) s = Some s /\
  exists s1 f f1,
    edit_duration_for_frame idx (val, true) s = Some s1 /\
    nth_error (frames s) (Z.to_nat idx) = Some f /\
    nth_error (frames s1) (Z.to_nat idx) = Some f1 /\
    f1 = mkFrame (source_path f) (display_name f) val
                 (negb (val =? default_duration_ms s)) (is_checked f) /\
    current_index s1 = idx /\
    (forall j, j <> Z.to_nat idx ->
               nth_error (frames s1) j = nth_error (frames s) j) /\
    option_map duration_ms
      (nth_error (frames (on_default_duration_changed ms s1)) (Z.to_nat idx))
    = Some (if val =? default_duration_ms s then ms else val).
Proof.
  intros [H0 H1]. unfold edit_duration_for_frame.
  destruct (Z.ltb_spec idx 0); [lia|].
  destruct (Z.geb_spec idx (Py.len (frames s))); [lia|]. cbn [orb].
  destruct (index_in_range (frames s) idx (conj H0 H1)) as (f & Hx & Hn).
  rewrite Hx. split; [reflexivity|].
  rewrite store_in_range by lia.
  assert (Hlt : (Z.to_nat idx < List.length (frames s))%nat)
    by (unfold Py.len in H1; lia).
  eexists. exists f. eexists. split; [reflexivity|]. cbn.
  split; [exact Hn|].
  split; [apply replace_nth_same; exact Hlt|].
  split; [reflexivity|]. split; [reflexivity|]. split.
  - intros j Hj. apply replace_nth_other. lia.
  - rewrite nth_error_map, replace_nth_same by exact Hlt. cbn.
    unfold apply_default. cbn.
    destruct (val =? default_duration_ms s); reflexivity.
Qed.

Lemma edit_duration_pins_witness :
  0 <= 0 < Py.len (frames Demo.three_loop) /\
  exists s1,
    edit_duration_for_frame 0 (300, true) Demo.three_loop = Some s1 /\
    option_map duration_ms
      (nth_error (frames (on_default_duration_changed 60 s1)) 0)
    = Some 300.
Proof.
  assert (H : 0 <= 0 < Py.len (frames Demo.three_loop)) by (cbn; lia).
  split; [exact H|].
  destruct (proj2 (edit_duration_pins 0 300 60 Demo.three_loop H))
    as (s1 & f & f1 & He & _ & _ & _ & _ & _ & Hd).
  exists s1. split; [exact He | exact Hd].
Defined.

(** X6, overwrite all.  [on_overwrite_all_clicked] gives every frame the
    default duration and unpins it, pinned or not, and keeps sources, names
    and check marks in place; after it a change of the default to [ms]
    reaches every frame. *)
Theorem overwrite_all_unpins (ms : Z) (s : State) :
  let s' := on_overwrite_all_clicked s in
  default_duration_ms s' = default_duration_ms s /\
  map source_path (frames s') = map source_path (frames s) /\
  map display_name (frames s') = map display_name (frames s) /\
  map is_checked (frames s') = map is_checked (frames s) /\
  (forall f, In f (frames s') ->
             duration_ms f = default_duration_ms s /\
             is_custom_duration f = false) /\
  (forall f, In f (frames (on_default_duration_changed ms s')) ->
             duration_ms f = ms).
Proof.
  cbn. rewrite !map_map. cbn.
  repeat split; auto.
  - apply in_map_iff in H. destruct H as (g & <- & _). reflexivity.
  - apply in_map_iff in H. destruct H as (g & <- & _). reflexivity.
  - intros f H. apply in_map_iff in H. destruct H as (g & <- & _).
    reflexivity.
Qed.

(** X7, check marks.  A click outside the duration column on a row of the
    list flips the check mark of that frame only and puts the cursor on the
    row; a second click on the same row restores the frame list. *)
Theorem click_toggles_check (idx column : Z) (a1 a2 : Z * bool) (s : State) :
  column <> 3 ->
  0 <= idx < Py.len (frames s) ->
  exists s1 s2 f,
    on_tree_item_clicked idx column a1 s = Some s1 /\
    on_tree_item_clicked idx column a2 s1 = Some s2 /\
    nth_error (frames s) (Z.to_nat idx) = Some f /\
    nth_error (frames s1) (Z.to_nat idx)
    = Some (mkFrame (source_path f) (display_name f) (duration_ms f)
                    (is_custom_duration f) (negb (is_checked f))) /\
    (forall j, j <> Z.to_nat idx ->
               nth_error (frames s1) j = nth_error (frames s) j) /\
    current_index s1 = idx /\
    frames s2 = frames s.
Proof.
  intros Hc [H0 H1]. unfold on_tree_item_clicked.
  destruct (Z.eqb_spec column 3); [contradiction|].
  destruct (index_in_range (frames s) idx (conj H0 H1)) as (f & Hx & Hn).
  rewrite Hx, store_in_range by lia.
  assert (Hlt : (Z.to_nat idx < List.length (frames s))%nat)
    by (unfold Py.len in H1; lia).
  eexists. eexists. exists f. split; [reflexivity|].
  cbn [current_index frames mark_unsaved set_unsaved_changes set_current_index
       set_frames].
  set (f' := mkFrame _ _ _ _ (negb (is_checked f))).
  assert (Hx' : Py.index (Py.replace_nth (frames s) (Z.to_nat idx) f') idx
                = Some f').
  { destruct (index_in_range (Py.replace_nth (frames s) (Z.to_nat idx) f') idx)
      as (g & Hg & Hng); [rewrite len_replace_nth; lia|].
    rewrite replace_nth_same in Hng by exact Hlt. congruence. }
  rewrite Hx', store_in_range by (rewrite len_replace_nth; lia).
  split; [reflexivity|]. cbn.
  split; [exact Hn|].
  split; [apply replace_nth_same; exact Hlt|].
  split; [intros j Hj; apply replace_nth_other; lia|].
  split; [reflexivity|].
  rewrite replace_nth_twice, negb_involutive.
  apply replace_nth_id. destruct f; exact Hn.
Qed.

Lemma click_toggles_check_witness :
  0 <> 3 /\
  0 <= 1 < Py.len (frames Demo.three_loop) /\
  exists s1 s2,
    on_tree_item_clicked 1 0 (0, false) Demo.three_loop = Some s1 /\
    on_tree_item_clicked 1 0 (0, false) s1 = Some s2 /\
    map is_checked (frames s1) = [false; false; false] /\
    frames s2 = frames Demo.three_loop.
Proof.
  assert (H3 : 0 <> 3) by discriminate.
  assert (H : 0 <= 1 < Py.len (frames Demo.three_loop)) by (cbn; lia).
  split; [exact H3|]. split; [exact H|].
  destruct (click_toggles_check 1 0 (0, false) (0, false) Demo.three_loop H3 H)
    as (s1 & s2 & f & E1 & E2 & _ & _ & _ & _ & Hf).
  exists s1, s2. split; [exact E1|]. split; [exact E2|].
  split; [|exact Hf]. injection E1 as <-. reflexivity.
Defined.

End EditRoundTrips.

Lemma overwrite_all_unpins_witness :
  map (fun f => (duration_ms f, is_custom_duration f))
      (frames (Timeline.on_overwrite_all_clicked Demo.three_loop))
  = [(100, false); (100, false); (100, false)] /\
  forall f,
    In f (frames (Timeline.on_default_duration_changed 60
                    (Timeline.on_overwrite_all_clicked Demo.three_loop))) ->
    duration_ms f = 60.
Proof.
  split; [reflexivity|].
  exact (proj2 (proj2 (proj2 (proj2 (proj2
           (overwrite_all_unpins 60 Demo.three_loop)))))).
Defined.

(** ** Playback: loop mode, the wave sweep, manual stepping *)

Section MorePlayback.

Import Playback.

Lemma ticks_add (a b : nat) (s : State) :
  ticks (a + b) s =
  match ticks a s with
  | None => None
  | Some s' => ticks b s'
  end.
Proof.
  revert s. induction a as [|a IH]; intro s; cbn [ticks Nat.add].
  - reflexivity.
  - destruct (advance_frame_for_playback s) as [s'|]; [apply IH | reflexivity].
Qed.

(** One tick in any mode but wave. *)
Lemma loop_tick (s : State) :
  frames s <> [] ->
  animation_mode s <> "wave" ->
  exists s',
    advance_frame_for_playback s = Some s' /\
    frames s' = frames s /\
    animation_mode s' = animation_mode s /\
    wave_direction s' = wave_direction s /\
    current_index s' = (current_index s + 1) mod Py.len (frames s).
Proof.
  intros Hne Hm.
  destruct (tick_nonempty s Hne) as (f & _ & Ht).
  pose proof (len_pos _ Hne) as Hn.
  assert (E : get_next_index_for_mode s
              = ((current_index s + 1) mod Py.len (frames s), s)).
  { unfold get_next_index_for_mode.
    destruct (Z.eqb_spec (Py.len (frames s)) 0); [lia|].
    destruct (String.eqb (animation_mode s) "loop"); [reflexivity|].
    destruct (String.eqb_spec (animation_mode s) "wave"); [contradiction|].
    reflexivity. }
  rewrite E in Ht. cbn [fst snd] in Ht.
  eexists. split; [exact Ht|]. cbn. auto.
Qed.

(** X8, loop mode.  In loop mode - and in any mode that is not "wave", which
    the source treats alike - the cursor after [k] ticks is the start
    cursor plus [k], modulo the number of frames: playback wraps from the
    last frame to the first and comes back to its start after one round. *)
Theorem loop_ticks (k : nat) :
  forall s : State,
    frames s <> [] ->
    animation_mode s <> "wave" ->
    0 <= current_index s < Py.len (frames s) ->
    exists sk,
      ticks k s = Some sk /\
      frames sk = frames s /\
      current_index sk = (current_index s + Z.of_nat k) mod Py.len (frames s).
Proof.
  induction k as [|k IH]; intros s Hne Hm Hc.
  - exists s. split; [reflexivity|]. split; [reflexivity|].
    rewrite Z.add_0_r, Z.mod_small; [reflexivity | exact Hc].
  - destruct (loop_tick s Hne Hm) as (s' & Ht & Hf & Hm' & _ & Hc').
    pose proof (len_pos _ Hne) as Hn.
    destruct (IH s') as (sk & Hk & Hfk & Hck).
    + rewrite Hf. exact Hne.
    + rewrite Hm'. exact Hm.
    + rewrite Hf, Hc'. apply Z.mod_pos_bound. lia.
    + exists sk. cbn [ticks]. rewrite Ht. split; [exact Hk|].
      split; [congruence|].
      rewrite Hck, Hf, Hc', Zplus_mod_idemp_l. f_equal. lia.
Qed.

Lemma loop_ticks_witness :
  frames Demo.three_loop <> [] /\
  animation_mode Demo.three_loop <> "wave" /\
  exists sk,
    ticks 3 Demo.three_loop = Some sk /\
    current_index sk = current_index Demo.three_loop.
Proof.
  assert (H1 : frames Demo.three_loop <> []) by discriminate.
  assert (H2 : animation_mode Demo.three_loop <> "wave") by discriminate.
  split; [exact H1|]. split; [exact H2|].
  destruct (loop_ticks 3 Demo.three_loop H1 H2) as (sk & Hk & _ & Hc);
    [cbn; lia|].
  exists sk. split; [exact Hk|]. rewrite Hc. reflexivity.
Defined.

(** Upward leg of the wave. *)
Lemma wave_up (j : nat) :
  forall s : State,
    animation_mode s = "wave" ->
    0 <= current_index s ->
    current_index s + Z.of_nat j <= Py.len (frames s) - 1 ->
    current_index s = 0 \/ wave_direction s = 1 ->
    exists sj,
      ticks j s = Some sj /\
      frames sj = frames s /\
      animation_mode sj = "wave" /\
      current_index sj = current_index s + Z.of_nat j /\
      (current_index sj = 0 \/ wave_direction sj = 1).
Proof.
  induction j as [|j IH]; intros s Hw H0 Hj Hd.
  - exists s. cbn. rewrite Z.add_0_r. auto.
  - assert (Hne : frames s <> []).
    { intro E. rewrite E in Hj. cbn in Hj. lia. }
    destruct (wave_tick s Hne Hw) as (s' & Ht & Hf & Hw' & Hdir & Hc).
    assert (Hdir' : wave_direction s' = 1).
    { rewrite Hdir. destruct (Z.leb_spec (current_index s) 0); [reflexivity|].
      destruct (Z.geb_spec (current_index s) (Py.len (frames s) - 1)); lia. }
    assert (Hc' : current_index s' = current_index s + 1).
    { rewrite Hc. unfold clamp.
      destruct (Z.leb_spec (current_index s) 0); [lia|].
      destruct (Z.geb_spec (current_index s) (Py.len (frames s) - 1)); lia. }
    destruct (IH s') as (sj & Hk & Hfj & Hwj & Hcj & Hdj); auto.
    + lia.
    + rewrite Hf. lia.
    + exists sj. cbn [ticks]. rewrite Ht. split; [exact Hk|].
      split; [congruence|]. split; [exact Hwj|]. split; [lia | exact Hdj].
Qed.

(** Downward leg of the wave. *)
Lemma wave_down (j : nat) :
  forall s : State,
    animation_mode s = "wave" ->
    2 <= Py.len (frames s) ->
    current_index s <= Py.len (frames s) - 1 ->
    0 <= current_index s - Z.of_nat j ->
    current_index s = Py.len (frames s) - 1 \/ wave_direction s = -1 ->
    exists sj,
      ticks j s = Some sj /\
      frames sj = frames s /\
      current_index sj = current_index s - Z.of_nat j.
Proof.
  induction j as [|j IH]; intros s Hw Hn Hc Hj Hd.
  - exists s. cbn. rewrite Z.sub_0_r. auto.
  - assert (Hne : frames s <> []).
    { intro E. rewrite E in Hn. cbn in Hn. lia. }
    destruct (wave_tick s Hne Hw) as (s' & Ht & Hf & Hw' & Hdir & Hc').
    assert (Hdir' : wave_direction s' = -1).
    { rewrite Hdir. destruct (Z.leb_spec (current_index s) 0); [lia|].
      destruct (Z.geb_spec (current_index s) (Py.len (frames s) - 1));
        [reflexivity | lia]. }
    assert (Hc'' : current_index s' = current_index s - 1).
    { rewrite Hc'. unfold clamp.
      destruct (Z.leb_spec (current_index s) 0); [lia|].
      destruct (Z.geb_spec (current_index s) (Py.len (frames s) - 1)); lia. }
    destruct (IH s') as (sj & Hk & Hfj & Hcj); auto.
    + rewrite Hf. exact Hn.
    + rewrite Hf. lia.
    + lia.
    + exists sj. cbn [ticks]. rewrite Ht. split; [exact Hk|].
      split; [congruence | lia].
Qed.

(** X9, the wave sweep.  In wave mode on [n >= 2] frames, from cursor 0, the
    first [n-1] ticks visit 1, 2, ..., n-1 and the next [n-1] ticks visit
    n-2, ..., 1, 0: both end frames are shown once per sweep and no frame is
    skipped, whatever [wave_direction] was at the start. *)
Theorem wave_sweep (s : State) (k : nat) :
  animation_mode s = "wave" ->
  2 <= Py.len (frames s) ->
  current_index s = 0 ->
  Z.of_nat k <= 2 * (Py.len (frames s) - 1) ->
  exists sk,
    ticks k s = Some sk /\
    current_index sk
    = if Z.of_nat k <=? Py.len (frames s) - 1
      then Z.of_nat k
      else 2 * (Py.len (frames s) - 1) - Z.of_nat k.
Proof.
  intros Hw Hn H0 Hk.
  destruct (Z.leb_spec (Z.of_nat k) (Py.len (frames s) - 1)) as [Hle|Hgt].
  - destruct (wave_up k s Hw) as (sk & Ht & _ & _ & Hc & _); try lia.
    exists sk. split; [exact Ht | lia].
  - set (a := Z.to_nat (Py.len (frames s) - 1)).
    replace k with (a + (k - a))%nat by lia.
    rewrite ticks_add.
    destruct (wave_up a s Hw) as (sa & Ht & Hf & Hwa & Hc & _); try lia.
    rewrite Ht.
    destruct (wave_down (k - a) sa Hwa) as (sk & Htk & _ & Hck).
    + rewrite Hf. exact Hn.
    + rewrite Hf. lia.
    + lia.
    + left. rewrite Hf. lia.
    + exists sk. split; [exact Htk | lia].
Qed.

Lemma wave_sweep_witness :
  animation_mode Demo.three_wave = "wave" /\
  2 <= Py.len (frames Demo.three_wave) /\
  exists sk, ticks 4 Demo.three_wave = Some sk /\ current_index sk = 0.
Proof.
  split; [reflexivity|]. split; [cbn; lia|].
  destruct (wave_sweep Demo.three_wave 4 eq_refl) as (sk & Ht & Hc);
    [cbn; lia | reflexivity | cbn; lia |].
  exists sk. split; [exact Ht | exact Hc].
Defined.

(** X10, manual stepping.  On a non-empty timeline [next] and [prev] stop
    playback and move the cursor by one with wrap-around at both ends, in
    every mode; from a cursor on the list each undoes the other. *)
Theorem manual_step_wraps (s : State) :
  frames s <> [] ->
  0 <= current_index s < Py.len (frames s) ->
  is_playing (next_frame_clicked s) = false /\
  play_timer (next_frame_clicked s) = None /\
  is_playing (prev_frame_clicked s) = false /\
  play_timer (prev_frame_clicked s) = None /\
  current_index (next_frame_clicked s)
  = (if current_index s =? Py.len (frames s) - 1
     then 0 else current_index s + 1) /\
  current_index (prev_frame_clicked s)
  = (if current_index s =? 0
     then Py.len (frames s) - 1 else current_index s - 1) /\
  current_index (prev_frame_clicked (next_frame_clicked s)) = current_index s /\
  current_index (next_frame_clicked (prev_frame_clicked s)) = current_index s /\
  frames (next_frame_clicked s) = frames s /\
  frames (prev_frame_clicked s) = frames s.
Proof.
  intros Hne Hc. pose proof (len_pos _ Hne) as Hn.
  apply truthy_true_iff in Hne.
  unfold next_frame_clicked, prev_frame_clicked. rewrite Hne. cbn. rewrite Hne.
  cbn.
  set (n := Py.len (frames s)) in *. set (c := current_index s) in *.
  assert (En : (c + 1) mod n = if c =? n - 1 then 0 else c + 1).
  { destruct (Z.eqb_spec c (n - 1)) as [->|].
    - replace (n - 1 + 1) with n by lia. apply Z.mod_same. lia.
    - apply Z.mod_small. lia. }
  assert (Ep : (c - 1) mod n = if c =? 0 then n - 1 else c - 1).
  { destruct (Z.eqb_spec c 0) as [->|].
    - replace (0 - 1) with (n - 1 + (-1) * n) by lia.
      rewrite Z.mod_add by lia. apply Z.mod_small. lia.
    - apply Z.mod_small. lia. }
  repeat split; auto.
  - rewrite Zminus_mod_idemp_l. replace (c + 1 - 1) with c by lia.
    apply Z.mod_small. exact Hc.
  - rewrite Zplus_mod_idemp_l. replace (c - 1 + 1) with c by lia.
    apply Z.mod_small. exact Hc.
Qed.

Lemma manual_step_wraps_witness :
  frames Demo.three_at_end <> [] /\
  0 <= current_index Demo.three_at_end < Py.len (frames Demo.three_at_end) /\
  current_index (next_frame_clicked Demo.three_at_end) = 0 /\
  is_playing (next_frame_clicked Demo.three_at_end) = false.
Proof.
  assert (H1 : frames Demo.three_at_end <> []) by discriminate.
  assert (H2 : 0 <= current_index Demo.three_at_end
               < Py.len (frames Demo.three_at_end)) by (cbn; lia).
  split; [exact H1|]. split; [exact H2|].
  destruct (manual_step_wraps Demo.three_at_end H1 H2)
    as (Hp & _ & _ & _ & Hc & _).
  split; [exact Hc | exact Hp].
Defined.

End MorePlayback.

(** ** Saving, the unsaved-changes guard and new project *)

Section ProjectFacts.

Variable P : Platform.

(** An export touches nothing but the unsaved flag, and only to clear it. *)
Lemma save_to_path_shape (path : string) (s : State) :
  fst (GifExport._save_gif_to_path P path s) = s \/
  fst (GifExport._save_gif_to_path P path s) = set_unsaved_changes false s.
Proof.
  unfold GifExport._save_gif_to_path.
  destruct (frames s) as [|f0 rest]; [left; reflexivity|].
  destruct (GifExport.load_frame_image P f0 None) as [[[i|] w] h];
    [|left; reflexivity].
  destruct (GifExport.collect P (w, h) (f0 :: rest) [] []) as [[|a l] d];
    [left; reflexivity|].
  destruct (gif_save_ok P _); [right | left]; reflexivity.
Qed.

(** So does every way of saving, up to the stored path. *)
Lemma save_gif_as_shape (path_str : string) (s : State) :
  exists u g,
    fst (GifExport.save_gif_as P path_str s)
    = set_current_gif_path g (set_unsaved_changes u s) /\
    (u = unsaved_changes s \/ u = false).
Proof.
  unfold GifExport.save_gif_as.
  destruct (String.eqb path_str "").
  - exists (unsaved_changes s), (current_gif_path s). cbn.
    split; [destruct s; reflexivity | left; reflexivity].
  - set (p := if negb _ then _ else _).
    pose proof (save_to_path_shape p s) as H.
    destruct (GifExport._save_gif_to_path P p s) as [s1 tr]. cbn [fst] in *.
    destruct H as [-> | ->].
    + exists (unsaved_changes s), (Some p).
      split; [destruct s; reflexivity | left; reflexivity].
    + exists false, (Some p). split; [reflexivity | right; reflexivity].
Qed.

Lemma save_gif_shape (answer : string) (s : State) :
  exists u g,
    fst (GifExport.save_gif P answer s)
    = set_current_gif_path g (set_unsaved_changes u s) /\
    (u = unsaved_changes s \/ u = false).
Proof.
  unfold GifExport.save_gif.
  destruct (current_gif_path s) as [p|] eqn:E; [|apply save_gif_as_shape].
  destruct (save_to_path_shape p s) as [H|H]; rewrite H.
  - exists (unsaved_changes s), (current_gif_path s).
    split; [destruct s; reflexivity | left; reflexivity].
  - exists false, (current_gif_path s).
    split; [destruct s; reflexivity | right; reflexivity].
Qed.

Lemma guard_shape (resp : Response) (answer : string) (s : State) :
  exists u g,
    snd (fst (Project.maybe_save_before_discard P resp answer s))
    = set_current_gif_path g (set_unsaved_changes u s) /\
    (u = unsaved_changes s \/ u = false).
Proof.
  assert (Hid : exists u g,
             s = set_current_gif_path g (set_unsaved_changes u s) /\
             (u = unsaved_changes s \/ u = false)).
  { exists (unsaved_changes s), (current_gif_path s).
    split; [destruct s; reflexivity | left; reflexivity]. }
  unfold Project.maybe_save_before_discard.
  destruct (negb (unsaved_changes s)); [exact Hid|].
  destruct resp; try exact Hid.
  pose proof (save_gif_shape answer s) as H.
  destruct (GifExport.save_gif P answer s) as [s1 tr]. exact H.
Qed.

(** X11, save as.  With a non-empty answer of the file dialog, [save_gif_as]
    stores the chosen path (with the ".gif" suffix forced) as the current
    path whether or not the export succeeded, leaves the frames, the
    cursor, the default duration, the mode and the playback state as they
    were, and never sets the unsaved flag.  With an empty answer it does
    nothing. *)
Theorem save_gif_as_stores_path (path_str : string) (s : State) :
  (path_str = "" -> GifExport.save_gif_as P path_str s = (s, [])) /\
  (path_str <> "" ->
   let s' := fst (GifExport.save_gif_as P path_str s) in
   current_gif_path s'
   = Some (if negb (String.eqb (str_lower P (path_suffix P path_str)) ".gif")
           then path_with_suffix P path_str ".gif" else path_str) /\
   frames s' = frames s /\
   current_index s' = current_index s /\
   default_duration_ms s' = default_duration_ms s /\
   animation_mode s' = animation_mode s /\
   is_playing s' = is_playing s /\
   play_timer s' = play_timer s /\
   (unsaved_changes s' = true -> unsaved_changes s = true)).
Proof.
  split.
  - intros ->. reflexivity.
  - intros Hne. unfold GifExport.save_gif_as.
    apply String.eqb_neq in Hne. rewrite Hne.
    set (p := if negb _ then _ else _).
    pose proof (save_to_path_shape p s) as H.
    destruct (GifExport._save_gif_to_path P p s) as [s1 tr]. cbn [fst] in *.
    destruct H as [-> | ->]; cbn; repeat split; auto; discriminate.
Qed.

(** X12, the guard.  [maybe_save_before_discard] lets the caller go on only
    when no unsaved change is left or the user answered No; No and Cancel
    leave the state untouched and write nothing; and with unsaved changes
    on an empty timeline the answer Yes never lets the caller go on, since
    there is nothing the save could write.  The guard never changes the
    frames, the cursor or the default duration. *)
Theorem discard_guard (resp : Response) (answer : string) (s : State)
        (ok : bool) (s1 : State) (tr : list Event) :
  Project.maybe_save_before_discard P resp answer s = (ok, s1, tr) ->
  (ok = true -> unsaved_changes s1 = false \/ resp = No) /\
  (resp <> Yes -> s1 = s /\ tr = []) /\
  (resp = Cancel -> ok = negb (unsaved_changes s)) /\
  (resp = Yes -> unsaved_changes s = true -> frames s = [] -> ok = false) /\
  frames s1 = frames s /\
  current_index s1 = current_index s /\
  default_duration_ms s1 = default_duration_ms s.
Proof.
  intro E.
  assert (Hcore : frames s1 = frames s /\ current_index s1 = current_index s
                  /\ default_duration_ms s1 = default_duration_ms s).
  { destruct (guard_shape resp answer s) as (u & g & Hs & _).
    rewrite E in Hs. cbn in Hs. subst s1. cbn. auto. }
  revert E. unfold Project.maybe_save_before_discard.
  destruct (unsaved_changes s) eqn:Eu; cbn [negb].
  - destruct resp.
    + destruct (GifExport.save_gif P answer s) as [s2 tr2] eqn:Es.
      intro E. injection E as <- <- <-.
      split; [intro H; left; destruct (unsaved_changes s2);
                [discriminate | reflexivity]|].
      split; [congruence|]. split; [discriminate|].
      split; [|exact Hcore].
      intros _ _ Hf.
      assert (Hu : unsaved_changes s2 = true).
      { revert Es. unfold GifExport.save_gif, GifExport.save_gif_as,
          GifExport._save_gif_to_path. rewrite Hf.
        destruct (current_gif_path s);
          [|destruct (String.eqb answer "")];
          intro Es; injection Es as <- _; cbn; exact Eu. }
      rewrite Hu. reflexivity.
    + intro E. injection E as <- <- <-.
      repeat split; auto; try discriminate; try tauto.
    + intro E. injection E as <- <- <-.
      repeat split; auto; try discriminate; try tauto.
  - intro E. injection E as <- <- <-.
    repeat split; auto; try discriminate; try tauto.
Qed.

End ProjectFacts.

Lemma save_gif_as_stores_path_witness :
  "out.png" <> "" /\
  current_gif_path
    (fst (GifExport.save_gif_as Demo.platform "out.png" Demo.checked_missing))
  = Some "out.gif" /\
  snd (GifExport.save_gif_as Demo.platform "out.png" Demo.checked_missing)
  = [FirstFrameLoadError].
Proof.
  assert (H : "out.png" <> "") by discriminate.
  split; [exact H|]. split; [|vm_compute; reflexivity].
  rewrite (proj1 (proj2 (save_gif_as_stores_path Demo.platform "out.png"
                           Demo.checked_missing) H)).
  vm_compute. reflexivity.
Defined.

(** Yes on an empty project with unsaved changes: the save has nothing to
    write and the guard refuses. *)
Lemma discard_guard_witness :
  Project.maybe_save_before_discard Demo.platform Yes "" Demo.unsaved_empty
  = (false, Demo.unsaved_empty, []) /\
  (Yes = Yes -> unsaved_changes Demo.unsaved_empty = true ->
   frames Demo.unsaved_empty = [] -> false = false).
Proof.
  assert (E : Project.maybe_save_before_discard Demo.platform Yes ""
                Demo.unsaved_empty = (false, Demo.unsaved_empty, []))
    by reflexivity.
  split; [exact E|].
  exact (proj1 (proj2 (proj2 (proj2
           (discard_guard Demo.platform Yes "" Demo.unsaved_empty
                          false Demo.unsaved_empty [] E))))).
Defined.

Section NewProject.

Variable P : Platform.

(** X13, new project.  When the guard lets it go on, [new_project] empties the
    timeline, puts the cursor on -1, forgets the file and clears the
    unsaved flag, but leaves the playback state alone: a timer that was
    running keeps running, and its next timeout finds the list empty and
    stops playback.  When the guard refuses, frames and cursor stay. *)
Theorem new_project_clears (resp : Response) (answer : string) (s : State) :
  (fst (fst (Project.maybe_save_before_discard P resp answer s)) = true ->
   let s' := fst (Project.new_project P resp answer s) in
   frames s' = [] /\
   current_index s' = -1 /\
   current_gif_path s' = None /\
   unsaved_changes s' = false /\
   default_duration_ms s' = default_duration_ms s /\
   is_playing s' = is_playing s /\
   play_timer s' = play_timer s /\
   (play_timer s <> None ->
    exists s'',
      Ui.handle P TimerTimeout s' = Some s'' /\
      is_playing s'' = false /\
      play_timer s'' = None /\
      frames s'' = [] /\
      current_index s'' = -1)) /\
  (fst (fst (Project.maybe_save_before_discard P resp answer s)) = false ->
   frames (fst (Project.new_project P resp answer s)) = frames s /\
   current_index (fst (Project.new_project P resp answer s))
   = current_index s).
Proof.
  destruct (guard_shape P resp answer s) as (u & g & Hs & _).
  unfold Project.new_project.
  destruct (Project.maybe_save_before_discard P resp answer s)
    as [[ok s1] tr]. cbn [fst snd] in *. subst s1.
  split; intros ->; cbn.
  - repeat split; auto.
    intro Ht. destruct (play_timer s) as [ms|]; [|congruence].
    eexists. split; [reflexivity|]. cbn. auto.
  - auto.
Qed.

End NewProject.

Lemma new_project_clears_witness :
  fst (fst (Project.maybe_save_before_discard Demo.platform No ""
              Demo.unsaved_three)) = true /\
  play_timer Demo.unsaved_three <> None /\
  exists s'',
    Ui.handle Demo.platform TimerTimeout
      (fst (Project.new_project Demo.platform No "" Demo.unsaved_three))
    = Some s'' /\
    is_playing s'' = false.
Proof.
  assert (H1 : fst (fst (Project.maybe_save_before_discard Demo.platform No ""
                           Demo.unsaved_three)) = true) by reflexivity.
  assert (H2 : play_timer Demo.unsaved_three <> None) by discriminate.
  split; [exact H1|]. split; [exact H2|].
  destruct (proj1 (new_project_clears Demo.platform No "" Demo.unsaved_three) H1)
    as (_ & _ & _ & _ & _ & _ & _ & Ht).
  destruct (Ht H2) as (s'' & Hh & Hp & _).
  exists s''. split; [exact Hh | exact Hp].
Defined.

(** ** GIF import: what the new timeline holds *)

Section ImportResult.

Import GifImport.

Variable P : Platform.

Lemma decode_raises_cons (info : option Z) (rest : list SubImage) (r : bool) :
  decode_raises (mkGif (Decodable info :: rest) r) = decode_raises (mkGif rest r).
Proof. reflexivity. Qed.

(** The loop in general: it appends the frames of the sub-images that come
    before the first failure, named by their ordinal, and raises exactly
    when a sub-image or the iterator does. *)
Lemma decode_loop_names (base : string) (d : Z) (subs : list SubImage)
      (raises : bool) :
  forall idx durs fr,
  exists nf ds,
    decode_loop P base d subs raises idx durs fr
    = (durs ++ ds, fr ++ nf,
       if decode_raises (mkGif subs raises) then Raised else Returned) /\
    map duration_ms nf = extracted d (decoded_prefix subs) /\
    map display_name nf
    = map (fun i => (base ++ "_" ++ Py.fmt_03d i ++ ".png")%string)
          (seq idx (List.length (decoded_prefix subs))) /\
    map source_path nf = map (tmp_frame_path P) (map display_name nf) /\
    (forall f, In f nf ->
               is_custom_duration f = false /\ is_checked f = false) /\
    (decode_raises (mkGif subs raises) = false ->
     ds = extracted d (decoded_prefix subs)).
Proof.
  induction subs as [|x rest IH]; intros idx durs fr.
  - exists [], []. cbn. rewrite !app_nil_r.
    destruct raises; split; [reflexivity| |reflexivity|];
      (split; [reflexivity|]); (split; [reflexivity|]);
      (split; [reflexivity|]); (split; [intros f []|]); auto; discriminate.
  - destruct x as [info|info].
    + cbn [decode_loop]. rewrite decode_raises_cons.
      destruct (IH (S idx)
                   (durs ++ [match info with Some x => x | None => d end])
                   (fr ++ [mkFrame
                             (tmp_frame_path P
                                (base ++ "_" ++ Py.fmt_03d idx ++ ".png")%string)
                             (base ++ "_" ++ Py.fmt_03d idx ++ ".png")%string
                             (match info with Some x => x | None => d end)
                             false false]))
        as (nf & ds & He & Hm & Hn & Hs & Hc & Hd).
      eexists (_ :: nf), (_ :: ds). rewrite He, <- !app_assoc. cbn.
      split; [reflexivity|]. split; [rewrite Hm; reflexivity|].
      split; [rewrite Hn; reflexivity|]. split; [rewrite Hs; reflexivity|].
      split.
      * intros f [<-|Hf]; [split; reflexivity | apply Hc; exact Hf].
      * intro E. rewrite (Hd E). reflexivity.
    + exists [], [match info with Some x => x | None => d end].
      cbn. rewrite app_nil_r. split; [reflexivity|].
      split; [reflexivity|]. split; [reflexivity|]. split; [reflexivity|].
      split; [intros f []|discriminate].
Qed.

(** The post-pass rewrites durations only with the value they have, and
    touches no source, name or check mark. *)
Lemma post_pass_keeps (ds : list Z) (s : State) :
  map duration_ms (frames s) = ds ->
  map duration_ms (frames (post_pass ds s)) = ds /\
  map display_name (frames (post_pass ds s)) = map display_name (frames s) /\
  map source_path (frames (post_pass ds s)) = map source_path (frames s) /\
  map is_checked (frames (post_pass ds s)) = map is_checked (frames s).
Proof.
  intro Hd. unfold post_pass.
  destruct (Py.truthy ds && all_equal_first ds) eqn:E;
    cbn; rewrite !map_map; cbn; repeat split; auto.
  apply andb_true_iff in E. destruct E as [_ E].
  apply all_equal_first_true in E. destruct E as (d & Hall).
  transitivity (map duration_ms (frames s)); [|exact Hd].
  apply map_ext_in. intros f Hf.
  assert (Hin : In (duration_ms f) ds).
  { rewrite <- Hd. apply in_map. exact Hf. }
  rewrite (Hall _ Hin).
  destruct ds as [|x r]; [destruct Hin|]. cbn. apply Hall. left. reflexivity.
Qed.

(** The slot of the spin box touches no source, name, check mark or pin. *)
Lemma spin_keeps_fields (spin : SpinBox) (v : Z) (s : State) :
  map display_name (frames (spin_set_value spin v s))
  = map display_name (frames s) /\
  map source_path (frames (spin_set_value spin v s))
  = map source_path (frames s) /\
  map is_checked (frames (spin_set_value spin v s))
  = map is_checked (frames s).
Proof.
  destruct (spin_set_value_shape spin v s) as [-> | [_ ->]]; [auto|].
  cbn. rewrite !map_map.
  repeat split; apply map_ext; intro f; unfold Timeline.apply_default;
    destruct (is_custom_duration f); reflexivity.
Qed.

(** After the spin box: the default is the one of the post-pass or its
    bounded value; a pinned frame has the duration it had, an unpinned one
    the default. *)
Lemma spin_durations (spin : SpinBox) (s : State) :
  durations_consistent s ->
  let s' := spin_set_value spin (default_duration_ms s) s in
  (default_duration_ms s' = default_duration_ms s \/
   default_duration_ms s' = spin_bound spin (default_duration_ms s)) /\
  forall i f,
    nth_error (frames s') i = Some f ->
    (is_custom_duration f = true ->
     nth_error (map duration_ms (frames s)) i = Some (duration_ms f)) /\
    (is_custom_duration f = false -> duration_ms f = default_duration_ms s').
Proof.
  intros Hc s'. unfold s'.
  destruct (spin_set_value_shape spin (default_duration_ms s) s)
    as [-> | [_ ->]].
  - split; [left; reflexivity|]. intros i f Hf. split.
    + intros _. rewrite nth_error_map, Hf. reflexivity.
    + intro E. apply Hc; [exact (nth_error_In _ _ Hf) | exact E].
  - split; [right; reflexivity|]. cbn. intros i f Hf.
    rewrite nth_error_map in Hf.
    destruct (nth_error (frames s) i) as [f0|] eqn:E0; [|discriminate].
    cbn in Hf. injection Hf as <-. unfold Timeline.apply_default.
    destruct (is_custom_duration f0) eqn:Ec; cbn; split; intro E;
      try discriminate; try congruence.
    rewrite nth_error_map, E0. reflexivity.
Qed.

(** Everything [open_gif] leaves behind when the file opens: for a decoding
    that completes, and for one that raises. *)
Lemma open_gif_outcome (path : string) (g : GifImage) (spin : SpinBox)
      (s : State) :
  path <> "" ->
  let subs := decoded_prefix (gif_subs g) in
  let ds := extracted (default_duration_ms s) subs in
  let names :=
    map (fun i => (path_stem P path ++ "_" ++ Py.fmt_03d i ++ ".png")%string)
        (seq 1 (List.length subs)) in
  let D :=
    if Py.truthy ds && all_equal_first ds then hd 0 ds
    else default_duration_ms s in
  (decode_raises g = false ->
   exists s',
     open_gif P path true (Some g) spin s = (s', [], Returned) /\
     map display_name (frames s') = names /\
     map source_path (frames s') = map (tmp_frame_path P) names /\
     (forall f, In f (frames s') -> is_checked f = false) /\
     current_index s' = (if Py.truthy subs then 0 else -1) /\
     current_gif_path s' = Some path /\
     unsaved_changes s' = false /\
     (subs <> [] -> is_playing s' = true) /\
     (spin_minimum spin <= D <= spin_maximum spin ->
      default_duration_ms s' = D /\ map duration_ms (frames s') = ds) /\
     (default_duration_ms s' = D \/ default_duration_ms s' = spin_bound spin D) /\
     (forall i f,
         nth_error (frames s') i = Some f ->
         (is_custom_duration f = true ->
          nth_error ds i = Some (duration_ms f)) /\
         (is_custom_duration f = false ->
          duration_ms f = default_duration_ms s'))) /\
  (decode_raises g = true ->
   exists nf,
     open_gif P path true (Some g) spin s = (set_frames nf s, [], Raised) /\
     map duration_ms nf = ds /\
     map display_name nf = names /\
     map source_path nf = map (tmp_frame_path P) names /\
     (forall f, In f nf ->
                is_custom_duration f = false /\ is_checked f = false)).
Proof.
  intros Hpath subs ds names D. unfold open_gif.
  apply String.eqb_neq in Hpath. rewrite Hpath. cbn [negb].
  cbn [frames set_frames default_duration_ms].
  destruct (decode_loop_names (path_stem P path) (default_duration_ms s)
                              (gif_subs g) (gif_iterator_raises g)
                              1%nat [] [])
    as (nf & ds' & He & Hm & Hn & Hs & Hc & Hd).
  rewrite He. cbn [app].
  replace (decode_raises (mkGif (gif_subs g) (gif_iterator_raises g)))
    with (decode_raises g) in * by (destruct g; reflexivity).
  fold subs in Hm, Hn, Hd. fold ds in Hm, Hd. fold names in Hn.
  rewrite Hn in Hs.
  split; intro Hr; rewrite Hr.
  2:{ exists nf. split; [destruct s; reflexivity|]. auto. }
  rewrite (Hd Hr).
  set (s2 := set_frames nf (set_frames [] s)).
  destruct (post_pass_keeps ds s2 Hm) as (Kd & Kn & Ks & Kc).
  cbn [frames s2 set_frames] in Kn, Ks, Kc.
  pose proof (post_pass_consistent ds s2) as Hcons.
  set (s3 := post_pass ds s2) in *.
  assert (HD : default_duration_ms s3 = D).
  { unfold s3, post_pass, D.
    destruct (Py.truthy ds && all_equal_first ds); reflexivity. }
  destruct (spin_keeps_fields spin (default_duration_ms s3) s3)
    as (Sn & Ss & Sc).
  destruct (spin_durations spin s3 Hcons) as (Sd & Sp).
  set (s3' := spin_set_value spin (default_duration_ms s3) s3) in *.
  assert (Hlen : List.length (frames s3') = List.length subs).
  { rewrite <- (length_map display_name), Sn, Kn, Hn. unfold names.
    rewrite length_map, length_seq. reflexivity. }
  assert (Hchk : forall f, In f (frames s3') -> is_checked f = false).
  { intros f Hf. apply (in_map is_checked) in Hf. rewrite Sc, Kc in Hf.
    apply in_map_iff in Hf. destruct Hf as (g0 & <- & Hg).
    apply Hc. exact Hg. }
  assert (Hrange : spin_minimum spin <= D <= spin_maximum spin ->
                   default_duration_ms s3' = D /\
                   map duration_ms (frames s3') = ds).
  { intro HrD. rewrite <- HD in HrD.
    destruct (spin_in_range spin s3 Hcons HrD) as [Sf Sdd].
    fold s3' in Sf, Sdd. rewrite Sf, Sdd. auto. }
  assert (Hpt : forall i f,
             nth_error (frames s3') i = Some f ->
             (is_custom_duration f = true ->
              nth_error ds i = Some (duration_ms f)) /\
             (is_custom_duration f = false ->
              duration_ms f = default_duration_ms s3')).
  { intros i f Hf. destruct (Sp i f Hf) as [P1 P2]. rewrite Kd in P1. auto. }
  rewrite HD in Sd.
  destruct (Py.truthy (frames s3)) eqn:Ht3.
  - assert (Hne3 : frames s3 <> []) by (apply truthy_true_iff; exact Ht3).
    assert (Hsubs : Py.truthy subs = true).
    { destruct subs; [|reflexivity]. cbn in Hlen.
      pose proof (spin_length spin (default_duration_ms s3) s3) as Hl.
      fold s3' in Hl. rewrite Hlen in Hl.
      destruct (frames s3); [discriminate Ht3 | discriminate Hl]. }
    destruct (open_gif_tail path spin s3 Hne3)
      as (s' & Ho & Hf & Hdd & Hci & Hgp & Hun & Hpl & _).
    cbv zeta in Ho. fold s3' in Ho, Hf, Hdd. rewrite Ho.
    exists s'. split; [reflexivity|]. rewrite Hf, Hdd, Hsubs.
    rewrite Sn, Kn, Hn, Ss, Ks, Hs.
    repeat split; auto; try (eapply Hpt; eassumption);
      apply Hrange; assumption.
  - assert (E : frames s3' = []).
    { pose proof (spin_length spin (default_duration_ms s3) s3) as Hl.
      fold s3' in Hl. apply truthy_false_iff in Ht3. rewrite Ht3 in Hl.
      destruct (frames s3'); [reflexivity | discriminate]. }
    assert (Hsubs : subs = []).
    { rewrite E in Hlen. destruct subs; [reflexivity | discriminate]. }
    cbn [frames set_unsaved_changes set_current_gif_path set_current_index].
    rewrite E. cbn [Py.truthy].
    eexists. split; [reflexivity|].
    cbn [frames current_index current_gif_path unsaved_changes is_playing
         default_duration_ms set_unsaved_changes set_current_gif_path
         set_current_index].
    rewrite E in Sn, Ss. cbn [map] in Sn, Ss.
    rewrite E, <- Hn, <- Kn, <- Sn, Hsubs. cbn [Py.truthy map].
    repeat split; auto; try congruence; try (eapply Hpt; eassumption);
      try (apply Hrange; assumption); try contradiction.
    + unfold ds. rewrite Hsubs. reflexivity.
    + match goal with H : nth_error [] ?i = Some _ |- _ =>
        destruct i; discriminate H end.
    + match goal with H : nth_error [] ?i = Some _ |- _ =>
        destruct i; discriminate H end.
Qed.


End ImportResult.


(** The second of three sub-images does not decode: the method raises with
    the frame of the first one in the list and the old cursor, 2, which is
    no row of that list. *)
Example import_raises_midway :
  let r :=
    GifImport.open_gif Demo.platform "clips/x.gif" true
      (Some (mkGif [Decodable (Some 120); Undecodable None; Decodable (Some 30)]
                   false))
      Demo.spin_box Demo.three_at_end in
  snd r = Raised /\
  map display_name (frames (fst (fst r))) = ["x_001.png"] /\
  current_index (fst (fst r)) = 2 /\
  default_duration_ms (fst (fst r)) = 100.
Proof. vm_compute. repeat split. Qed.

(** ** GIF import: the names are pairwise distinct *)

Section ImportNames.

(** Reading a printed number back. *)
Lemma str_nat_value (n : nat) :
  option_map Nat.of_uint (NilEmpty.uint_of_string (Py.str_nat n)) = Some n.
Proof.
  unfold Py.str_nat.
  pose proof (DecimalNat.Unsigned.of_to n) as Hn.
  destruct (Nat.to_uint n) as [|u|u|u|u|u|u|u|u|u|u] eqn:E;
    try (rewrite <- E; unfold NilZero.string_of_uint; rewrite E;
         rewrite NilEmpty.usu; cbn [option_map]; rewrite Hn; reflexivity).
  cbn in Hn. subst n. reflexivity.
Qed.

Lemma fmt_03d_value (n : nat) :
  option_map Nat.of_uint (NilEmpty.uint_of_string (Py.fmt_03d n)) = Some n.
Proof.
  pose proof (str_nat_value n) as H. unfold Py.fmt_03d.
  destruct (String.length (Py.str_nat n)) as [|[|[|k]]]; try exact H;
    cbn [append NilEmpty.uint_of_string];
    destruct (NilEmpty.uint_of_string (Py.str_nat n)) as [u|];
    try discriminate; cbn in H |- *; exact H.
Qed.

Lemma fmt_03d_inj (n m : nat) : Py.fmt_03d n = Py.fmt_03d m -> n = m.
Proof.
  intro E. pose proof (fmt_03d_value n) as Hn. rewrite E, fmt_03d_value in Hn.
  congruence.
Qed.

Lemma append_inj_l (a x y : string) : (a ++ x = a ++ y)%string -> x = y.
Proof.
  induction a as [|c a IH]; cbn; intro H; [exact H|].
  injection H as H. exact (IH H).
Qed.

Lemma list_ascii_of_string_app (x y : string) :
  list_ascii_of_string (x ++ y)
  = list_ascii_of_string x ++ list_ascii_of_string y.
Proof.
  induction x as [|c x IH]; cbn; [reflexivity | rewrite IH; reflexivity].
Qed.

Lemma append_inj_r (x y c : string) : (x ++ c = y ++ c)%string -> x = y.
Proof.
  intro H. apply (f_equal list_ascii_of_string) in H.
  rewrite !list_ascii_of_string_app in H. apply app_inv_tail in H.
  apply (f_equal string_of_list_ascii) in H.
  rewrite !string_of_list_ascii_of_string in H. exact H.
Qed.

Lemma frame_names_NoDup (base : string) (start k : nat) :
  NoDup (map (fun i => (base ++ "_" ++ Py.fmt_03d i ++ ".png")%string)
             (seq start k)).
Proof.
  apply Injective_map_NoDup; [|apply seq_NoDup].
  intros i j H. apply append_inj_l in H. apply append_inj_l in H.
  apply append_inj_r in H. apply fmt_03d_inj. exact H.
Qed.

Variable P : Platform.

(** X15, imported names.  An import whose decoding completes returns, and
    whether decoding completes or raises, the frames [open_gif] leaves have
    pairwise distinct names, so, when distinct names give distinct temporary
    paths, no two frames share a temporary file. *)
Theorem import_names_distinct (path : string) (g : GifImage)
        (spin : SpinBox) (s : State) :
  path <> "" ->
  let r := GifImport.open_gif P path true (Some g) spin s in
  let s' := fst (fst r) in
  (decode_raises g = false -> snd r = Returned) /\
  NoDup (map display_name (frames s')) /\
  ((forall a b, tmp_frame_path P a = tmp_frame_path P b -> a = b) ->
   NoDup (map source_path (frames s'))).
Proof.
  intros Hpath r s'. unfold s', r.
  destruct (open_gif_outcome P path g spin s Hpath) as [H1 H2].
  split.
  { intro E. destruct (H1 E) as (s1 & -> & _). reflexivity. }
  assert (Hnd : forall names sources,
             names
             = map (fun i => (path_stem P path ++ "_" ++ Py.fmt_03d i
                              ++ ".png")%string)
                   (seq 1 (List.length (decoded_prefix (gif_subs g)))) ->
             sources = map (tmp_frame_path P) names ->
             NoDup names /\
             ((forall a b, tmp_frame_path P a = tmp_frame_path P b -> a = b) ->
              NoDup sources)).
  { intros names sources -> ->.
    split; [apply frame_names_NoDup|].
    intro Hinj. apply Injective_map_NoDup; [exact Hinj|].
    apply frame_names_NoDup. }
  destruct (decode_raises g) eqn:E.
  - destruct (H2 eq_refl) as (nf & Ho & _ & Hn & Hs & _).
    rewrite Ho. cbn [fst frames set_frames].
    apply Hnd; [exact Hn | rewrite Hn; exact Hs].
  - destruct (H1 eq_refl) as (s1 & Ho & Hn & Hs & _).
    rewrite Ho. cbn [fst]. apply Hnd; [exact Hn | rewrite Hn; exact Hs].
Qed.

End ImportNames.

Lemma import_names_distinct_witness :
  "x.gif" <> "" /\
  snd (GifImport.open_gif Demo.platform "x.gif" true
         (Some (complete [Some 120; None; Some 30])) Demo.spin_box
         Demo.stopped) = Returned /\
  NoDup (map display_name
           (frames (fst (fst (GifImport.open_gif Demo.platform "x.gif" true
                                (Some (complete [Some 120; None; Some 30]))
                                Demo.spin_box Demo.stopped))))).
Proof.
  assert (H : "x.gif" <> "") by discriminate.
  split; [exact H|].
  destruct (import_names_distinct Demo.platform "x.gif"
              (complete [Some 120; None; Some 30]) Demo.spin_box
              Demo.stopped H) as (Hr & Hn & _).
  split; [exact (Hr eq_refl) | exact Hn].
Defined.

(** ** GIF export: a timeline whose frames all load *)

Section ExportAll.

Variable P : Platform.

Lemma surviving_all (out_size : Z * Z) (fs : list FrameData) :
  (forall f, In f fs -> loaded P f (Some out_size) <> None) ->
  map snd (surviving P out_size fs) = map duration_ms fs /\
  map Some (map fst (surviving P out_size fs))
  = map (fun f => loaded P f (Some out_size)) fs.
Proof.
  induction fs as [|f rest IH]; intro H; cbn [surviving map].
  - split; reflexivity.
  - destruct (IH (fun g Hg => H g (or_intror Hg))) as [I1 I2].
    destruct (loaded P f (Some out_size)) as [img|] eqn:E.
    + cbn. rewrite I1, I2. split; reflexivity.
    + exfalso. apply (H f (or_introl eq_refl)). exact E.
Qed.

(** X16, full export.  When the first frame loads and every frame loads at
    the canonical size, the encoder is called once with one image per frame
    - the loads of the frames, in timeline order - and with the frames'
    [duration_ms] in the same order, [loop = 0], [disposal = 2]; the unsaved
    flag is cleared when the encoder returns and the state is left as it was
    when the encoder raises. *)
Theorem export_all_loadable (path : string) (s : State) (f0 : FrameData)
        (rest : list FrameData) (img : Image) (w h : Z) :
  frames s = f0 :: rest ->
  GifExport.load_frame_image P f0 None = (Some img, w, h) ->
  (forall f, In f (frames s) -> loaded P f (Some (w, h)) <> None) ->
  exists first more,
    map Some (first :: more)
    = map (fun f => loaded P f (Some (w, h))) (frames s) /\
    GifExport._save_gif_to_path P path s
    = if gif_save_ok P
           (mkGifSave path first more (map duration_ms (frames s)) 0 2)
      then (set_unsaved_changes false s,
            [GifWrite
               (mkGifSave path first more (map duration_ms (frames s)) 0 2);
             MsgInformation "Save GIF"
               ("Saved animated GIF to:" ++ Py.newline ++ path)%string])
      else (s,
            [GifWrite
               (mkGifSave path first more (map duration_ms (frames s)) 0 2);
             MsgCritical "Save GIF" "Error saving GIF"]).
Proof.
  intros Hf Hl Hall.
  destruct (surviving_all (w, h) (frames s) Hall) as [Hd Hi].
  rewrite (save_after_first P path s f0 rest img w h Hf Hl).
  destruct (map fst (surviving P (w, h) (frames s))) as [|first more] eqn:E.
  - rewrite Hf in Hi. discriminate.
  - exists first, more. split; [exact Hi|]. cbv zeta. rewrite Hd.
    reflexivity.
Qed.

End ExportAll.

Lemma export_all_loadable_witness :
  frames Demo.three_loop = Demo.frame "a.png" 100 false false
                           :: [Demo.frame "b.png" 250 true true;
                               Demo.frame "c.png" 40 true false] /\
  exists first more,
    fst (GifExport._save_gif_to_path Demo.platform "o.gif" Demo.three_loop)
    = set_unsaved_changes false Demo.three_loop /\
    snd (GifExport._save_gif_to_path Demo.platform "o.gif" Demo.three_loop)
    = [GifWrite (mkGifSave "o.gif" first more [100; 250; 40] 0 2);
       MsgInformation "Save GIF"
         ("Saved animated GIF to:" ++ Py.newline ++ "o.gif")%string].
Proof.
  split; [reflexivity|].
  destruct (export_all_loadable Demo.platform "o.gif" Demo.three_loop
              _ _ (mkImage "a.png" 4 3) 4 3 eq_refl eq_refl)
    as (first & more & _ & Hs).
  - intros f [<-|[<-|[<-|[]]]]; discriminate.
  - exists first, more. rewrite Hs. split; reflexivity.
Defined.

(** ** Export of the checked frames: what is written *)

Section FrameExportMore.

Import FrameExport.

Variable P : Platform.

(** X17, only checked frames.  Whatever the answers and the file system, every
    file [export_checked] writes comes from a frame of the timeline that is
    checked, at most one file is written per checked frame, and the GIF
    encoder is never called; there is at most one save per checked frame,
    too. *)
Theorem export_checked_only_checked (out_dir_str : string) (s : State) :
  let tr := fst (export_checked P out_dir_str s) in
  (forall path src,
      In (FrameWrite path src) tr ->
      exists f, In f (frames s) /\ is_checked f = true /\ source_path f = src) /\
  (written tr <= List.length (filter is_checked (frames s)))%nat /\
  writes_gif tr = false /\
  (List.length (written_paths tr)
   <= List.length (filter is_checked (frames s)))%nat.
Proof.
  unfold export_checked.
  set (checked := filter is_checked (frames s)).
  destruct (Py.truthy checked); cbn [negb];
    [|cbn; repeat split; [intros path src [H|[]]; discriminate | lia | lia]].
  destruct (String.eqb out_dir_str "");
    [cbn; repeat split; [intros path src [H|[]]; discriminate | lia | lia]|].
  destruct (export_loop_written P (path_str P out_dir_str) checked
              [DirectoryDialog "Export Frames To Folder"]) as [Hw Hin].
  assert (Hsrc : forall e,
             In e (fst (export_loop P (path_str P out_dir_str) checked
                          [DirectoryDialog "Export Frames To Folder"])) ->
             match e with
             | FrameWrite _ src =>
                 exists f, In f (frames s) /\ is_checked f = true
                           /\ source_path f = src
             | GifWrite _ => False
             | _ => True
             end).
  { intros e He. destruct (Hin e He) as [[<-|[]]|(f & path & Hf & ->)];
      [exact I|].
    apply filter_In in Hf. exists f. tauto. }
  destruct (export_loop P (path_str P out_dir_str) checked
              [DirectoryDialog "Export Frames To Folder"]) as [tr c].
  cbn [fst] in *.
  assert (Hg : writes_gif tr = false).
  { unfold writes_gif. apply not_true_is_false. intro H.
    apply existsb_exists in H. destruct H as (e & He & Hb).
    specialize (Hsrc e He). destruct e; try discriminate. exact Hsrc. }
  destruct c; cbn [fst].
  - pose proof (written_le_saves
                  (tr ++ [MsgInformation "Export Frames"
                            ("Exported "
                             ++ Py.str_nat (List.length checked)
                             ++ " frame(s) to "
                             ++ path_str P out_dir_str)%string])) as Hle.
    rewrite written_paths_app, length_app in *.
    split; [|split; [|split]].
    + intros path src H. apply in_app_or in H.
      destruct H as [H|[H|[]]]; [exact (Hsrc _ H) | discriminate].
    + cbn in *. lia.
    + unfold writes_gif in *. rewrite existsb_app, Hg. reflexivity.
    + cbn in *. lia.
  - pose proof (written_le_saves tr) as Hle.
    split; [|split; [|split; [exact Hg|]]].
    + intros path src H. exact (Hsrc _ H).
    + cbn in *. lia.
    + cbn in *. lia.
Qed.

(** With every frame of the list exportable the loop returns, and saves
    once for each frame, to its target and in order. *)
Lemma export_loop_all (out_dir : string) (checked : list FrameData) :
  (forall f, In f checked -> exportable P out_dir f) ->
  forall tr,
  exists ws,
    export_loop P out_dir checked tr = (tr ++ ws, Returned) /\
    written_paths ws = map (export_target P out_dir) checked /\
    asks_directory ws = false.
Proof.
  induction checked as [|f rest IH]; intros Hall tr; cbn [export_loop].
  - exists []. rewrite app_nil_r. auto.
  - destruct (Hall f (or_introl eq_refl)) as (Hs & He & Hk).
    apply String.eqb_neq in Hs. rewrite Hs, He. cbn [negb orb].
    assert (Hrest : forall e,
               e = export_target P out_dir f ->
               exists ws,
                 export_loop P out_dir rest (tr ++ [FrameWrite e (source_path f)])
                 = (tr ++ ws, Returned) /\
                 written_paths ws = map (export_target P out_dir) (f :: rest) /\
                 asks_directory ws = false).
    { intros e ->.
      destruct (IH (fun g Hg => Hall g (or_intror Hg))
                   (tr ++ [FrameWrite (export_target P out_dir f)
                                      (source_path f)]))
        as (ws & Hl & Hw & Ha).
      exists (FrameWrite (export_target P out_dir f) (source_path f) :: ws).
      rewrite Hl, <- app_assoc. cbn [app]. split; [reflexivity|].
      split; [|exact Ha]. cbn. rewrite <- Hw. reflexivity. }
    unfold export_target in Hrest.
    destruct (String.eqb (str_lower P (path_suffix P (source_path f))) ".svg").
    + rewrite Hk. apply Hrest. reflexivity.
    + destruct Hk as [Ho Hsv]. rewrite Ho, Hsv. cbn [negb].
      apply Hrest. reflexivity.
Qed.

(** X18, the count is right when nothing is skipped.  With a directory
    chosen, every checked frame present and exportable (its source is
    there and, for an SVG, the pixmap saves, otherwise the image opens and
    saves) and no two checked frames sharing the path they are written to,
    [export_checked] returns after a single directory dialog, saves each
    checked frame to its path, in order, leaves exactly one file per checked
    frame, and the number in its closing message is the number of files
    written. *)
Theorem export_checked_all_written (out_dir_str : string) (s : State) :
  out_dir_str <> "" ->
  filter is_checked (frames s) <> [] ->
  (forall f, In f (frames s) -> is_checked f = true ->
             exportable P (path_str P out_dir_str) f) ->
  NoDup (map (export_target P (path_str P out_dir_str))
             (filter is_checked (frames s))) ->
  exists ws,
    export_checked P out_dir_str s
    = (DirectoryDialog "Export Frames To Folder" :: ws
       ++ [MsgInformation "Export Frames"
             ("Exported " ++ Py.str_nat (written ws)
              ++ " frame(s) to " ++ path_str P out_dir_str)%string],
       Returned) /\
    written_paths ws
    = map (export_target P (path_str P out_dir_str))
          (filter is_checked (frames s)) /\
    written ws = List.length (filter is_checked (frames s)) /\
    asks_directory ws = false.
Proof.
  intros Hd Hc Hall Hnd.
  destruct (export_loop_all (path_str P out_dir_str)
              (filter is_checked (frames s)))
    with (tr := [DirectoryDialog "Export Frames To Folder"])
    as (ws & Hl & Hw & Ha).
  { intros f Hf. apply filter_In in Hf. apply Hall; tauto. }
  assert (Hn : written ws = List.length (filter is_checked (frames s))).
  { unfold written. rewrite Hw, (nodup_fixed_point string_dec Hnd).
    apply length_map. }
  exists ws. split; [|split; [exact Hw | split; [exact Hn | exact Ha]]].
  rewrite (export_reports_checked P out_dir_str s _ Hc Hd Hl), Hn.
  reflexivity.
Qed.



End FrameExportMore.

Lemma export_checked_only_checked_witness :
  (FrameExport.written
     (fst (FrameExport.export_checked Demo.platform "out" Demo.checked_pair))
   <= List.length (filter is_checked (frames Demo.checked_pair)))%nat /\
  writes_gif
    (fst (FrameExport.export_checked Demo.platform "out" Demo.checked_pair))
  = false.
Proof.
  destruct (export_checked_only_checked Demo.platform "out" Demo.checked_pair)
    as (_ & Hw & Hg & _).
  split; [exact Hw | exact Hg].
Defined.

Lemma export_checked_all_written_witness :
  "out" <> "" /\
  filter is_checked (frames Demo.three_loop) <> [] /\
  exists ws,
    FrameExport.export_checked Demo.platform "out" Demo.three_loop
    = (DirectoryDialog "Export Frames To Folder" :: ws
       ++ [MsgInformation "Export Frames" "Exported 1 frame(s) to out"],
       Returned) /\
    FrameExport.written_paths ws = ["out/b.png"].
Proof.
  assert (H1 : "out" <> "") by discriminate.
  assert (H2 : filter is_checked (frames Demo.three_loop) <> [])
    by discriminate.
  split; [exact H1|]. split; [exact H2|].
  destruct (export_checked_all_written Demo.platform "out" Demo.three_loop
              H1 H2) as (ws & He & Hp & Hw & _).
  - intros f [<-|[<-|[<-|[]]]] Hc; try discriminate.
    vm_compute. split; [discriminate|]. split; [reflexivity|].
    split; reflexivity.
  - vm_compute. repeat constructor. intros [].
  - exists ws. split.
    + rewrite He, Hw. vm_compute. reflexivity.
    + rewrite Hp. vm_compute. reflexivity.
Defined.

(** Two checked frames that carry one name are saved to one path: the
    second save replaces the file of the first, one file is left, and the
    closing message says two. *)
Example export_same_name :
  FrameExport.export_checked Demo.platform "out" Demo.same_name
  = ([DirectoryDialog "Export Frames To Folder";
      FrameWrite "out/a.png" "a.png"; FrameWrite "out/a.png" "c.png";
      MsgInformation "Export Frames" "Exported 2 frame(s) to out"],
     Returned) /\
  FrameExport.written
    (fst (FrameExport.export_checked Demo.platform "out" Demo.same_name))
  = 1%nat.
Proof. vm_compute. split; reflexivity. Qed.

(** ** The invariants of the window state *)

Section Invariants.

Variable P : Platform.

Lemma Inv_initial : Inv initial_state.
Proof.
  unfold Inv, cursor_ok, durations_consistent, timer_ok, direction_ok. cbn.
  repeat split; auto; try discriminate; try tauto; intros; congruence.
Qed.

(** The unsaved flag and the stored path play no role in the invariants. *)
Lemma Inv_flags (u : bool) (g : option string) (s : State) :
  Inv s -> Inv (set_current_gif_path g (set_unsaved_changes u s)).
Proof. intro H. exact H. Qed.

(** An edit that installs a frame list and a cursor. *)
Lemma Inv_edit (fr : list FrameData) (c : Z) (s : State) :
  Inv s ->
  (fr = [] /\ c = -1) \/ 0 <= c < Py.len fr ->
  (forall f, In f fr -> is_custom_duration f = false ->
             duration_ms f = default_duration_ms s) ->
  Inv (mark_unsaved (set_current_index c (set_frames fr s))).
Proof.
  intros (_ & _ & Ht & Hd) Hc Hf.
  split; [exact Hc|]. split; [exact Hf|]. split; [exact Ht | exact Hd].
Qed.

Lemma stop_playback_inv (s : State) : Inv s -> Inv (Playback.stop_playback s).
Proof.
  intros (Hc & Hf & _ & Hd).
  split; [exact Hc|]. split; [exact Hf|]. split; [|exact Hd].
  unfold timer_ok. cbn. split; [split; intro; congruence|].
  intros ms Hms. discriminate.
Qed.

Lemma start_playback_inv (s : State) :
  Inv s -> exists s', Playback.start_playback s = Some s' /\ Inv s'.
Proof.
  intros HI. pose proof HI as (Hc & Hf & Ht & Hd).
  unfold Playback.start_playback.
  destruct (Py.truthy (frames s)) eqn:E; cbn [negb]; [|exists s; auto].
  apply truthy_true_iff in E.
  destruct Hc as [[Hc _]|Hc]; [contradiction|].
  cbn [current_index frames timer_stop set_play_timer set_is_playing].
  destruct (Z.geb_spec (current_index s) 0); [|lia].
  destruct (index_in_range (frames s) (current_index s) Hc) as (f & Hx & _).
  rewrite Hx. cbn. eexists. split; [reflexivity|].
  split; [right; exact Hc|]. split; [exact Hf|]. split; [|exact Hd].
  unfold timer_ok. cbn. split; [split; intro; congruence|].
  intros ms Hms. injection Hms as <-. lia.
Qed.

(** The advance rule leaves the state alone or sets the direction. *)
Lemma next_index_state (s : State) :
  snd (Playback.get_next_index_for_mode s) = s \/
  snd (Playback.get_next_index_for_mode s) = set_wave_direction 1 s \/
  snd (Playback.get_next_index_for_mode s) = set_wave_direction (-1) s.
Proof.
  unfold Playback.get_next_index_for_mode.
  destruct (Py.len (frames s) =? 0); [left; reflexivity|].
  destruct (String.eqb (animation_mode s) "loop"); [left; reflexivity|].
  destruct (String.eqb (animation_mode s) "wave"); [|left; reflexivity].
  destruct (current_index s <=? 0); [right; left; reflexivity|].
  destruct (current_index s >=? Py.len (frames s) - 1);
    [right; right; reflexivity | left; reflexivity].
Qed.

Lemma tick_inv (s : State) :
  Inv s ->
  play_timer s <> None ->
  exists s', Playback.advance_frame_for_playback s = Some s' /\ Inv s'.
Proof.
  intros HI Hrun. pose proof HI as (Hc & Hf & Ht & Hd).
  destruct (Py.truthy (frames s)) eqn:E.
  - assert (Hne : frames s <> []) by (apply truthy_true_iff; exact E).
    destruct (tick_nonempty s Hne) as (f & _ & Htick).
    destruct (next_index_valid s Hne) as (Hi & Hfr & Hpl & _).
    eexists. split; [exact Htick|].
    assert (Hplay : is_playing s = true) by (apply Ht; exact Hrun).
    destruct (next_index_state s) as [Hs|[Hs|Hs]]; rewrite Hs in *;
      (split; [right; cbn; exact Hi|]);
      (split; [exact Hf|]);
      (split; [|unfold direction_ok; cbn; auto]);
      unfold timer_ok; cbn;
      (split; [split; intro; congruence|]);
      intros ms Hms; injection Hms as <-; lia.
  - exists (Playback.stop_playback s).
    unfold Playback.advance_frame_for_playback. rewrite E. cbn [negb].
    split; [reflexivity | apply stop_playback_inv; exact HI].
Qed.

Lemma manual_step_inv (s : State) :
  Inv s ->
  Inv (Playback.prev_frame_clicked s) /\ Inv (Playback.next_frame_clicked s).
Proof.
  intro HI. unfold Playback.prev_frame_clicked, Playback.next_frame_clicked.
  destruct (Py.truthy (frames s)) eqn:E; cbn [negb]; [|auto].
  apply truthy_true_iff in E. pose proof (len_pos _ E) as Hn.
  destruct (stop_playback_inv s HI) as (_ & Hf & Ht & Hd).
  split; (split; [right; cbn; apply Z.mod_pos_bound; lia|]);
    (split; [exact Hf|]); (split; [exact Ht | exact Hd]).
Qed.

Lemma toggle_inv (s : State) :
  Inv s -> exists s', Playback.toggle_play_pause s = Some s' /\ Inv s'.
Proof.
  intro HI. unfold Playback.toggle_play_pause.
  destruct (is_playing s); [|apply start_playback_inv; exact HI].
  eexists. split; [reflexivity | apply stop_playback_inv; exact HI].
Qed.

Lemma remove_inv (idx : Z) (s : State) :
  Inv s -> Inv (Timeline.remove_selected idx s).
Proof.
  intro HI. pose proof HI as (Hc & Hf & Ht & Hd).
  unfold Timeline.remove_selected.
  destruct ((idx <? 0) || (idx >=? Py.len (frames s))) eqn:E; [exact HI|].
  apply orb_false_iff in E. destruct E as [E1 E2].
  apply Z.ltb_ge in E1. rewrite Z.geb_leb in E2. apply Z.leb_gt in E2.
  cbn [frames set_frames].
  assert (Hin : forall f, In f (Py.del (frames s) (Z.to_nat idx)) ->
                          is_custom_duration f = false ->
                          duration_ms f = default_duration_ms s).
  { intros f H. apply Hf. exact (del_In _ _ _ H). }
  destruct (Py.truthy (Py.del (frames s) (Z.to_nat idx))) eqn:Et; cbn [negb].
  - apply truthy_true_iff in Et. pose proof (len_pos _ Et).
    apply (Inv_edit _ _ s HI); [right; lia | exact Hin].
  - apply truthy_false_iff in Et.
    apply (Inv_edit _ _ s HI); [left; auto | exact Hin].
Qed.

Lemma duplicate_inv (idx : Z) (s : State) :
  Inv s -> exists s', Timeline.duplicate_selected idx s = Some s' /\ Inv s'.
Proof.
  intro HI. pose proof HI as (Hc & Hf & Ht & Hd).
  unfold Timeline.duplicate_selected.
  destruct ((idx <? 0) || (idx >=? Py.len (frames s))) eqn:E;
    [exists s; auto|].
  apply orb_false_iff in E. destruct E as [E1 E2].
  apply Z.ltb_ge in E1. rewrite Z.geb_leb in E2. apply Z.leb_gt in E2.
  destruct (index_in_range (frames s) idx (conj E1 E2)) as (f & Hx & Hn).
  rewrite Hx. eexists. split; [reflexivity|].
  apply (Inv_edit _ _ s HI).
  - right. unfold Py.len in *. rewrite insert_length. lia.
  - intros g Hg Hcu. apply insert_In in Hg. destruct Hg as [->|Hg].
    + cbn in *. apply Hf; [exact (nth_error_In _ _ Hn) | exact Hcu].
    + apply Hf; assumption.
Qed.

Lemma swap_inv (i j c : Z) (s : State) :
  Inv s ->
  0 <= i < Py.len (frames s) ->
  0 <= j < Py.len (frames s) ->
  0 <= c < Py.len (frames s) ->
  exists l,
    Timeline.swap_items (frames s) i j = Some l /\
    Inv (mark_unsaved (set_current_index c (set_frames l s))).
Proof.
  intros HI Hi Hj Hc. pose proof HI as (_ & Hf & _ & _).
  destruct (swap_items_in_range (frames s) i j Hi Hj)
    as (a & b & Ha & Hb & Hs).
  eexists. split; [exact Hs|].
  apply (Inv_edit _ _ s HI).
  - right. rewrite !len_replace_nth. exact Hc.
  - intros g Hg Hcu. apply Hf; [|exact Hcu].
    apply replace_nth_In in Hg. destruct Hg as [->|Hg];
      [exact (nth_error_In _ _ Hb)|].
    apply replace_nth_In in Hg. destruct Hg as [->|Hg];
      [exact (nth_error_In _ _ Ha) | exact Hg].
Qed.

Lemma move_inv (idx : Z) (s : State) :
  Inv s ->
  (idx < Py.len (frames s) ->
   exists s', Timeline.move_up idx s = Some s' /\ Inv s') /\
  (exists s', Timeline.move_down idx s = Some s' /\ Inv s').
Proof.
  intro HI. split.
  - intro Hlt. unfold Timeline.move_up.
    destruct (Z.leb_spec idx 0); [exists s; auto|].
    destruct (swap_inv (idx - 1) idx (idx - 1) s HI) as (l & Hs & Hl);
      try lia.
    rewrite Hs. eexists. split; [reflexivity | exact Hl].
  - unfold Timeline.move_down.
    destruct ((idx <? 0) || (idx >=? Py.len (frames s) - 1)) eqn:E;
      [exists s; auto|].
    apply orb_false_iff in E. destruct E as [E1 E2].
    apply Z.ltb_ge in E1. rewrite Z.geb_leb in E2. apply Z.leb_gt in E2.
    destruct (swap_inv (idx + 1) idx (idx + 1) s HI) as (l & Hs & Hl);
      try lia.
    rewrite Hs. eexists. split; [reflexivity | exact Hl].
Qed.

Lemma edit_inv (idx : Z) (answer : Z * bool) (s : State) :
  Inv s ->
  exists s', Timeline.edit_duration_for_frame idx answer s = Some s' /\ Inv s'.
Proof.
  intro HI. pose proof HI as (_ & Hf & _ & _).
  unfold Timeline.edit_duration_for_frame.
  destruct ((idx <? 0) || (idx >=? Py.len (frames s))) eqn:E;
    [exists s; auto|].
  apply orb_false_iff in E. destruct E as [E1 E2].
  apply Z.ltb_ge in E1. rewrite Z.geb_leb in E2. apply Z.leb_gt in E2.
  destruct (index_in_range (frames s) idx (conj E1 E2)) as (f & Hx & Hn).
  rewrite Hx. destruct answer as [val [|]]; [|exists s; auto].
  rewrite store_in_range by lia.
  eexists. split; [reflexivity|].
  apply (Inv_edit _ _ s HI).
  - right. rewrite len_replace_nth. lia.
  - intros g Hg Hcu. apply replace_nth_In in Hg. destruct Hg as [->|Hg].
    + cbn in *. apply negb_false_iff in Hcu. apply Z.eqb_eq. exact Hcu.
    + apply Hf; assumption.
Qed.

Lemma click_inv (idx column : Z) (answer : Z * bool) (s : State) :
  Inv s ->
  0 <= idx < Py.len (frames s) ->
  exists s',
    Timeline.on_tree_item_clicked idx column answer s = Some s' /\ Inv s'.
Proof.
  intros HI Hi. pose proof HI as (_ & Hf & _ & _).
  unfold Timeline.on_tree_item_clicked.
  destruct (column =? 3); [apply edit_inv; exact HI|].
  destruct (index_in_range (frames s) idx Hi) as (f & Hx & Hn).
  rewrite Hx, store_in_range by lia.
  eexists. split; [reflexivity|].
  apply (Inv_edit _ _ s HI).
  - right. rewrite len_replace_nth. lia.
  - intros g Hg Hcu. apply replace_nth_In in Hg. destruct Hg as [->|Hg].
    + cbn in *. apply Hf; [exact (nth_error_In _ _ Hn) | exact Hcu].
    + apply Hf; assumption.
Qed.

Lemma default_changed_inv (value : Z) (s : State) :
  Inv s -> Inv (Timeline.on_default_duration_changed value s).
Proof.
  intros (Hc & Hf & Ht & Hd).
  split; [|split; [|split; [exact Ht | exact Hd]]].
  - unfold cursor_ok in *. cbn. unfold Py.len in *. rewrite length_map.
    destruct Hc as [[Hc1 Hc2]|Hc]; [left | right; exact Hc].
    rewrite Hc1. auto.
  - intros f Hin Hcu. cbn in *. apply in_map_iff in Hin.
    destruct Hin as (g & <- & _). unfold Timeline.apply_default in *.
    destruct (is_custom_duration g) eqn:Eg; cbn in *; [congruence|].
    reflexivity.
Qed.

Lemma overwrite_inv (s : State) :
  Inv s -> Inv (Timeline.on_overwrite_all_clicked s).
Proof.
  intros (Hc & Hf & Ht & Hd).
  split; [|split; [|split; [exact Ht | exact Hd]]].
  - unfold cursor_ok in *. cbn. unfold Py.len in *. rewrite length_map.
    destruct Hc as [[Hc1 Hc2]|Hc]; [left | right; exact Hc].
    rewrite Hc1. auto.
  - intros f Hin Hcu. cbn in *. apply in_map_iff in Hin.
    destruct Hin as (g & <- & _). reflexivity.
Qed.

Lemma append_files_In (d : Z) (files : list string) :
  forall fr f,
    In f (Timeline.append_files P d files fr) ->
    In f fr \/ (duration_ms f = d /\ is_custom_duration f = false).
Proof.
  induction files as [|x rest IH]; intros fr f H; cbn in H; [left; exact H|].
  destruct (IH _ _ H) as [H'|H']; [|right; exact H'].
  apply in_app_or in H'. destruct H' as [H'|[<-|[]]]; [left; exact H'|].
  right. split; reflexivity.
Qed.

Lemma add_inv (files : list string) (s : State) :
  Inv s -> exists s', Timeline.add_images P files s = Some s' /\ Inv s'.
Proof.
  intro HI. pose proof HI as (Hc & Hf & Ht & Hd).
  unfold Timeline.add_images.
  destruct (Py.truthy files) eqn:Efiles; cbn [negb]; [|exists s; auto].
  set (fr := Timeline.append_files P (default_duration_ms s) files (frames s)).
  assert (Hlen : Py.len fr = Py.len (frames s) + Py.len files).
  { unfold Py.len, fr. rewrite append_files_length. lia. }
  assert (Hpos : 1 <= Py.len files).
  { apply len_pos. apply truthy_true_iff. exact Efiles. }
  assert (Hne : Py.truthy fr = true).
  { apply truthy_true_iff. intro E. rewrite E in Hlen. cbn in Hlen.
    unfold Py.len in *. lia. }
  cbn [frames set_frames current_index]. rewrite Hne.
  set (c := if (current_index s =? -1) && true then 0 else current_index s).
  assert (Hs2 :
    (if (current_index s =? -1) && true
     then set_current_index 0 (set_frames fr s) else set_frames fr s)
    = set_current_index c (set_frames fr s)).
  { subst c. destruct ((current_index s =? -1) && true); [reflexivity|].
    destruct s; reflexivity. }
  rewrite Hs2.
  assert (HI3 : Inv (mark_unsaved (set_current_index c (set_frames fr s)))).
  { apply (Inv_edit _ _ s HI).
    - right. subst c. unfold Py.len in *.
      destruct (Z.eqb_spec (current_index s) (-1)); cbn [andb];
        rewrite Hlen; [lia|].
      destruct Hc as [[Hc1 Hc2]|Hc]; [congruence | unfold Py.len in Hc; lia].
    - intros f Hin Hcu. destruct (append_files_In _ _ _ _ Hin) as [H|[H _]];
        [apply Hf; assumption | exact H]. }
  cbn [frames is_playing mark_unsaved set_unsaved_changes set_current_index
       set_frames].
  rewrite Hne. cbn [andb].
  destruct (is_playing s); cbn [negb];
    [eexists; split; [reflexivity | exact HI3]|].
  apply start_playback_inv. exact HI3.
Qed.

Lemma guard_inv (resp : Response) (answer : string) (s : State) :
  Inv s ->
  Inv (snd (fst (Project.maybe_save_before_discard P resp answer s))).
Proof.
  intro HI. destruct (guard_shape P resp answer s) as (u & g & -> & _).
  apply Inv_flags. exact HI.
Qed.

Lemma new_project_inv (resp : Response) (answer : string) (s : State) :
  Inv s -> Inv (fst (Project.new_project P resp answer s)).
Proof.
  intro HI. pose proof (guard_inv resp answer s HI) as HI1.
  unfold Project.new_project.
  destruct (Project.maybe_save_before_discard P resp answer s)
    as [[ok s1] tr]. cbn [fst snd] in *.
  destruct ok; cbn [negb fst]; [|exact HI1].
  destruct HI1 as (_ & _ & Ht & Hd).
  split; [left; split; reflexivity|].
  split; [intros f []|]. split; [exact Ht | exact Hd].
Qed.

(** The spin box keeps what the post-pass established. *)
Lemma spin_set_value_inv (spin : SpinBox) (v : Z) (s : State) :
  durations_consistent s -> timer_ok s -> direction_ok s ->
  durations_consistent (GifImport.spin_set_value spin v s) /\
  timer_ok (GifImport.spin_set_value spin v s) /\
  direction_ok (GifImport.spin_set_value spin v s).
Proof.
  intros Hf Ht Hd.
  destruct (spin_set_value_shape spin v s) as [-> | [_ ->]]; [auto|].
  split; [|split; [exact Ht | exact Hd]].
  intros f Hin Hcu. cbn in *. apply in_map_iff in Hin.
  destruct Hin as (g & <- & _). unfold Timeline.apply_default in *.
  destruct (is_custom_duration g) eqn:Eg; cbn in *; [congruence|].
  reflexivity.
Qed.

(** When [open_gif] returns, the invariants hold. *)
Lemma open_gif_inv (path : string) (ok : bool) (im : option GifImage)
      (spin : SpinBox) (s : State) :
  Inv s ->
  forall s' tr,
    GifImport.open_gif P path ok im spin s = (s', tr, Returned) -> Inv s'.
Proof.
  intros HI s' tr. pose proof HI as (Hc & Hf & Ht & Hd).
  unfold GifImport.open_gif.
  destruct (String.eqb path ""); [intro H; injection H as <- _; exact HI|].
  destruct ok; cbn [negb]; [|intro H; injection H as <- _; exact HI].
  destruct im as [g|]; [|intro H; injection H as <- _; exact HI].
  cbn [frames set_frames default_duration_ms].
  destruct (GifImport.decode_loop P (path_stem P path) (default_duration_ms s)
                                  (gif_subs g) (gif_iterator_raises g) 1 [] [])
    as [[ds fr] c].
  destruct c; [|discriminate].
  set (s3 := GifImport.post_pass ds (set_frames fr (set_frames [] s))).
  assert (H3 : durations_consistent s3 /\ timer_ok s3 /\ direction_ok s3).
  { split; [apply post_pass_consistent|].
    unfold s3, GifImport.post_pass.
    destruct (Py.truthy ds && GifImport.all_equal_first ds); cbn; auto. }
  destruct H3 as (Hf3 & Ht3 & Hd3).
  destruct (spin_set_value_inv spin (default_duration_ms s3) s3 Hf3 Ht3 Hd3)
    as (Hf4 & Ht4 & Hd4).
  set (s3' := GifImport.spin_set_value spin (default_duration_ms s3) s3) in *.
  cbn [frames set_unsaved_changes set_current_gif_path set_current_index].
  destruct (Py.truthy (frames s3')) eqn:E.
  - apply truthy_true_iff in E. pose proof (len_pos _ E) as Hpos.
    destruct (start_playback_inv
                (set_unsaved_changes false
                   (set_current_gif_path (Some path)
                      (set_current_index 0 s3'))))
      as (s7 & Hsp & HI7).
    { split; [right; cbn; lia|]. split; [exact Hf4|].
      split; [exact Ht4 | exact Hd4]. }
    rewrite Hsp. intro H. injection H as <- _. exact HI7.
  - apply truthy_false_iff in E. intro H. injection H as <- _.
    split; [left; cbn; auto|]. split; [exact Hf4|].
    split; [exact Ht4 | exact Hd4].
Qed.


(** Every slot that returns keeps the invariants, on a row the tree can
    name. *)
Lemma handle_inv (e : UiEvent) (s : State) :
  Inv s ->
  Ui.selection_ok e s ->
  forall s', Ui.handle P e s = Some s' -> Inv s'.
Proof.
  intros HI Hsel s'.
  assert (Hfrom : forall r : option State,
             (exists s1, r = Some s1 /\ Inv s1) -> r = Some s' -> Inv s').
  { intros r (s1 & -> & H1) H. injection H as <-. exact H1. }
  destruct e as [idx col ans | idx col ans | files | idx | idx | idx | idx
                | dir | | | | value | | data | | resp ans
                | pth resp ans im spin | ans | pth | accepted | resp ans];
    cbn [Ui.handle Ui.selection_ok] in *.
  - apply Hfrom. apply click_inv; assumption.
  - apply Hfrom. unfold Timeline.on_tree_item_double_clicked.
    destruct (col =? 3); [apply edit_inv; exact HI | exists s; auto].
  - apply Hfrom. apply add_inv. exact HI.
  - apply Hfrom. eexists. split; [reflexivity | apply remove_inv; exact HI].
  - apply Hfrom. apply duplicate_inv. exact HI.
  - apply Hfrom. apply (proj1 (move_inv idx s HI)). lia.
  - apply Hfrom. apply (proj2 (move_inv idx s HI)).
  - unfold Ui.returned.
    destruct (snd (FrameExport.export_checked P dir s)); [|discriminate].
    intro H. injection H as <-. exact HI.
  - apply Hfrom. apply toggle_inv. exact HI.
  - apply Hfrom.
    eexists. split; [reflexivity | apply manual_step_inv; exact HI].
  - apply Hfrom.
    eexists. split; [reflexivity | apply manual_step_inv; exact HI].
  - apply Hfrom.
    eexists. split; [reflexivity | apply default_changed_inv; exact HI].
  - apply Hfrom.
    eexists. split; [reflexivity | apply overwrite_inv; exact HI].
  - apply Hfrom. eexists. split; [reflexivity | exact HI].
  - apply Hfrom. destruct (play_timer s) as [ms|] eqn:E; [|exists s; auto].
    apply tick_inv; [exact HI | congruence].
  - apply Hfrom.
    eexists. split; [reflexivity | apply new_project_inv; exact HI].
  - unfold Project.open_gif_guarded.
    destruct (String.eqb pth "");
      [cbn; intro H; injection H as <-; exact HI|].
    pose proof (guard_inv resp ans s HI) as HI1.
    destruct (Project.maybe_save_before_discard P resp ans s)
      as [[ok s1] tr]. cbn [fst snd] in HI1.
    pose proof (open_gif_inv pth ok im spin s1 HI1) as Ho.
    destruct (GifImport.open_gif P pth ok im spin s1) as [[s2 tr'] c].
    unfold Ui.returned. destruct c; [|discriminate].
    intro H. injection H as <-. exact (Ho s2 tr' eq_refl).
  - apply Hfrom. eexists. split; [reflexivity|].
    destruct (save_gif_shape P ans s) as (u & g & -> & _).
    apply Inv_flags. exact HI.
  - apply Hfrom. eexists. split; [reflexivity|].
    destruct (save_gif_as_shape P pth s) as (u & g & -> & _).
    apply Inv_flags. exact HI.
  - apply Hfrom. eexists. split; [reflexivity|]. destruct accepted; exact HI.
  - apply Hfrom. eexists. split; [reflexivity|]. apply guard_inv. exact HI.
Qed.


Lemma reachable_inv (s : State) : Ui.reachable P s -> Inv s.
Proof.
  induction 1 as [|e s s' Hr IH Hsel Hh].
  - exact Inv_initial.
  - exact (handle_inv e s IH Hsel s' Hh).
Qed.

End Invariants.

(** ** What holds in every state the window can reach *)

Section Reachable.

Variable P : Platform.

(** X19, the cursor.  In every reachable state the cursor is -1 on an empty
    timeline and the index of a frame otherwise. *)
Theorem reachable_cursor_valid (s : State) :
  Ui.reachable P s ->
  (frames s = [] /\ current_index s = -1) \/
  0 <= current_index s < Py.len (frames s).
Proof.
  intro H. exact (proj1 (reachable_inv P s H)).
Qed.

(** X20, unpinned frames.  In every reachable state a frame that is not
    pinned has the default duration, so the default that the frame list
    shows for it is the duration playback and export use. *)
Theorem reachable_unpinned_default (s : State) :
  Ui.reachable P s ->
  forall f, In f (frames s) ->
            is_custom_duration f = false ->
            duration_ms f = default_duration_ms s.
Proof.
  intro H. exact (proj1 (proj2 (reachable_inv P s H))).
Qed.

(** X21, the timer.  In every reachable state the playing flag is up exactly
    when the timer runs, and a running timer has an interval of at least
    10 ms. *)
Theorem reachable_timer (s : State) :
  Ui.reachable P s ->
  (is_playing s = true <-> play_timer s <> None) /\
  forall ms, play_timer s = Some ms -> 10 <= ms.
Proof.
  intro H. exact (proj1 (proj2 (proj2 (reachable_inv P s H)))).
Qed.


End Reachable.

(** The project after two files were added and the timer fired once. *)
Lemma demo_reachable :
  exists s,
    Ui.handle Demo.platform TimerTimeout
      (mkState [Demo.frame "a.png" 100 false false;
                Demo.frame "b.png" 100 false false]
               0 100 "loop" true (Some 100) 1 true None) = Some s /\
    Ui.reachable Demo.platform s /\
    current_index s = 1.
Proof.
  eexists. split; [reflexivity|]. split; [|reflexivity].
  exact (Ui.reach_step Demo.platform TimerTimeout
           (mkState [Demo.frame "a.png" 100 false false;
                     Demo.frame "b.png" 100 false false]
                    0 100 "loop" true (Some 100) 1 true None)
           _
           (Ui.reach_step Demo.platform (AddClicked ["a.png"; "b.png"])
              initial_state _ (Ui.reach_init Demo.platform) I eq_refl)
           I eq_refl).
Defined.

Lemma reachable_cursor_valid_witness :
  exists s,
    Ui.reachable Demo.platform s /\
    frames s <> [] /\
    0 <= current_index s < Py.len (frames s).
Proof.
  destruct demo_reachable as (s & Hh & Hr & Hc).
  exists s. split; [exact Hr|].
  assert (Hne : frames s <> []).
  { injection Hh as <-. discriminate. }
  split; [exact Hne|].
  destruct (reachable_cursor_valid Demo.platform s Hr) as [[H _]|H];
    [contradiction | exact H].
Defined.

Lemma reachable_unpinned_default_witness :
  exists s,
    Ui.reachable Demo.platform s /\
    forall f, In f (frames s) -> is_custom_duration f = false ->
              duration_ms f = default_duration_ms s.
Proof.
  destruct demo_reachable as (s & _ & Hr & _).
  exists s. split; [exact Hr|].
  exact (reachable_unpinned_default Demo.platform s Hr).
Defined.

Lemma reachable_timer_witness :
  exists s,
    Ui.reachable Demo.platform s /\
    (is_playing s = true <-> play_timer s <> None) /\
    forall ms, play_timer s = Some ms -> 10 <= ms.
Proof.
  destruct demo_reachable as (s & _ & Hr & _).
  exists s. split; [exact Hr|].
  exact (reachable_timer Demo.platform s Hr).
Defined.



(** ** Adding frames: what is appended *)

Section AddImages.

Variable P : Platform.

Lemma append_files_map (d : Z) (files : list string) :
  forall fr,
    Timeline.append_files P d files fr
    = fr ++ map (fun f => mkFrame (path_str P f) (path_name P f) d false false)
                files.
Proof.
  induction files as [|x rest IH]; intro fr; cbn.
  - rewrite app_nil_r. reflexivity.
  - rewrite IH, <- app_assoc. reflexivity.
Qed.

(** X23, add.  With at least one file chosen and the cursor where the
    invariant puts it, [add_images] returns; the old frames stay in place
    and one frame per file follows them in the order of the dialog, each
    with the file's path and name, the default duration, unpinned and
    unchecked; the cursor goes to 0 if the timeline was empty and stays
    otherwise; the unsaved flag is up. *)
Theorem add_images_appends (files : list string) (s : State) :
  files <> [] ->
  (frames s = [] /\ current_index s = -1) \/
  0 <= current_index s < Py.len (frames s) ->
  exists s',
    Timeline.add_images P files s = Some s' /\
    frames s'
    = frames s
      ++ map (fun f => mkFrame (path_str P f) (path_name P f)
                               (default_duration_ms s) false false) files /\
    current_index s'
    = (if Py.truthy (frames s) then current_index s else 0) /\
    default_duration_ms s' = default_duration_ms s /\
    unsaved_changes s' = true.
Proof.
  intros Hfiles Hc. unfold Timeline.add_images.
  apply truthy_true_iff in Hfiles. rewrite Hfiles. cbn [negb].
  rewrite append_files_map.
  set (fr := frames s ++ map _ files).
  assert (Hlen : Py.len fr = Py.len (frames s) + Py.len files).
  { unfold Py.len, fr. rewrite length_app, length_map. lia. }
  assert (Hpos : 1 <= Py.len files).
  { apply len_pos. apply truthy_true_iff. exact Hfiles. }
  assert (Hnn : 0 <= Py.len (frames s)) by (unfold Py.len; lia).
  assert (Ht : Py.truthy fr = true).
  { apply truthy_true_iff. intro E. rewrite E in Hlen. cbn in Hlen. lia. }
  cbn [frames set_frames current_index]. rewrite Ht.
  set (c := if Py.truthy (frames s) then current_index s else 0).
  assert (Hs2 :
    (if (current_index s =? -1) && true
     then set_current_index 0 (set_frames fr s) else set_frames fr s)
    = set_current_index c (set_frames fr s)).
  { subst c. destruct Hc as [[He Hm1]|Hc].
    - rewrite He, Hm1. reflexivity.
    - destruct (Z.eqb_spec (current_index s) (-1)); [lia|].
      destruct (Py.truthy (frames s)) eqn:E.
      + cbn [andb]. destruct s; reflexivity.
      + apply truthy_false_iff in E. rewrite E in Hc. cbn in Hc. lia. }
  assert (Hcr : 0 <= c < Py.len fr).
  { subst c. rewrite Hlen. destruct Hc as [[He Hm1]|Hc].
    - rewrite He. cbn. lia.
    - destruct (Py.truthy (frames s)); lia. }
  rewrite Hs2.
  cbn [frames is_playing mark_unsaved set_unsaved_changes set_current_index
       set_frames].
  rewrite Ht. cbn [andb].
  destruct (is_playing s); cbn [negb].
  - eexists. split; [reflexivity|]. cbn. auto.
  - unfold Playback.start_playback.
    cbn [frames current_index timer_stop set_play_timer set_is_playing
         mark_unsaved set_unsaved_changes set_current_index set_frames].
    rewrite Ht. cbn [negb].
    destruct (Z.geb_spec c 0); [|lia].
    destruct (index_in_range fr c Hcr) as (f & Hx & _).
    rewrite Hx. cbn. eexists. split; [reflexivity|]. cbn. auto.
Qed.

End AddImages.

Lemma add_images_appends_witness :
  ["d.png"] <> [] /\
  exists s',
    Timeline.add_images Demo.platform ["d.png"] Demo.three_at_end = Some s' /\
    map display_name (frames s') = ["a.png"; "b.png"; "c.png"; "d.png"] /\
    current_index s' = 2.
Proof.
  assert (H : ["d.png"] <> []) by discriminate.
  split; [exact H|].
  destruct (add_images_appends Demo.platform ["d.png"] Demo.three_at_end H)
    as (s' & Ha & Hf & Hc & _); [right; cbn; lia|].
  exists s'. split; [exact Ha|]. rewrite Hf, Hc. split; reflexivity.
Defined.
